(** * DoorOpener: the authentication and brute-force protection engine

    A shallow embedding of [app.py]: the helpers [get_client_identifier],
    [get_delay_seconds], [check_global_rate_limit], [is_request_suspicious],
    [validate_pin_input], and the request handlers [open_door] and
    [admin_auth], followed by the properties of the rate limiter and of the
    two authentication paths.

    Conventions of the embedding.
    - A Python [str] is a [string]; a character is its code point (below 256).
    - A [datetime], a [timedelta] and a [time.time()] reading are integers
      ([Z]) counting microseconds, so [.timestamp()] and [float(..)] are the
      identity and [total_seconds()] divides by 1_000_000. The timestamps
      kept in the session ([blocked_until_ts], [oidc_exp]) are on the same
      scale.
    - The module-level [defaultdict] tables are [gmap]s; a subscript read of a
      missing key stores the default, as [defaultdict.__getitem__] does.
    - The Flask [session] is a record with one optional field per key.
    - What a request takes from outside the process (clock readings, the
      random session token, the users store, Home Assistant's answer) is the
      [oracle] of that request. *)

From stdpp Require Import base option gmap strings pretty list.
From Stdlib Require Import ZArith String Ascii Lia.

Open Scope string_scope.
Open Scope Z_scope.

(** ** Python strings *)

Module PyStr.

Definition ord (c : ascii) : Z := Z.of_N (N_of_ascii c).

(** [str.isdigit] on one character: the decimal digits and, in this range
    of code points, SUPERSCRIPT TWO, THREE and ONE. *)
Definition isdigit_char (c : ascii) : bool :=
  ((48 <=? ord c) && (ord c <=? 57))
  || (ord c =? 178) || (ord c =? 179) || (ord c =? 185).

Fixpoint all_chars (p : ascii → bool) (s : string) : bool :=
  match s with
  | EmptyString => true
  | String c s' => p c && all_chars p s'
  end.

(** [s.isdigit()]: every character is a digit and there is at least one. *)
Definition isdigit (s : string) : bool :=
  match s with
  | EmptyString => false
  | _ => all_chars isdigit_char s
  end.

Definition len (s : string) : Z := Z.of_nat (String.length s).

(** [s.lower()] for code points below 256. *)
Definition lower_char (c : ascii) : ascii :=
  let n := ord c in
  if ((65 <=? n) && (n <=? 90))
     || ((192 <=? n) && (n <=? 222) && negb (n =? 215))
  then ascii_of_N (Z.to_N (n + 32)) else c.

Fixpoint lower (s : string) : string :=
  match s with
  | EmptyString => EmptyString
  | String c s' => String (lower_char c) (lower s')
  end.

(** [sub in s] *)
Definition contains (sub s : string) : bool :=
  match String.index 0 sub s with Some _ => true | None => false end.

(** [s[:n]] *)
Definition take (n : nat) (s : string) : string := String.substring 0 n s.

(** [s.startswith(p)] *)
Definition startswith (p s : string) : bool := String.prefix p s.

(** truth value of a string *)
Definition truthy (s : string) : bool :=
  match s with EmptyString => false | _ => true end.

Definition is_ascii_decimal (c : ascii) : bool :=
  (48 <=? ord c) && (ord c <=? 57).

End PyStr.

(** ** JSON values, as [request.get_json] returns them

    [JNull] is Python's [None] (also what [get_json(silent=True)] gives for a
    missing or unparsable body). Numbers keep only what the handlers look at:
    that they are not strings, and whether they are zero. *)

#[warnings="-register-all"]
Inductive json : Type :=
| JNull
| JBool (b : bool)
| JNum (n : Z)
| JStr (s : string)
| JList (l : list json)
| JDict (d : list (string * json)).

Definition json_truthy (v : json) : bool :=
  match v with
  | JNull => false
  | JBool b => b
  | JNum n => negb (n =? 0)
  | JStr s => PyStr.truthy s
  | JList l => match l with [] => false | _ => true end
  | JDict d => match d with [] => false | _ => true end
  end.

Fixpoint dict_get (k : string) (d : list (string * json)) : option json :=
  match d with
  | [] => None
  | (k', v) :: d' => if String.eqb k k' then Some v else dict_get k d'
  end.

(** ** Configuration read at start-up *)

Record config := Config {
  MAX_ATTEMPTS : Z;
  BLOCK_TIME : Z;                       (* timedelta, in microseconds *)
  MAX_GLOBAL_ATTEMPTS_PER_HOUR : Z;
  SESSION_MAX_ATTEMPTS : Z;
  test_mode : bool;
  oauth : bool;                         (* bool(oauth): the client is registered *)
  oidc_user_group : string;
  require_pin_for_oidc : bool;
  entity_id : string;
  admin_password : string;
  hash : string → Z                     (* the interpreter's hash() on str *)
}.

Definition one_second : Z := 1000000.
Definition one_hour : Z := 3600 * one_second.

(** ** Pure helpers *)

(** [get_delay_seconds]: progressive delay 1s, 2s, 4s, 8s, 16s. *)
Definition get_delay_seconds (attempt_count : Z) : Z :=
  if 0 <? attempt_count then Z.min (2 ^ (attempt_count - 1)) 16 else 0.

(** [validate_pin_input]: a value that is not a [str] raises [ValueError]
    inside the [try], and the [except] clause answers [(False, None)]. *)
Definition validate_pin_input (pin : json) : bool * option string :=
  match pin with
  | JStr s =>
      if negb (PyStr.isdigit s)
         || negb ((4 <=? PyStr.len s) && (PyStr.len s <=? 8))
      then (false, None)
      else (true, Some s)
  | _ => (false, None)
  end.

(** ** The shared tables and the caller's session *)

(** The module-level rate-limit state ([ip_failed_attempts] ...
    [global_last_reset]). A [datetime] value of a block table is [Some t];
    the default of those tables is [None]. *)
Record server_state := ServerState {
  ip_failed_attempts : gmap string Z;
  ip_blocked_until : gmap string (option Z);
  session_failed_attempts : gmap string Z;
  session_blocked_until : gmap string (option Z);
  global_failed_attempts : Z;
  global_last_reset : Z
}.

(** The signed session cookie. A field is what [session.get(key)] returns;
    [session.pop(key, None)] makes it [None]. *)
Record session := Session {
  _session_id : option string;
  blocked_until_ts : option Z;
  oidc_authenticated : option bool;
  oidc_user : option string;
  oidc_groups : option (list string);
  oidc_exp : option Z;
  admin_authenticated : option bool;
  admin_login_time : option Z;
  permanent : bool
}.

Definition empty_session : session :=
  Session None None None None None None None None false.

(** [d[k]] on a [defaultdict]: a missing key is stored with the default. *)
Definition dd_getitem {V} (dflt : V) (k : string) (m : gmap string V)
  : V * gmap string V :=
  match m !! k with
  | Some v => (v, m)
  | None => (dflt, <[k := dflt]> m)
  end.

(** What a table holds for a key, as any read of it would see. *)
Definition counter_of (m : gmap string Z) (k : string) : Z :=
  default 0 (m !! k).

Definition block_of (m : gmap string (option Z)) (k : string) : option Z :=
  default None (m !! k).

(** [b and now < b] for a block-table value [b]: a [datetime] is truthy. *)
Definition block_active (b : option Z) (now : Z) : bool :=
  match b with
  | Some t => now <? t
  | None => false
  end.

(** [ts and time.time() < float(ts)] for the cookie value: a float is
    truthy unless it is zero. *)
Definition cookie_block_active (ts : option Z) (t : Z) : bool :=
  match ts with
  | Some v => negb (v =? 0) && (t <? v)
  | None => false
  end.

(** ** What the handlers emit *)

Inductive log_status :=
| SUSPICIOUS | GLOBAL_BLOCKED | SESSION_BLOCKED | IP_BLOCKED | BLOCK_ENFORCED
| SUCCESS | FAILURE | API_FAILURE | INVALID_FORMAT | AUTH_FAILURE | EXCEPTION
| ADMIN_SESSION_BLOCKED | ADMIN_SUCCESS | ADMIN_FAILURE.

(** The [reason] / [details] texts, with the numbers they interpolate. *)
Inductive details :=
| SuspiciousRequestDetected
| GlobalRateLimitExceeded
| SessionBlockedPersisted (remaining : Z)
| SessionBlockedFor (remaining : Z)
| IpBlockedFor (remaining : Z)
| AccessBlockedFor (remaining : Z)
| DoorOpenedTestOidc
| DoorOpenedOidc
| DoorOpenedTest
| DoorOpened
| HomeAssistantApiError (status_code : Z)
| InternalErrorDuringApiCall
| InvalidPinFormat
| InvalidPinSessionBlocked (minutes : Z)
| InvalidPinAccessBlocked (minutes : Z)
| InvalidPinRemaining (remaining_attempts : Z)
| ExceptionInOpenDoor
| AdminAuthBlockedFor (remaining : Z)
| AdminLogin
| InvalidAdminPasswordBlocked (minutes : Z)
| InvalidAdminPasswordRemaining (remaining : Z).

Record log_entry := LogEntry {
  log_timestamp : Z;
  log_ip : string;
  log_session : string;
  log_user : string;
  log_status_of : log_status;
  log_details : details
}.

Inductive ha_service := LockUnlock | InputBooleanTurnOn | SwitchTurnOn.

(** Effects visible outside the process, in the order they happen. *)
Inductive event :=
| Log (e : log_entry)                       (* attempt_logger.info *)
| Sleep (seconds : Z)                       (* time.sleep *)
| HaPost (svc : ha_service) (entity : string)  (* ha_session.post *)
| TouchUser (user : string).                (* users_store.touch_user *)

Inductive message :=
| RequestBlocked
| ServiceTemporarilyUnavailable
| TooManyFailedAttempts
| PinRequired
| Reason (d : details)
| WelcomeHomeTest (user : string)
| WelcomeHome (user : string)
| FailedToContactHomeAssistant
| InternalServerError
| AdminTooManyFailedAttempts
| InvalidAdminPassword
| NoMessage.

(** The JSON answer and its HTTP status. [blocked_until] is [None] when the
    key is absent. *)
Record response := Response {
  code : Z;
  success : bool;                            (* "status": "success" | "error" *)
  msg : message;
  blocked_until : option Z
}.

(** ** What a request brings, and what it reads from outside *)

Record request := Request {
  remote_addr : string;
  user_agent : string;          (* request.headers.get("User-Agent", "") *)
  accept_language : string;     (* request.headers.get("Accept-Language", "") *)
  body : json;                  (* request.get_json(force=True, silent=True) *)
  cookie : session
}.

Inductive ha_result :=
| HaResponse (status_code : Z)
| HaRequestException            (* requests.RequestException from post *)
| HaOtherException.

(** One field per place where the code reads the clock. *)
Record oracle := Oracle {
  now : Z;                      (* open_door / admin_auth: get_current_time() *)
  now_global : Z;               (* check_global_rate_limit: get_current_time() *)
  time_cookie : Z;              (* time.time() compared with the cookie block *)
  time_cookie_remaining : Z;    (* time.time() for the logged remaining time *)
  time_oidc : Z;                (* time.time() compared with oidc_exp *)
  now_persist : Z;              (* get_current_time() for the cookie block *)
  now_exception : Z;            (* get_current_time() in the except clause *)
  token_hex : string;           (* secrets.token_hex(16) *)
  effective_pins : list (string * string);  (* get_effective_user_pins().items() *)
  ha_post : ha_result
}.

(** The clock never runs backwards between the readings of one request. *)
Definition clock_monotone (o : oracle) : Prop :=
  now o <= now_global o /\ now_global o <= time_cookie o /\
  time_cookie o <= time_cookie_remaining o /\
  time_cookie_remaining o <= time_oidc o /\ time_oidc o <= now_persist o.

(** ** The handler monad: shared state, early [return], exceptions *)

Record world := World {
  tables : server_state;
  sess : session;
  events : list event
}.

Inductive outcome (A : Type) :=
| Next (a : A)                  (* fall through to the next statement *)
| Return (r : response)         (* the view function returns *)
| Raise.                        (* an exception propagates *)
Arguments Next {A} a.
Arguments Return {A} r.
Arguments Raise {A}.

Definition handler (A : Type) : Type := world → outcome A * world.

#[global] Instance handler_ret : MRet handler := λ A a w, (Next a, w).

#[global] Instance handler_bind : MBind handler := λ A B f m w,
  match m w with
  | (Next a, w') => f a w'
  | (Return r, w') => (Return r, w')
  | (Raise, w') => (Raise, w')
  end.

Definition return_ {A} (r : response) : handler A := λ w, (Return r, w).
Definition raise {A} : handler A := λ w, (Raise, w).

Definition emit (e : event) : handler unit := λ w,
  (Next tt, World (tables w) (sess w) (events w ++ [e])).

Definition get_session : handler session := λ w, (Next (sess w), w).
Definition modify_session (f : session → session) : handler unit := λ w,
  (Next tt, World (tables w) (f (sess w)) (events w)).

Definition get_tables : handler server_state := λ w, (Next (tables w), w).
Definition modify_tables (f : server_state → server_state) : handler unit :=
  λ w, (Next tt, World (f (tables w)) (sess w) (events w)).

(** [try: body except Exception: exc] around a whole view function. *)
Definition try_except (body exc : handler response) (w : world)
  : response * world :=
  match body w with
  | (Next r, w') | (Return r, w') => (r, w')
  | (Raise, w') =>
      match exc w' with
      | (Next r, w'') | (Return r, w'') => (r, w'')
      | (Raise, w'') => (Response 500 false InternalServerError None, w'')
      end
  end.

(** *** Field updates *)

Definition set_ip_failed_attempts m (t : server_state) : server_state :=
  ServerState m (ip_blocked_until t) (session_failed_attempts t)
    (session_blocked_until t) (global_failed_attempts t) (global_last_reset t).
Definition set_ip_blocked_until m (t : server_state) : server_state :=
  ServerState (ip_failed_attempts t) m (session_failed_attempts t)
    (session_blocked_until t) (global_failed_attempts t) (global_last_reset t).
Definition set_session_failed_attempts m (t : server_state) : server_state :=
  ServerState (ip_failed_attempts t) (ip_blocked_until t) m
    (session_blocked_until t) (global_failed_attempts t) (global_last_reset t).
Definition set_session_blocked_until m (t : server_state) : server_state :=
  ServerState (ip_failed_attempts t) (ip_blocked_until t)
    (session_failed_attempts t) m (global_failed_attempts t)
    (global_last_reset t).
Definition set_global (n last : Z) (t : server_state) : server_state :=
  ServerState (ip_failed_attempts t) (ip_blocked_until t)
    (session_failed_attempts t) (session_blocked_until t) n last.

Definition set_session_id v (s : session) : session :=
  Session v (blocked_until_ts s) (oidc_authenticated s) (oidc_user s)
    (oidc_groups s) (oidc_exp s) (admin_authenticated s) (admin_login_time s)
    (permanent s).
Definition set_blocked_until_ts v (s : session) : session :=
  Session (_session_id s) v (oidc_authenticated s) (oidc_user s)
    (oidc_groups s) (oidc_exp s) (admin_authenticated s) (admin_login_time s)
    (permanent s).
(** The four [session.pop("oidc_...", None)] of the expiry check. *)
Definition pop_oidc (s : session) : session :=
  Session (_session_id s) (blocked_until_ts s) None None None None
    (admin_authenticated s) (admin_login_time s) (permanent s).
Definition set_admin (login_time : Z) (remember_me : bool) (s : session)
  : session :=
  Session (_session_id s) (blocked_until_ts s) (oidc_authenticated s)
    (oidc_user s) (oidc_groups s) (oidc_exp s) (Some true) (Some login_time)
    remember_me.

(** *** The four tables *)

Record table (V : Type) := Table {
  tbl_get : server_state → gmap string V;
  tbl_set : gmap string V → server_state → server_state;
  tbl_default : V
}.
Arguments tbl_get {V} _ _.
Arguments tbl_set {V} _ _ _.
Arguments tbl_default {V} _.

Definition ip_failed_attempts_tbl : table Z :=
  Table Z ip_failed_attempts set_ip_failed_attempts 0.
Definition ip_blocked_until_tbl : table (option Z) :=
  Table (option Z) ip_blocked_until set_ip_blocked_until None.
Definition session_failed_attempts_tbl : table Z :=
  Table Z session_failed_attempts set_session_failed_attempts 0.
Definition session_blocked_until_tbl : table (option Z) :=
  Table (option Z) session_blocked_until set_session_blocked_until None.

(** [d[k]] *)
Definition getitem {V} (T : table V) (k : string) : handler V := λ w,
  let r := dd_getitem (tbl_default T) k (tbl_get T (tables w)) in
  (Next (fst r), World (tbl_set T (snd r) (tables w)) (sess w) (events w)).

(** [d[k] = v] *)
Definition setitem {V} (T : table V) (k : string) (v : V) : handler unit :=
  modify_tables (λ t, tbl_set T (<[k := v]> (tbl_get T t)) t).

(** [if k in d: del d[k]] *)
Definition del_if_present {V} (T : table V) (k : string) : handler unit :=
  modify_tables (λ t, tbl_set T (delete k (tbl_get T t)) t).

(** [d.get(k)] of a block table: no default is stored. *)
Definition get_no_default (T : table (option Z)) (k : string)
  : handler (option Z) :=
  t ← get_tables; mret (block_of (tbl_get T t) k).

(** [d[k] += 1] *)
Definition incr (T : table Z) (k : string) : handler unit :=
  v ← getitem T k; setitem T k (v + 1).

(** [global_failed_attempts += 1] *)
Definition incr_global : handler unit :=
  modify_tables (λ t,
    set_global (global_failed_attempts t + 1) (global_last_reset t) t).

(** [d[k] and now < d[k]] *)
Definition is_blocked (T : table (option Z)) (k : string) (t : Z)
  : handler bool :=
  b ← getitem T k; mret (block_active b t).

(** ** The helpers of [app.py] *)

Section Handlers.

Variable cfg : config.

(** [get_client_identifier]: the address, the session id (created and
    stored when the session has none) and the composite identifier. *)
Definition identifier_of (req : request) : string :=
  let ua := PyStr.take 100 (user_agent req) in
  let accept_lang := PyStr.take 50 (accept_language req) in
  remote_addr req ++ ":" ++ pretty (hash cfg (ua ++ accept_lang) `mod` 10000).

Definition get_client_identifier (req : request) (o : oracle)
  : handler (string * string * string) :=
  let primary_ip := remote_addr req in
  s ← get_session;
  session_id ←
    (match _session_id s with
     | Some sid =>
         if PyStr.truthy sid then mret sid
         else modify_session (set_session_id (Some (token_hex o)));;
              mret (token_hex o)
     | None =>
         modify_session (set_session_id (Some (token_hex o)));;
         mret (token_hex o)
     end);
  mret (primary_ip, session_id, identifier_of req).

(** [check_global_rate_limit]: the counter starts again when more than an
    hour has passed since the last reset. *)
Definition roll_global (o : oracle) (t : server_state) : server_state :=
  if one_hour <? now_global o - global_last_reset t
  then set_global 0 (now_global o) t
  else t.

Definition check_global_rate_limit (o : oracle) : handler bool :=
  modify_tables (roll_global o);;
  t ← get_tables;
  mret (global_failed_attempts t <? MAX_GLOBAL_ATTEMPTS_PER_HOUR cfg).

Definition suspicious_agents : list string :=
  ["curl"; "wget"; "python-requests"; "bot"; "crawler"].

(** [is_request_suspicious]; the [start_time] it stores on the request
    object is read nowhere. *)
Definition is_request_suspicious (req : request) : bool :=
  let ua := user_agent req in
  if negb (PyStr.truthy ua) || (PyStr.len ua <? 10) then true
  else if existsb (λ agent, PyStr.contains agent (PyStr.lower ua))
            suspicious_agents
  then true
  else false.

(** The loop over [get_effective_user_pins().items()]: first match wins. *)
Fixpoint find_user (pin : string) (pins : list (string * string))
  : option string :=
  match pins with
  | [] => None
  | (user, user_pin) :: rest =>
      if String.eqb pin user_pin then Some user else find_user pin rest
  end.

Definition str_or (v : option string) (dflt : string) : string :=
  match v with
  | Some u => if PyStr.truthy u then u else dflt
  | None => dflt
  end.

(** [log_entry = {...}; attempt_logger.info(json.dumps(log_entry))] *)
Definition log_event (o : oracle) (ip session_id user : string)
    (st : log_status) (d : details) : event :=
  Log (LogEntry (now o) ip (PyStr.take 8 session_id) user st d).

Definition log (o : oracle) (ip session_id user : string)
    (st : log_status) (d : details) : handler unit :=
  emit (log_event o ip session_id user st d).

Definition ha_service_for (entity : string) : ha_service :=
  if PyStr.startswith "lock." entity then LockUnlock
  else if PyStr.startswith "input_boolean." entity then InputBooleanTurnOn
  else SwitchTurnOn.

(** [int((until - now).total_seconds())] *)
Definition whole_seconds (until_ now_ : Z) : Z :=
  Z.quot (until_ - now_) one_second.

(** [int(BLOCK_TIME.total_seconds() // 60)] *)
Definition block_minutes : Z := BLOCK_TIME cfg `div` (60 * one_second).

(** ** [open_door] *)

(** Lines 521-595: the three block checks, each leaving at once. *)
Definition check_blocks (o : oracle) (primary_ip session_id identifier : string)
  : handler unit :=
  s ← get_session;
  (match blocked_until_ts s with
   | Some sess_block_ts =>
       if cookie_block_active (Some sess_block_ts) (time_cookie o) then
         let remaining :=
           Z.quot (sess_block_ts - time_cookie_remaining o) one_second in
         log o primary_ip session_id "UNKNOWN" SESSION_BLOCKED
           (SessionBlockedPersisted remaining);;
         return_ (Response 429 false TooManyFailedAttempts (Some sess_block_ts))
       else mret tt
   | None => mret tt
   end);;
  sb ← getitem session_blocked_until_tbl session_id;
  (if block_active sb (now o) then
     let until_ := default 0 sb in
     log o primary_ip session_id "UNKNOWN" SESSION_BLOCKED
       (SessionBlockedFor (whole_seconds until_ (now o)));;
     return_ (Response 429 false TooManyFailedAttempts (Some until_))
   else mret tt);;
  ib ← getitem ip_blocked_until_tbl identifier;
  (if block_active ib (now o) then
     let until_ := default 0 ib in
     log o primary_ip session_id "UNKNOWN" IP_BLOCKED
       (IpBlockedFor (whole_seconds until_ (now o)));;
     return_ (Response 429 false TooManyFailedAttempts (Some until_))
   else mret tt).

(** Lines 597-613: an expired federated session is dropped. The result is
    the [oidc_auth] flag used by the rest of the function. *)
Definition check_oidc_expiry (o : oracle) : handler bool :=
  s ← get_session;
  let oidc_auth :=
    oauth cfg && bool_decide (oidc_authenticated s = Some true) in
  let expired :=
    match oidc_exp s with
    | Some e => (e =? 0) || (e <? time_oidc o)
    | None => true
    end in
  if oidc_auth && expired
  then modify_session pop_oidc;; mret false
  else mret oidc_auth.

(** [data.get("pin") if data else None]; [.get] exists on a dict only. *)
Definition pin_of_data (data : json) : handler json :=
  if json_truthy data then
    match data return handler json with
    | JDict d => mret (default JNull (dict_get "pin" d))
    | _ => raise
    end
  else mret JNull.

(** ["pin" in data] *)
Definition pin_in_data (data : json) : bool :=
  match data with
  | JDict d => bool_decide (is_Some (dict_get "pin" d))
  | _ => false
  end.

(** Lines 629-677 and 829-877 (the same text twice): the block state is
    looked at again before access is granted. [sb] and [ib] are
    [session_blocked_until[session_id]] and [ip_blocked_until[identifier]]. *)

(** [remaining = 0], then [max(remaining, int(...))] per active block. *)
Definition recheck_remaining (sb ib : option Z) (now_ : Z) : Z :=
  let remaining := 0 in
  let remaining :=
    if block_active sb now_
    then Z.max remaining (whole_seconds (default 0 sb) now_)
    else remaining in
  let remaining :=
    if block_active ib now_
    then Z.max remaining (whole_seconds (default 0 ib) now_)
    else remaining in
  remaining.

(** "Determine latest block end": [blocked_until_ts or ts] takes [ts]
    when [blocked_until_ts] is [None] or zero. *)
Definition recheck_blocked_until (sb ib : option Z) (now_ : Z) : option Z :=
  let blocked_until_ts := None in
  let blocked_until_ts :=
    if block_active sb now_ then sb else blocked_until_ts in
  let blocked_until_ts :=
    if block_active ib now_ then
      let ts := default 0 ib in
      let first :=
        match blocked_until_ts with
        | Some b => if b =? 0 then ts else b
        | None => ts
        end in
      Some (Z.max first ts)
    else blocked_until_ts in
  blocked_until_ts.

Definition enforce_active_block (o : oracle)
    (primary_ip session_id identifier user : string) : handler unit :=
  session_blocked ← is_blocked session_blocked_until_tbl session_id (now o);
  blocked ←
    (if session_blocked : bool then mret true
     else is_blocked ip_blocked_until_tbl identifier (now o));
  if blocked : bool then
    sb ← getitem session_blocked_until_tbl session_id;
    ib ← getitem ip_blocked_until_tbl identifier;
    log o primary_ip session_id user BLOCK_ENFORCED
      (AccessBlockedFor (recheck_remaining sb ib (now o)));;
    return_ (Response 429 false TooManyFailedAttempts
               (recheck_blocked_until sb ib (now o)))
  else mret tt.

(** Lines 718-792 and 913-986: the call to Home Assistant. *)
Definition call_home_assistant (o : oracle)
    (primary_ip session_id matched_user : string) (via_oidc : bool)
  : handler response :=
  emit (HaPost (ha_service_for (entity_id cfg)) (entity_id cfg));;
  match ha_post o with
  | HaResponse status_code =>
      if (400 <=? status_code) && (status_code <? 600) then
        (* raise_for_status: an HTTPError is a RequestException *)
        return_ (Response 502 false FailedToContactHomeAssistant None)
      else if status_code =? 200 then
        log o primary_ip session_id matched_user SUCCESS
          (if via_oidc then DoorOpenedOidc else DoorOpened);;
        emit (TouchUser matched_user);;
        return_ (Response 200 true (WelcomeHome matched_user) None)
      else
        log o primary_ip session_id matched_user FAILURE
          (HomeAssistantApiError status_code);;
        return_ (Response 500 false
                   (Reason (HomeAssistantApiError status_code)) None)
  | HaRequestException =>
      return_ (Response 502 false FailedToContactHomeAssistant None)
  | HaOtherException =>
      log o primary_ip session_id matched_user API_FAILURE
        InternalErrorDuringApiCall;;
      return_ (Response 500 false (Reason InternalErrorDuringApiCall) None)
  end.

(** Lines 629-792: no PIN, and an accepted federated session. *)
Definition open_door_oidc (o : oracle)
    (primary_ip session_id identifier : string) (oidc_user_ : option string)
  : handler response :=
  enforce_active_block o primary_ip session_id identifier
    (str_or oidc_user_ "UNKNOWN");;
  let matched_user := str_or oidc_user_ "oidc-user" in
  session_blocked ← is_blocked session_blocked_until_tbl session_id (now o);
  (if session_blocked : bool then mret tt
   else
     ip_blocked ← is_blocked ip_blocked_until_tbl identifier (now o);
     if ip_blocked : bool then mret tt
     else
       setitem ip_failed_attempts_tbl identifier 0;;
       setitem session_failed_attempts_tbl session_id 0;;
       del_if_present ip_blocked_until_tbl identifier;;
       del_if_present session_blocked_until_tbl session_id);;
  if test_mode cfg then
    log o primary_ip session_id matched_user SUCCESS DoorOpenedTestOidc;;
    return_ (Response 200 true (WelcomeHomeTest matched_user) None)
  else call_home_assistant o primary_ip session_id matched_user true.

(** Lines 828-986: the PIN matched a user. *)
Definition open_door_pin_success (o : oracle)
    (primary_ip session_id identifier matched_user : string)
  : handler response :=
  enforce_active_block o primary_ip session_id identifier matched_user;;
  setitem ip_failed_attempts_tbl identifier 0;;
  setitem session_failed_attempts_tbl session_id 0;;
  del_if_present ip_blocked_until_tbl identifier;;
  del_if_present session_blocked_until_tbl session_id;;
  modify_session (set_blocked_until_ts None);;
  if test_mode cfg then
    log o primary_ip session_id matched_user SUCCESS DoorOpenedTest;;
    emit (TouchUser matched_user);;
    return_ (Response 200 true (WelcomeHomeTest matched_user) None)
  else call_home_assistant o primary_ip session_id matched_user false.

(** Lines 987-1033: the PIN matched nobody. *)
Definition open_door_pin_failure (o : oracle)
    (primary_ip session_id identifier : string) : handler response :=
  incr ip_failed_attempts_tbl identifier;;
  incr session_failed_attempts_tbl session_id;;
  incr_global;;
  session_failed ← getitem session_failed_attempts_tbl session_id;
  reason ←
    (if SESSION_MAX_ATTEMPTS cfg <=? session_failed then
       setitem session_blocked_until_tbl session_id
         (Some (now o + BLOCK_TIME cfg));;
       modify_session
         (set_blocked_until_ts (Some (now_persist o + BLOCK_TIME cfg)));;
       mret (InvalidPinSessionBlocked block_minutes)
     else
       ip_failed ← getitem ip_failed_attempts_tbl identifier;
       if MAX_ATTEMPTS cfg <=? ip_failed then
         setitem ip_blocked_until_tbl identifier
           (Some (now o + BLOCK_TIME cfg));;
         mret (InvalidPinAccessBlocked block_minutes)
       else
         let delay := get_delay_seconds session_failed in
         (if 0 <? delay then emit (Sleep delay) else mret tt);;
         let remaining_attempts :=
           Z.min (SESSION_MAX_ATTEMPTS cfg - session_failed)
                 (MAX_ATTEMPTS cfg - ip_failed) in
         mret (InvalidPinRemaining remaining_attempts));
  log o primary_ip session_id "UNKNOWN" AUTH_FAILURE reason;;
  sb ← getitem session_blocked_until_tbl session_id;
  blocked_until_ ←
    (if block_active sb (now o) then mret sb
     else
       ib ← getitem ip_blocked_until_tbl identifier;
       if block_active ib (now o) then mret ib else mret None);
  return_ (Response 401 false (Reason reason) blocked_until_).

(** Lines 484-595: who calls, and the three refusals that come before any
    credential is looked at. *)
Definition open_door_screen (req : request) (o : oracle)
  : handler (string * string * string) :=
  '(primary_ip, session_id, identifier) ← get_client_identifier req o;
  (if is_request_suspicious req then
     log o primary_ip session_id "UNKNOWN" SUSPICIOUS
       SuspiciousRequestDetected;;
     return_ (Response 403 false RequestBlocked None)
   else mret tt);;
  allowed ← check_global_rate_limit o;
  (if negb allowed then
     log o primary_ip session_id "UNKNOWN" GLOBAL_BLOCKED
       GlobalRateLimitExceeded;;
     return_ (Response 429 false ServiceTemporarilyUnavailable None)
   else mret tt);;
  check_blocks o primary_ip session_id identifier;;
  mret (primary_ip, session_id, identifier).

(** Lines 597-1033: the federated session or the PIN. *)
Definition open_door_authenticate (req : request) (o : oracle)
    (ids : string * string * string) : handler response :=
  let '(primary_ip, session_id, identifier) := ids in
  oidc_auth ← check_oidc_expiry o;
  s ← get_session;
  let oidc_groups_ := default [] (oidc_groups s) in
  let oidc_user_ := oidc_user s in
  let oidc_user_allowed :=
    negb (PyStr.truthy (oidc_user_group cfg))
    || bool_decide (oidc_user_group cfg ∈ oidc_groups_) in
  let data := body req in
  pin_from_request ← pin_of_data data;
  if negb (json_truthy pin_from_request) && oidc_auth && oidc_user_allowed
     && negb (require_pin_for_oidc cfg)
  then open_door_oidc o primary_ip session_id identifier oidc_user_
  else
    (if negb (json_truthy data) || negb (pin_in_data data) then
       return_ (Response 400 false PinRequired None)
     else mret tt);;
    let '(pin_valid, validated_pin) := validate_pin_input pin_from_request in
    if negb pin_valid then
      incr ip_failed_attempts_tbl identifier;;
      incr session_failed_attempts_tbl session_id;;
      incr_global;;
      log o primary_ip session_id "UNKNOWN" INVALID_FORMAT InvalidPinFormat;;
      return_ (Response 400 false (Reason InvalidPinFormat) None)
    else
      match validated_pin ≫= (λ pin, find_user pin (effective_pins o)) with
      | Some matched_user =>
          if PyStr.truthy matched_user then
            open_door_pin_success o primary_ip session_id identifier
              matched_user
          else open_door_pin_failure o primary_ip session_id identifier
      | None => open_door_pin_failure o primary_ip session_id identifier
      end.

(** The body of the [try] of [open_door]. *)
Definition open_door_body (req : request) (o : oracle) : handler response :=
  ids ← open_door_screen req o;
  open_door_authenticate req o ids.

(** The [except Exception] clause of [open_door]. *)
Definition open_door_except (req : request) (o : oracle) : handler response :=
  '(primary_ip, session_id, _) ← get_client_identifier req o;
  emit (Log (LogEntry (now_exception o) primary_ip (PyStr.take 8 session_id)
               "UNKNOWN" EXCEPTION ExceptionInOpenDoor));;
  mret (Response 500 false InternalServerError None).

(** One call of the [/open-door] route on the tables [st]: the answer and
    the world it leaves (tables, the session cookie sent back, effects). *)
Definition open_door (req : request) (o : oracle) (st : server_state)
  : response * world :=
  try_except (open_door_body req o) (open_door_except req o)
    (World st (cookie req) []).

(** ** [admin_auth]

    From the identification of the caller on; [password] and [remember_me]
    are the two values read from the JSON body. *)
Definition admin_auth_body (req : request) (o : oracle)
    (password : string) (remember_me : bool) : handler response :=
  '(primary_ip, session_id, identifier) ← get_client_identifier req o;
  b ← get_no_default session_blocked_until_tbl session_id;
  (if block_active b (now o) then
     log o primary_ip session_id "ADMIN" ADMIN_SESSION_BLOCKED
       (AdminAuthBlockedFor (whole_seconds (default 0 b) (now o)));;
     return_ (Response 429 false AdminTooManyFailedAttempts None)
   else mret tt);;
  if String.eqb password (admin_password cfg) then
    setitem session_failed_attempts_tbl session_id 0;;
    del_if_present session_blocked_until_tbl session_id;;
    modify_session (set_admin (now o) remember_me);;
    log o primary_ip session_id "ADMIN" ADMIN_SUCCESS AdminLogin;;
    return_ (Response 200 true NoMessage None)
  else
    incr session_failed_attempts_tbl session_id;;
    session_failed ← getitem session_failed_attempts_tbl session_id;
    let delay := get_delay_seconds session_failed in
    (if 0 <? delay then emit (Sleep delay) else mret tt);;
    d ←
      (if SESSION_MAX_ATTEMPTS cfg <=? session_failed then
         setitem session_blocked_until_tbl session_id
           (Some (now o + BLOCK_TIME cfg));;
         mret (InvalidAdminPasswordBlocked block_minutes)
       else
         mret (InvalidAdminPasswordRemaining
                 (SESSION_MAX_ATTEMPTS cfg - session_failed)));
    log o primary_ip session_id "ADMIN" ADMIN_FAILURE d;;
    return_ (Response 403 false InvalidAdminPassword None).

(** [admin_auth] has no [try]: an exception would leave the view. The body
    above raises none. *)
Definition admin_auth (req : request) (o : oracle)
    (password : string) (remember_me : bool) (st : server_state)
  : response * world :=
  try_except (admin_auth_body req o password remember_me) raise
    (World st (cookie req) []).

End Handlers.

(** * Vocabulary of the properties *)

(** Every character of [s] is a digit in the sense of [str.isdigit]. *)
Definition digits_only (s : string) : Prop :=
  Forall (λ c, PyStr.isdigit_char c = true) (list_ascii_of_string s).

(** The format the PIN pad accepts: a string of 4 to 8 digits. *)
Definition pin_format_ok (v : json) : Prop :=
  ∃ s, v = JStr s ∧ digits_only s ∧ (4 <= String.length s <= 8)%nat.


(** The session id a request runs under: the one in its cookie, or the fresh
    token when the cookie has none. *)
Definition session_id_of (c : session) (o : oracle) : string :=
  match _session_id c with
  | Some sid => if PyStr.truthy sid then sid else token_hex o
  | None => token_hex o
  end.

(** The cookie once [get_client_identifier] has run. *)
Definition with_session_id (c : session) (o : oracle) : session :=
  match _session_id c with
  | Some sid =>
      if PyStr.truthy sid then c else set_session_id (Some (token_hex o)) c
  | None => set_session_id (Some (token_hex o)) c
  end.

(** A table after a subscript read of [k]. *)
Definition touch {V} (dflt : V) (k : string) (m : gmap string V)
  : gmap string V :=
  snd (dd_getitem dflt k m).

(** The three places a block can sit in, each compared with the clock
    reading [open_door] compares it with. *)
Definition cookie_block_in_effect (req : request) (o : oracle) : bool :=
  cookie_block_active (blocked_until_ts (cookie req)) (time_cookie o).

Definition session_block_in_effect (req : request) (o : oracle)
    (st : server_state) : bool :=
  block_active
    (block_of (session_blocked_until st) (session_id_of (cookie req) o))
    (now o).

Definition ip_block_in_effect (cfg : config) (req : request) (o : oracle)
    (st : server_state) : bool :=
  block_active (block_of (ip_blocked_until st) (identifier_of cfg req)) (now o).

(** Some block is active when [open_door] decides. *)
Definition block_in_effect (cfg : config) (req : request) (o : oracle)
    (st : server_state) : bool :=
  cookie_block_in_effect req o || session_block_in_effect req o st
  || ip_block_in_effect cfg req o st.

(** The request gets past the global budget. *)
Definition global_budget_left (cfg : config) (o : oracle) (st : server_state)
  : bool :=
  global_failed_attempts (roll_global o st) <? MAX_GLOBAL_ATTEMPTS_PER_HOUR cfg.

(** Two tables state hold the same counters and the same blocks. *)
Definition same_limits (t t' : server_state) : Prop :=
  (∀ k, counter_of (ip_failed_attempts t') k = counter_of (ip_failed_attempts t) k) ∧
  (∀ k, counter_of (session_failed_attempts t') k
        = counter_of (session_failed_attempts t) k) ∧
  (∀ k, block_of (ip_blocked_until t') k = block_of (ip_blocked_until t) k) ∧
  (∀ k, block_of (session_blocked_until t') k
        = block_of (session_blocked_until t) k).

(** Home Assistant was called. *)
Definition actuator_called (es : list event) : Prop :=
  ∃ svc e, HaPost svc e ∈ es.

(** The tables after [session_blocked_until[sid]] and
    [ip_blocked_until[ident]] have been read. *)
Definition read_session_block (sid : string) (t : server_state)
  : server_state :=
  set_session_blocked_until (touch None sid (session_blocked_until t)) t.

Definition read_ip_block (ident : string) (t : server_state) : server_state :=
  set_ip_blocked_until (touch None ident (ip_blocked_until t)) t.

(** The answer of every rate-limited refusal that names a block. *)
Definition too_many (until_ : option Z) : response :=
  Response 429 false TooManyFailedAttempts until_.

(** *** The sources of a block *)

(** The [blockedUntil] of a source when the source is active. *)
Definition persisted_until (o : oracle) (s : session) : option Z :=
  if cookie_block_active (blocked_until_ts s) (time_cookie o)
  then blocked_until_ts s else None.

Definition memory_until (o : oracle) (m : gmap string (option Z)) (k : string)
  : option Z :=
  if block_active (block_of m k) (now o) then block_of m k else None.

(** The three sources in the order [open_door] looks at them. *)
Definition block_sources (o : oracle) (s : session) (t : server_state)
    (sid ident : string) : list (option Z) :=
  [persisted_until o s;
   memory_until o (session_blocked_until t) sid;
   memory_until o (ip_blocked_until t) ident].

(** The two in-memory sources, which the second look is about. *)
Definition memory_sources (o : oracle) (t : server_state) (sid ident : string)
  : list (option Z) :=
  [memory_until o (session_blocked_until t) sid;
   memory_until o (ip_blocked_until t) ident].

Definition active_untils (sources : list (option Z)) : list Z :=
  omap id sources.

(** The latest-expiring active block: the verdict as the specification
    words it. *)
Definition latest_active_block (sources : list (option Z)) : option Z :=
  match active_untils sources with
  | [] => None
  | u :: us => Some (foldr Z.max u us)
  end.

(** The first active block in the order of the sources. *)
Definition first_active_block (sources : list (option Z)) : option Z :=
  head (active_untils sources).

(** The remaining time a log line of a refusal carries. *)
Definition logged_remaining (e : event) : option Z :=
  match e with
  | Log l =>
      match log_details l with
      | SessionBlockedPersisted r | SessionBlockedFor r | IpBlockedFor r
      | AccessBlockedFor r => Some r
      | _ => None
      end
  | _ => None
  end.

(** The tables a request meets once it is past the screen: the hourly
    window applied, the two block entries read. *)
Definition screened (cfg : config) (req : request) (o : oracle)
    (st : server_state) : server_state :=
  read_ip_block (identifier_of cfg req)
    (read_session_block (session_id_of (cookie req) o) (roll_global o st)).

(** The request gets as far as the credentials. *)
Definition reaches_authentication (cfg : config) (req : request) (o : oracle)
    (st : server_state) : bool :=
  negb (is_request_suspicious req) && global_budget_left cfg o st
  && negb (block_in_effect cfg req o st).

(** *** How two states of a table compare *)

Definition same_blocks (m m' : gmap string (option Z)) : Prop :=
  ∀ k, block_of m' k = block_of m k.

(** The counter of [k] went up by one, the others stayed. *)
Definition bumped (k : string) (m m' : gmap string Z) : Prop :=
  counter_of m' k = counter_of m k + 1 ∧
  ∀ k', k' ≠ k → counter_of m' k' = counter_of m k'.

(** The counter of [k] is stored as zero, the others stayed. *)
Definition zeroed (k : string) (m m' : gmap string Z) : Prop :=
  m' !! k = Some 0 ∧ ∀ k', k' ≠ k → counter_of m' k' = counter_of m k'.

(** [k] is blocked until [until_], the other blocks stayed. *)
Definition block_set (k : string) (until_ : Z) (m m' : gmap string (option Z))
  : Prop :=
  block_of m' k = Some until_ ∧ ∀ k', k' ≠ k → block_of m' k' = block_of m k'.

(** The entry of [k] is gone from the table, the other blocks stayed. *)
Definition block_removed (k : string) (m m' : gmap string (option Z)) : Prop :=
  m' !! k = None ∧ ∀ k', k' ≠ k → block_of m' k' = block_of m k'.

(** No block was set or prolonged: every block of [m'] was in [m]. *)
Definition blocks_kept (m m' : gmap string (option Z)) : Prop :=
  ∀ k u, block_of m' k = Some u → block_of m k = Some u.

(** What a request leaves alone: the entries of the other keys. *)
Definition others_untouched (ident sid : string) (t t' : server_state)
  : Prop :=
  (∀ k, k ≠ ident →
     counter_of (ip_failed_attempts t') k = counter_of (ip_failed_attempts t) k ∧
     block_of (ip_blocked_until t') k = block_of (ip_blocked_until t) k) ∧
  (∀ k, k ≠ sid →
     counter_of (session_failed_attempts t') k
       = counter_of (session_failed_attempts t) k ∧
     block_of (session_blocked_until t') k
       = block_of (session_blocked_until t) k).

(** *** The federated session of a request *)

(** [bool(oauth) and bool(session.get("oidc_authenticated"))] *)
Definition oidc_session (cfg : config) (s : session) : bool :=
  oauth cfg && bool_decide (oidc_authenticated s = Some true).

(** [not oidc_exp or oidc_exp < time.time()] *)
Definition oidc_exp_passed (o : oracle) (s : session) : bool :=
  match oidc_exp s with
  | Some e => (e =? 0) || (e <? time_oidc o)
  | None => true
  end.

(** The session once the expiry check has run. *)
Definition after_expiry_check (cfg : config) (o : oracle) (s : session)
  : session :=
  if oidc_session cfg s && oidc_exp_passed o s then pop_oidc s else s.

(** The session may open the door without a PIN. *)
Definition oidc_may_open (cfg : config) (o : oracle) (s : session) : bool :=
  oidc_session cfg s && negb (oidc_exp_passed o s)
  && (negb (PyStr.truthy (oidc_user_group cfg))
      || bool_decide (oidc_user_group cfg ∈ default [] (oidc_groups s)))
  && negb (require_pin_for_oidc cfg).

(** *** The PIN of a request *)

(** [data.get("pin")] for a body that is a non-empty object. *)
Definition pin_value (data : json) : option json :=
  match data with
  | JDict d => if json_truthy data then dict_get "pin" d else None
  | _ => None
  end.

Definition is_dict (v : json) : bool :=
  match v with JDict _ => true | _ => false end.

(** The tables after the three counters went up for [ident] and [sid]. *)
Definition count_failure (ident sid : string) (t : server_state)
  : server_state :=
  set_global (global_failed_attempts t + 1) (global_last_reset t)
    (set_session_failed_attempts
       (<[sid := counter_of (session_failed_attempts t) sid + 1]>
          (session_failed_attempts t))
       (set_ip_failed_attempts
          (<[ident := counter_of (ip_failed_attempts t) ident + 1]>
             (ip_failed_attempts t)) t)).

(** The user a validated PIN belongs to, as [if matched_user:] sees it. *)
Definition matched_user (o : oracle) (pin : string) : option string :=
  match find_user pin (effective_pins o) with
  | Some u => if PyStr.truthy u then Some u else None
  | None => None
  end.

(** The request carries a well-formed PIN that belongs to nobody. *)
Definition presents_wrong_pin (req : request) (o : oracle) : Prop :=
  ∃ p, pin_value (body req) = Some (JStr p) ∧
       validate_pin_input (JStr p) = (true, Some p) ∧
       matched_user o p = None.

(** The request carries the PIN of [user]. *)
Definition presents_correct_pin (req : request) (o : oracle) (user : string)
  : Prop :=
  ∃ p, pin_value (body req) = Some (JStr p) ∧
       validate_pin_input (JStr p) = (true, Some p) ∧
       matched_user o p = Some user.

(** The request carries no PIN and comes with a federated session that may
    open the door. *)
Definition presents_federated_session (cfg : config) (req : request)
    (o : oracle) : Prop :=
  json_truthy (body req) && negb (is_dict (body req)) = false ∧
  json_truthy (default JNull (pin_value (body req))) = false ∧
  oidc_may_open cfg o (cookie req) = true.

(** The seconds slept during a request. *)
Definition sleeps (es : list event) : list Z :=
  omap (λ e, match e with Sleep d => Some d | _ => None end) es.

(** The four keys of a federated session. *)
Definition oidc_keys (s : session)
  : option bool * option string * option (list string) * option Z :=
  (oidc_authenticated s, oidc_user s, oidc_groups s, oidc_exp s).

Definition with_cookie (req : request) (c : session) : request :=
  Request (remote_addr req) (user_agent req) (accept_language req) (body req) c.

(** A caller who sends one request after the other, each with the cookie
    the answer before it set: the answers, the last cookie and the tables
    at the end. *)
Fixpoint browse (cfg : config) (calls : list (request * oracle))
    (c : session) (st : server_state)
  : list response * session * server_state :=
  match calls with
  | [] => ([], c, st)
  | (req, o) :: rest =>
      let res := open_door cfg (with_cookie req c) o st in
      let '(answers, c', st') := browse cfg rest (sess res.2) (tables res.2) in
      (res.1 :: answers, c', st')
  end.

(** *** Sample data *)

(** A stand-in for the interpreter's [hash]. *)
Definition length_hash (s : string) : Z := Z.of_nat (String.length s).

(** The defaults of the [security] section: 5 attempts, 5 minutes, 50 per
    hour, 3 per session. *)
Definition default_config : config :=
  Config 5 (300 * one_second) 50 3 false false "" false "lock.front_door"
    "correct horse" length_hash.

Definition oidc_config : config :=
  Config 5 (300 * one_second) 50 3 false true "" false "lock.front_door"
    "correct horse" length_hash.

Definition browser : string := "Mozilla/5.0 (X11; Linux x86_64)".

Definition post_pin (pin : json) (c : session) : request :=
  Request "192.0.2.7" browser "en-US" (JDict [("pin", pin)]) c.

Definition post_nothing (c : session) : request :=
  Request "192.0.2.7" browser "en-US" JNull c.

(** Every clock reading of the request is [t] seconds. *)
Definition at_second (t : Z) : oracle :=
  let us := t * one_second in
  Oracle us us us us us us us "5f3a9c0e77d14b02a1c6e8f09b3d2a44"
    [("alice", "4821"); ("bob", "907713")] (HaResponse 200).

Definition fresh_tables : server_state := ServerState ∅ ∅ ∅ ∅ 0 0.

Definition session_s1 : session :=
  Session (Some "s1") None None None None None None None false.

(** Two callers behind one address whose headers differ but concatenate to
    the same text. *)
Definition first_caller : request :=
  Request "192.0.2.7" "Mozilla/5.0 (X11; Linux x86_64)" "en-US"
    (JDict [("pin", JStr "0000")]) session_s1.

Definition second_caller : request :=
  Request "192.0.2.7" "Mozilla/5.0 (X11; Linux x86_64)e" "n-US"
    (JDict [("pin", JStr "0000")]) empty_session.


(** An oracle whose clock readings are a microsecond apart. *)
Definition ticking (t : Z) : oracle :=
  let us := t * one_second in
  Oracle us (us + 1) (us + 2) (us + 3) (us + 4) (us + 5) (us + 6)
    "5f3a9c0e77d14b02a1c6e8f09b3d2a44"
    [("alice", "4821"); ("bob", "907713")] (HaResponse 200).

Definition three_wrong_pins : list (request * oracle) :=
  [(post_pin (JStr "0000") empty_session, ticking 10);
   (post_pin (JStr "1111") empty_session, ticking 20);
   (post_pin (JStr "2222") empty_session, ticking 30)].


(** Session "s1" is blocked in memory until second 400. *)
Definition s1_blocked : server_state :=
  ServerState ∅ ∅ (<["s1" := 3]> ∅) (<["s1" := Some (400 * one_second)]> ∅) 3 0.

(** The identifier of [post_pin] is blocked until second 200. *)
Definition identifier_blocked : server_state :=
  ServerState (<["192.0.2.7:36" := 5]> ∅)
    (<["192.0.2.7:36" := Some (200 * one_second)]> ∅) ∅ ∅ 5 0.

(** A cookie that carries a block until second 100. *)
Definition session_s1_blocked : session :=
  Session (Some "s1") (Some (100 * one_second)) None None None None None None
    false.

(** A cookie with a federated session that expired at second 5. *)
Definition session_s1_expired : session :=
  Session (Some "s1") None (Some true) (Some "carol") (Some ["door"])
    (Some 5) None None false.

(** The same, and blocked until second 100. *)
Definition session_s1_expired_blocked : session :=
  Session (Some "s1") (Some (100 * one_second)) (Some true) (Some "carol")
    (Some ["door"]) (Some 5) None None false.

(** A cookie with a federated session good until second 900 and a block
    that ran out at second 5. *)
Definition session_s1_federated : session :=
  Session (Some "s1") (Some (5 * one_second)) (Some true) (Some "carol")
    (Some ["door"]) (Some (900 * one_second)) None None false.

(** Seven failures counted in the current hour. *)
Definition seven_failures : server_state := ServerState ∅ ∅ ∅ ∅ 7 0.


(** * Further routes and the module state

    ** The module state at start-up

    Lines 264-269: four empty [defaultdict]s, no failure counted, the hourly
    window opened at the time the module is loaded. *)
Definition initial_state (t0 : Z) : server_state := ServerState ∅ ∅ ∅ ∅ 0 t0.

(** ** The routes that only look at the session *)

(** [admin_check_auth]: the JSON it answers. In the first case the
    [login_time] key carries [session.get("admin_login_time")]. *)
Inductive check_auth_answer :=
| Authenticated (login_time : option Z)
| NotAuthenticated.

Definition admin_check_auth (s : session) : check_auth_answer :=
  if bool_decide (admin_authenticated s = Some true)
  then Authenticated (admin_login_time s)
  else NotAuthenticated.

(** [admin_logout]: the session it leaves; the answer is always the same
    success message. *)
Definition admin_logout (s : session) : session :=
  Session (_session_id s) (blocked_until_ts s) (oidc_authenticated s)
    (oidc_user s) (oidc_groups s) (oidc_exp s) None None false.

(** [auth_status]: the JSON it answers. *)
Record status_answer := StatusAnswer {
  status_oidc_enabled : bool;
  status_oidc_authenticated : bool;
  status_user : option string;
  status_groups : list string;
  status_require_pin_for_oidc : bool
}.

Definition auth_status (cfg : config) (s : session) : status_answer :=
  let enabled := oauth cfg in
  let authenticated :=
    enabled && bool_decide (oidc_authenticated s = Some true) in
  StatusAnswer enabled authenticated
    (if authenticated then oidc_user s else None)
    (if authenticated then default [] (oidc_groups s) else [])
    (require_pin_for_oidc cfg).

(** ** [oidc_logout]

    What the fetch of the provider's discovery document gave: a response
    with its status code and, for a document that has one, its
    [end_session_endpoint], or an exception anywhere in the [try]. *)
Inductive well_known :=
| WellKnown (status_code : Z) (end_session_endpoint : option string)
| WellKnownException.

Inductive logout_answer :=
| RedirectToProvider (logout_url : string)   (* 302 *)
| LogoutUrlNotFound                          (* 500 *)
| FailedToFetchOidcConfiguration             (* 500 *)
| FailedToLogout                             (* 500 *)
| RedirectToIndex.                           (* 302 *)

(** [session.clear()] is the first statement of either branch. *)
Definition oidc_logout (cfg : config) (fetched : well_known) (s : session)
  : logout_answer * session :=
  if oauth cfg then
    let s' := empty_session in
    match fetched with
    | WellKnown status_code end_session_endpoint =>
        if status_code =? 200 then
          match end_session_endpoint with
          | Some logout_url =>
              if PyStr.truthy logout_url
              then (RedirectToProvider logout_url, s')
              else (LogoutUrlNotFound, s')
          | None => (LogoutUrlNotFound, s')
          end
        else (FailedToFetchOidcConfiguration, s')
    | WellKnownException => (FailedToLogout, s')
    end
  else (RedirectToIndex, empty_session).

(** ** The user-management routes

    [users_store] is a module of its own: what its call does is an input
    here, the call itself an effect. [user_pins] are the users of the
    configuration file. *)
Inductive store_result :=
| StoreDone | StoreKeyError | StoreValueError | StoreOtherError.

Inductive store_call :=
| CreateUser (username pin : json) (active : bool)
| UpdateUser (username : string) (pin active : json)
| DeleteUser (username : string).

Inductive admin_status :=
| ADMIN_USER_CREATE | ADMIN_USER_UPDATE | ADMIN_USER_DELETE.

Inductive admin_event :=
| StoreCall (c : store_call)
| AdminLog (timestamp : Z) (ip : string) (st : admin_status)
    (username : json).

Inductive users_message :=
| AuthenticationRequired
| UsernameAndPinRequired
| UserExistsInConfig
| ConfigUsersCannotBeEdited
| ConfigUsersCannotBeDeleted
| UserAlreadyExists
| InvalidInput
| UserNotFound
| FailedToCreateUser
| FailedToUpdateUser
| FailedToDeleteUser
| StatusCreated
| StatusUpdated
| StatusDeleted.

(** The status code and the message of the JSON answer. *)
Definition users_answer : Type := Z * users_message.

(** [_require_admin_authenticated] *)
Definition _require_admin_authenticated (s : session) : bool :=
  if negb (bool_decide (admin_authenticated s = Some true)) then false
  else true.

(** [body = request.get_json(silent=True) or {}] as far as [body.get] goes:
    a body that is neither empty nor an object has no [get]
    ([AttributeError], [None] here). *)
Definition body_object (data : json) : option (list (string * json)) :=
  if json_truthy data then
    match data with
    | JDict d => Some d
    | _ => None
    end
  else Some [].

(** [username in user_pins] for a value of the JSON body: a list or an
    object is unhashable ([TypeError], [None] here). *)
Definition in_user_pins (username : json) (user_pins : list (string * string))
  : option bool :=
  match username with
  | JStr u => Some (bool_decide (u ∈ user_pins.*1))
  | JList _ | JDict _ => None
  | _ => Some false
  end.

(** The log line after a store call that went through; its [ip] comes from
    [get_client_identifier], which gives the session an id when it has
    none. *)
Definition log_admin (req : request) (o : oracle) (st : admin_status)
    (username : json) (s : session) : session * list admin_event :=
  (with_session_id s o, [AdminLog (now o) (remote_addr req) st username]).

(** [admin_users_create] *)
Definition admin_users_create (user_pins : list (string * string))
    (req : request) (o : oracle) (store : store_result) (s : session)
  : users_answer * session * list admin_event :=
  if negb (_require_admin_authenticated s) then
    ((401, AuthenticationRequired), s, [])
  else
    match body_object (body req) with
    | None => ((500, FailedToCreateUser), s, [])
    | Some d =>
        let username := default JNull (dict_get "username" d) in
        let pin := default JNull (dict_get "pin" d) in
        let active :=
          json_truthy (default (JBool true) (dict_get "active" d)) in
        if negb (json_truthy username) || negb (json_truthy pin) then
          ((400, UsernameAndPinRequired), s, [])
        else
          match in_user_pins username user_pins with
          | None => ((500, FailedToCreateUser), s, [])
          | Some true => ((409, UserExistsInConfig), s, [])
          | Some false =>
              let called := StoreCall (CreateUser username pin active) in
              match store with
              | StoreDone =>
                  let '(s', logged) :=
                    log_admin req o ADMIN_USER_CREATE username s in
                  ((201, StatusCreated), s', called :: logged)
              | StoreKeyError => ((409, UserAlreadyExists), s, [called])
              | StoreValueError => ((400, InvalidInput), s, [called])
              | StoreOtherError => ((500, FailedToCreateUser), s, [called])
              end
          end
    end.

(** [admin_users_update] *)
Definition admin_users_update (user_pins : list (string * string))
    (username : string) (req : request) (o : oracle) (store : store_result)
    (s : session) : users_answer * session * list admin_event :=
  if negb (_require_admin_authenticated s) then
    ((401, AuthenticationRequired), s, [])
  else if bool_decide (username ∈ user_pins.*1) then
    ((409, ConfigUsersCannotBeEdited), s, [])
  else
    match body_object (body req) with
    | None => ((500, FailedToUpdateUser), s, [])
    | Some d =>
        let pin := default JNull (dict_get "pin" d) in
        let active := default JNull (dict_get "active" d) in
        let called := StoreCall (UpdateUser username pin active) in
        match store with
        | StoreDone =>
            let '(s', logged) :=
              log_admin req o ADMIN_USER_UPDATE (JStr username) s in
            ((200, StatusUpdated), s', called :: logged)
        | StoreKeyError => ((404, UserNotFound), s, [called])
        | StoreValueError => ((400, InvalidInput), s, [called])
        | StoreOtherError => ((500, FailedToUpdateUser), s, [called])
        end
    end.

(** [admin_users_delete]: a [ValueError] of the store has no clause of its
    own here. *)
Definition admin_users_delete (user_pins : list (string * string))
    (username : string) (req : request) (o : oracle) (store : store_result)
    (s : session) : users_answer * session * list admin_event :=
  if negb (_require_admin_authenticated s) then
    ((401, AuthenticationRequired), s, [])
  else if bool_decide (username ∈ user_pins.*1) then
    ((409, ConfigUsersCannotBeDeleted), s, [])
  else
    let called := StoreCall (DeleteUser username) in
    match store with
    | StoreDone =>
        let '(s', logged) :=
          log_admin req o ADMIN_USER_DELETE (JStr username) s in
        ((200, StatusDeleted), s', called :: logged)
    | StoreKeyError => ((404, UserNotFound), s, [called])
    | StoreValueError | StoreOtherError =>
        ((500, FailedToDeleteUser), s, [called])
    end.

(** * Further vocabulary *)

(** The calls to Home Assistant among the effects of a request. *)
Definition ha_posts (es : list event) : list (ha_service * string) :=
  omap (λ e, match e with HaPost svc en => Some (svc, en) | _ => None end) es.

(** The users whose last use was recorded. *)
Definition touched_users (es : list event) : list string :=
  omap (λ e, match e with TouchUser u => Some u | _ => None end) es.

(** The statuses written to the audit log, in order. *)
Definition logged_statuses (es : list event) : list log_status :=
  omap (λ e, match e with Log l => Some (log_status_of l) | _ => None end) es.

(** What [call_home_assistant] answers and emits after the POST, by what
    Home Assistant did. *)
Definition ha_outcome (o : oracle) (ip sid user : string) (via_oidc : bool)
  : response * list event :=
  match ha_post o with
  | HaResponse sc =>
      if (400 <=? sc) && (sc <? 600) then
        (Response 502 false FailedToContactHomeAssistant None, [])
      else if sc =? 200 then
        (Response 200 true (WelcomeHome user) None,
         [log_event o ip sid user SUCCESS
            (if via_oidc then DoorOpenedOidc else DoorOpened);
          TouchUser user])
      else
        (Response 500 false (Reason (HomeAssistantApiError sc)) None,
         [log_event o ip sid user FAILURE (HomeAssistantApiError sc)])
  | HaRequestException =>
      (Response 502 false FailedToContactHomeAssistant None, [])
  | HaOtherException =>
      (Response 500 false (Reason InternalErrorDuringApiCall) None,
       [log_event o ip sid user API_FAILURE InternalErrorDuringApiCall])
  end.

(** The tables after the resets of a successful authorization. *)
Definition grant_tables (ident sid : string) (t : server_state)
  : server_state :=
  set_session_blocked_until
    (delete sid (touch None sid (session_blocked_until t)))
    (set_ip_blocked_until
       (delete ident (touch None ident (ip_blocked_until t)))
       (set_session_failed_attempts
          (<[sid := 0]> (session_failed_attempts t))
          (set_ip_failed_attempts
             (<[ident := 0]> (ip_failed_attempts t)) t))).

(** The answer counts as a failed guess: a wrong PIN or a malformed one. *)
Definition failed_guess (r : response) : bool :=
  (code r =? 401)
  || match msg r with Reason InvalidPinFormat => true | _ => false end.

(** The user an authorised request is credited to. *)
Definition authorised_as (cfg : config) (req : request) (o : oracle)
    (user : string) (via_oidc : bool) : Prop :=
  if via_oidc then
    presents_federated_session cfg req o ∧
    user = str_or (oidc_user (cookie req)) "oidc-user"
  else presents_correct_pin req o user.

(** The status codes [open_door] answers with. *)
Definition door_codes : list Z := [200; 400; 401; 403; 429; 500; 502].

(** What one request may log, how long it may sleep and how often it may
    call Home Assistant. *)
Definition effects_disciplined (r : response) (es : list event) : Prop :=
  (logged_statuses es = [] ↔ msg r = PinRequired ∨ code r = 502) ∧
  (List.length (logged_statuses es) <= 1)%nat ∧
  (∀ n, n ∈ sleeps es → 1 <= n <= 16 ∧ code r = 401) ∧
  (List.length (sleeps es) <= 1)%nat ∧
  (List.length (ha_posts es) <= 1)%nat.

(** ** [admin_auth] and the tables between requests *)

(** The tables after a successful admin login of session [sid]. *)
Definition admin_success_tables (sid : string) (st : server_state)
  : server_state :=
  set_session_blocked_until (delete sid (session_blocked_until st))
    (set_session_failed_attempts (<[sid := 0]> (session_failed_attempts st))
       st).

(** The tables after a wrong admin password of session [sid]. *)
Definition admin_failure_tables (cfg : config) (o : oracle) (sid : string)
    (st : server_state) : server_state :=
  let sf := counter_of (session_failed_attempts st) sid + 1 in
  let t1 :=
    set_session_failed_attempts (<[sid := sf]> (session_failed_attempts st))
      st in
  if SESSION_MAX_ATTEMPTS cfg <=? sf then
    set_session_blocked_until
      (<[sid := Some (now o + BLOCK_TIME cfg)]> (session_blocked_until st)) t1
  else t1.

(** The admin login of a session. *)
Definition admin_keys (s : session) : option bool * option Z * bool :=
  (admin_authenticated s, admin_login_time s, permanent s).

(** Every block entry belongs to a counter that reached its threshold. *)
Definition blocks_accounted (cfg : config) (st : server_state) : Prop :=
  (∀ k u, block_of (session_blocked_until st) k = Some u →
          SESSION_MAX_ATTEMPTS cfg <= counter_of (session_failed_attempts st) k)
  ∧
  (∀ k u, block_of (ip_blocked_until st) k = Some u →
          MAX_ATTEMPTS cfg <= counter_of (ip_failed_attempts st) k).

(** A request to one of the two routes that write the tables. *)
Inductive call :=
| DoorCall (req : request) (o : oracle)
| AdminAuthCall (req : request) (o : oracle) (password : string)
    (remember_me : bool).

(** The tables after the calls were served in order. *)
Fixpoint serve (cfg : config) (calls : list call) (st : server_state)
  : server_state :=
  match calls with
  | [] => st
  | DoorCall req o :: rest =>
      serve cfg rest (tables (open_door cfg req o st).2)
  | AdminAuthCall req o password remember_me :: rest =>
      serve cfg rest (tables (admin_auth cfg req o password remember_me st).2)
  end.

(** ** The user-management routes *)

(** The three routes that write the user store. *)
Inductive users_request :=
| CreateRequest
| UpdateRequest (username : string)
| DeleteRequest (username : string).

(** One request to one of them. *)
Definition admin_users_write (user_pins : list (string * string))
    (rq : users_request) (req : request) (o : oracle) (store : store_result)
    (s : session) : users_answer * session * list admin_event :=
  match rq with
  | CreateRequest => admin_users_create user_pins req o store s
  | UpdateRequest username =>
      admin_users_update user_pins username req o store s
  | DeleteRequest username =>
      admin_users_delete user_pins username req o store s
  end.

(** The calls to the user store among the effects of a request. *)
Definition store_calls (evs : list admin_event) : list store_call :=
  omap (λ e, match e with StoreCall c => Some c | _ => None end) evs.

(** The audit lines among them. *)
Definition admin_log_lines (evs : list admin_event) : list admin_status :=
  omap (λ e, match e with AdminLog _ _ st _ => Some st | _ => None end) evs.

(** The user a store call is about. *)
Definition store_target (c : store_call) : json :=
  match c with
  | CreateUser username _ _ => username
  | UpdateUser username _ _ | DeleteUser username => JStr username
  end.

(** ** Further sample data *)

(** A scripted client that sends the PIN of a user. *)
Definition curl_request : request :=
  Request "192.0.2.7" "curl/8.4.0 (x86_64)" "en-US"
    (JDict [("pin", JStr "4821")]) session_s1.

(** The global budget of the defaults is used up. *)
Definition fifty_failures : server_state := ServerState ∅ ∅ ∅ ∅ 50 0.

(** The defaults with [test_mode] on. *)
Definition test_config : config :=
  Config 5 (300 * one_second) 50 3 true false "" false "lock.front_door"
    "correct horse" length_hash.

(** A crawler, and the same User-Agent in lower case. *)
Definition shouting_bot : request :=
  Request "192.0.2.7" "Mozilla/5.0 (compatible; GoogleBOT/2.1)" "en-US"
    JNull empty_session.

Definition quiet_bot : request :=
  Request "192.0.2.7" "mozilla/5.0 (compatible; googlebot/2.1)" "en-US"
    JNull empty_session.

(** Session "s1" has failed twice. *)
Definition s1_failed_twice : server_state :=
  ServerState ∅ ∅ (<["s1" := 2]> ∅) ∅ 2 0.
(** * Properties *)

(** ** Running a handler *)

Lemma bind_run {A B} (m : handler A) (f : A → handler B) (w : world) :
  (m ≫= f) w = match m w with
               | (Next a, w') => f a w'
               | (Return r, w') => (Return r, w')
               | (Raise, w') => (Raise, w')
               end.
Proof. reflexivity. Qed.

Ltac run_handler :=
  cbv [mbind mret handler_bind handler_ret get_session modify_session
       get_tables modify_tables emit return_ raise log getitem setitem
       del_if_present incr incr_global is_blocked get_no_default
       ip_failed_attempts_tbl ip_blocked_until_tbl
       session_failed_attempts_tbl session_blocked_until_tbl];
  cbn [tables sess events tbl_get tbl_set tbl_default fst snd negb
       ip_failed_attempts ip_blocked_until session_failed_attempts
       session_blocked_until global_failed_attempts global_last_reset
       set_ip_failed_attempts set_ip_blocked_until set_session_failed_attempts
       set_session_blocked_until set_global app].

Lemma fst_dd_getitem {V} (dflt : V) (k : string) (m : gmap string V) :
  fst (dd_getitem dflt k m) = default dflt (m !! k).
Proof. unfold dd_getitem. destruct (m !! k); reflexivity. Qed.

Lemma lookup_touch {V} (dflt : V) (k k' : string) (m : gmap string V) :
  default dflt (touch dflt k m !! k') = default dflt (m !! k').
Proof.
  unfold touch, dd_getitem. destruct (m !! k) eqn:Hk; [reflexivity |].
  cbn. destruct (decide (k = k')) as [-> |].
  - rewrite lookup_insert_eq, Hk. reflexivity.
  - rewrite lookup_insert_ne by assumption. reflexivity.
Qed.

Lemma counter_of_touch (k k' : string) (m : gmap string Z) :
  counter_of (touch 0 k m) k' = counter_of m k'.
Proof. apply lookup_touch. Qed.

Lemma block_of_touch (k k' : string) (m : gmap string (option Z)) :
  block_of (touch None k m) k' = block_of m k'.
Proof. apply (lookup_touch None). Qed.

Lemma get_client_identifier_run cfg req o w :
  get_client_identifier cfg req o w =
  (Next (remote_addr req, session_id_of (sess w) o, identifier_of cfg req),
   World (tables w) (with_session_id (sess w) o) (events w)).
Proof.
  unfold get_client_identifier, session_id_of, with_session_id.
  destruct w as [t s e]. run_handler.
  destruct (_session_id s) as [sid |]; [destruct (PyStr.truthy sid) |];
    reflexivity.
Qed.

(** ** The progressive delay *)

Lemma pow2_ge_16 (n : Z) : 5 <= n → 16 <= 2 ^ (n - 1).
Proof.
  intros Hn. change 16 with (2 ^ 4).
  apply Z.pow_le_mono_r; lia.
Qed.

Lemma get_delay_seconds_pos (n : Z) :
  0 < n → get_delay_seconds n = Z.min (2 ^ (n - 1)) 16.
Proof.
  intros Hn. unfold get_delay_seconds.
  destruct (Z.ltb_spec 0 n); [reflexivity | lia].
Qed.

Lemma get_delay_seconds_cap (n : Z) : 5 <= n → get_delay_seconds n = 16.
Proof.
  intros Hn. rewrite get_delay_seconds_pos by lia.
  pose proof (pow2_ge_16 n Hn). lia.
Qed.

Lemma get_delay_seconds_positive (n : Z) : 0 < n → 0 < get_delay_seconds n.
Proof.
  intros Hn. rewrite get_delay_seconds_pos by lia.
  assert (0 < 2 ^ (n - 1)) by (apply Z.pow_pos_nonneg; lia). lia.
Qed.

(** C6. [get_delay_seconds] is [min(2^(n-1), 16)] for every positive attempt
    count and 0 for the count 0; on 1, 2, 3, ... it gives 1, 2, 4, 8, 16 and
    16 from then on. *)
Theorem get_delay_seconds_spec :
  (∀ n, 0 < n → get_delay_seconds n = Z.min (2 ^ (n - 1)) 16) ∧
  get_delay_seconds 0 = 0 ∧
  map get_delay_seconds [1; 2; 3; 4; 5; 6; 7] = [1; 2; 4; 8; 16; 16; 16] ∧
  (∀ n, 5 <= n → get_delay_seconds n = 16).
Proof.
  split; [exact get_delay_seconds_pos |].
  split; [reflexivity |].
  split; [reflexivity | exact get_delay_seconds_cap].
Qed.

Lemma get_delay_seconds_spec_witness :
  get_delay_seconds 3 = Z.min (2 ^ (3 - 1)) 16 ∧ get_delay_seconds 9 = 16.
Proof.
  destruct get_delay_seconds_spec as (Hpos & _ & _ & Hcap).
  split; [apply Hpos; lia | apply Hcap; lia].
Defined.

(** ** PIN format *)

Lemma all_chars_Forall (p : ascii → bool) (s : string) :
  PyStr.all_chars p s = true ↔ Forall (λ c, p c = true) (list_ascii_of_string s).
Proof.
  induction s as [| c s IH]; simpl.
  - split; [constructor | reflexivity].
  - rewrite andb_true_iff, IH. split.
    + intros [Hc Hs]. constructor; assumption.
    + intros H. inversion H; subst. split; assumption.
Qed.

Lemma isdigit_digits_only (s : string) :
  PyStr.isdigit s = true ↔ s ≠ "" ∧ digits_only s.
Proof.
  unfold PyStr.isdigit, digits_only. destruct s as [| c s].
  - split; [discriminate | intros [H _]; congruence].
  - rewrite all_chars_Forall. split; [intros H; split; [discriminate | exact H] | tauto].
Qed.

(** Below code point 128 the digits are exactly '0' ... '9'. *)
Lemma isdigit_char_ascii (c : ascii) :
  PyStr.ord c < 128 → PyStr.isdigit_char c = PyStr.is_ascii_decimal c.
Proof.
  unfold PyStr.isdigit_char, PyStr.is_ascii_decimal. intros Hc.
  destruct (Z.eqb_spec (PyStr.ord c) 178); [lia |].
  destruct (Z.eqb_spec (PyStr.ord c) 179); [lia |].
  destruct (Z.eqb_spec (PyStr.ord c) 185); [lia |].
  rewrite !orb_false_r. reflexivity.
Qed.

Lemma validate_pin_input_accepts (s : string) :
  digits_only s → (4 <= String.length s <= 8)%nat →
  validate_pin_input (JStr s) = (true, Some s).
Proof.
  intros Hd Hlen. unfold validate_pin_input, PyStr.len.
  assert (PyStr.isdigit s = true) as ->.
  { apply isdigit_digits_only. split; [| exact Hd].
    intros ->. simpl in Hlen. lia. }
  destruct (Z.leb_spec 4 (Z.of_nat (String.length s))); [| lia].
  destruct (Z.leb_spec (Z.of_nat (String.length s)) 8); [| lia].
  reflexivity.
Qed.

Lemma validate_pin_input_rejects (v : json) :
  ¬ pin_format_ok v → validate_pin_input v = (false, None).
Proof.
  intros Hno. destruct v as [| b | n | s | l | d]; try reflexivity.
  unfold validate_pin_input, PyStr.len.
  destruct (PyStr.isdigit s) eqn:Hd; [| reflexivity].
  destruct (Z.leb_spec 4 (Z.of_nat (String.length s))); [| reflexivity].
  destruct (Z.leb_spec (Z.of_nat (String.length s)) 8); [| reflexivity].
  exfalso. apply Hno. exists s. split; [reflexivity |].
  apply isdigit_digits_only in Hd. split; [tauto | lia].
Qed.

Lemma validate_pin_input_true_inv (v : json) (r : option string) :
  validate_pin_input v = (true, r) → pin_format_ok v.
Proof.
  destruct v as [| b | n | s | l | d]; try discriminate.
  unfold validate_pin_input, PyStr.len.
  destruct (PyStr.isdigit s) eqn:Hd; [| discriminate].
  destruct (Z.leb_spec 4 (Z.of_nat (String.length s))); [| discriminate].
  destruct (Z.leb_spec (Z.of_nat (String.length s)) 8); [| discriminate].
  intros _. exists s. split; [reflexivity |].
  apply isdigit_digits_only in Hd. split; [tauto | lia].
Qed.

Lemma digits_only_ascii (s : string) :
  Forall (λ c, PyStr.ord c < 128) (list_ascii_of_string s) →
  digits_only s ↔
  Forall (λ c, PyStr.is_ascii_decimal c = true) (list_ascii_of_string s).
Proof.
  unfold digits_only. induction (list_ascii_of_string s) as [| c l IH].
  - intros _. split; constructor.
  - intros Hall. inversion Hall as [| ? ? Hc Hl]; subst.
    specialize (IH Hl). split; intros H; inversion H; subst; constructor;
      try tauto.
    + rewrite <- isdigit_char_ascii; assumption.
    + rewrite isdigit_char_ascii; assumption.
Qed.

(** C7. [validate_pin_input] accepts exactly the strings of 4 to 8 digits and
    returns the accepted PIN unchanged; every other value (not a string, a
    character that is no digit, a wrong length) gets [(False, None)]. A
    digit is what [str.isdigit] takes for one; in a string of characters
    below 128 these are '0' to '9'. "1234" is accepted; "12a4", "123" and
    the number 123 are not. *)
Theorem validate_pin_input_spec :
  (∀ v, pin_format_ok v ↔ ∃ s, v = JStr s ∧ validate_pin_input v = (true, Some s)) ∧
  (∀ v, ¬ pin_format_ok v ↔ validate_pin_input v = (false, None)) ∧
  (∀ s, Forall (λ c, PyStr.ord c < 128) (list_ascii_of_string s) →
     validate_pin_input (JStr s) = (true, Some s) ↔
     Forall (λ c, PyStr.is_ascii_decimal c = true) (list_ascii_of_string s) ∧
     (4 <= String.length s <= 8)%nat) ∧
  validate_pin_input (JStr "1234") = (true, Some "1234") ∧
  validate_pin_input (JStr "12a4") = (false, None) ∧
  validate_pin_input (JStr "123") = (false, None) ∧
  validate_pin_input (JNum 123) = (false, None).
Proof.
  assert (Hacc : ∀ v, pin_format_ok v →
            ∃ s, v = JStr s ∧ validate_pin_input v = (true, Some s)).
  { intros v (s & -> & Hd & Hlen). exists s. split; [reflexivity |].
    apply validate_pin_input_accepts; assumption. }
  split; [| split; [| split]].
  - intros v. split; [apply Hacc |].
    intros (s & -> & Hv). exact (validate_pin_input_true_inv _ _ Hv).
  - intros v. split; [apply validate_pin_input_rejects |].
    intros Hv Hok. destruct (Hacc v Hok) as (s & _ & Hs). congruence.
  - intros s Hascii. rewrite <- (digits_only_ascii s Hascii). split.
    + intros Hv. destruct (validate_pin_input_true_inv _ _ Hv)
        as (s' & [= <-] & Hd & Hlen). split; assumption.
    + intros [Hd Hlen]. apply validate_pin_input_accepts; assumption.
  - repeat split; reflexivity.
Qed.

(** ** Reading the tables *)

Lemma read_block (k : string) (m : gmap string (option Z)) :
  (dd_getitem None k m).1 = block_of m k.
Proof. apply fst_dd_getitem. Qed.

Lemma read_counter (k : string) (m : gmap string Z) :
  (dd_getitem 0 k m).1 = counter_of m k.
Proof. apply fst_dd_getitem. Qed.

Lemma counter_of_read (k k' : string) (m : gmap string Z) :
  counter_of (dd_getitem 0 k m).2 k' = counter_of m k'.
Proof. apply counter_of_touch. Qed.

Lemma block_of_read (k k' : string) (m : gmap string (option Z)) :
  block_of (dd_getitem None k m).2 k' = block_of m k'.
Proof. apply block_of_touch. Qed.

Lemma block_active_Some (b : option Z) (t : Z) :
  block_active b t = true → Some (default 0 b) = b.
Proof. destruct b; [reflexivity | discriminate]. Qed.

Lemma roll_global_tables o t :
  ip_failed_attempts (roll_global o t) = ip_failed_attempts t ∧
  ip_blocked_until (roll_global o t) = ip_blocked_until t ∧
  session_failed_attempts (roll_global o t) = session_failed_attempts t ∧
  session_blocked_until (roll_global o t) = session_blocked_until t.
Proof. unfold roll_global. destruct (_ <? _); repeat split. Qed.

Lemma blocked_until_ts_with_session_id c o :
  blocked_until_ts (with_session_id c o) = blocked_until_ts c.
Proof.
  unfold with_session_id.
  destruct (_session_id c) as [sid |]; [destruct (PyStr.truthy sid) |];
    reflexivity.
Qed.

(** Rewrites the projections of the tables met after a request into those
    of the tables before it. *)
Ltac limits :=
  unfold same_limits, read_ip_block, read_session_block, touch;
  cbn [tables sess events
       ip_failed_attempts ip_blocked_until session_failed_attempts
       session_blocked_until global_failed_attempts global_last_reset
       set_ip_failed_attempts set_ip_blocked_until set_session_failed_attempts
       set_session_blocked_until set_global];
  repeat match goal with
    | |- context [ip_failed_attempts (roll_global ?o ?t)] =>
        rewrite (proj1 (roll_global_tables o t))
    | |- context [ip_blocked_until (roll_global ?o ?t)] =>
        rewrite (proj1 (proj2 (roll_global_tables o t)))
    | |- context [session_failed_attempts (roll_global ?o ?t)] =>
        rewrite (proj1 (proj2 (proj2 (roll_global_tables o t))))
    | |- context [session_blocked_until (roll_global ?o ?t)] =>
        rewrite (proj2 (proj2 (proj2 (roll_global_tables o t))))
    end;
  repeat split; intros;
  rewrite ?block_of_read, ?counter_of_read, ?read_block, ?read_counter;
  try reflexivity.

(** ** The refusals that come before the credentials *)

Lemma check_blocks_run o ip sid ident t s es :
  check_blocks o ip sid ident (World t s es) =
  if cookie_block_active (blocked_until_ts s) (time_cookie o) then
    (Return (too_many (blocked_until_ts s)),
     World t s
       (es ++ [log_event o ip sid "UNKNOWN" SESSION_BLOCKED
                 (SessionBlockedPersisted
                    (Z.quot (default 0 (blocked_until_ts s)
                             - time_cookie_remaining o) one_second))]))
  else if block_active (block_of (session_blocked_until t) sid) (now o) then
    (Return (too_many (block_of (session_blocked_until t) sid)),
     World (read_session_block sid t) s
       (es ++ [log_event o ip sid "UNKNOWN" SESSION_BLOCKED
                 (SessionBlockedFor
                    (whole_seconds
                       (default 0 (block_of (session_blocked_until t) sid))
                       (now o)))]))
  else if block_active (block_of (ip_blocked_until t) ident) (now o) then
    (Return (too_many (block_of (ip_blocked_until t) ident)),
     World (read_ip_block ident (read_session_block sid t)) s
       (es ++ [log_event o ip sid "UNKNOWN" IP_BLOCKED
                 (IpBlockedFor
                    (whole_seconds
                       (default 0 (block_of (ip_blocked_until t) ident))
                       (now o)))]))
  else (Next tt, World (read_ip_block ident (read_session_block sid t)) s es).
Proof.
  unfold check_blocks. run_handler.
  destruct (blocked_until_ts s) as [ts |] eqn:Hts;
    [destruct (cookie_block_active (Some ts) (time_cookie o)) eqn:Hc |
     cbn [cookie_block_active]]; run_handler; try reflexivity.
  all: rewrite ?read_block;
       destruct (block_active (block_of (session_blocked_until t) sid) (now o))
         eqn:Hs; run_handler;
       [unfold too_many; rewrite <- (block_active_Some _ _ Hs); reflexivity |].
  all: rewrite ?read_block;
       destruct (block_active (block_of (ip_blocked_until t) ident) (now o))
         eqn:Hi; run_handler;
       [unfold too_many; rewrite <- (block_active_Some _ _ Hi); reflexivity |
        reflexivity].
Qed.

Lemma open_door_screen_run cfg req o st c es :
  open_door_screen cfg req o (World st c es) =
  let ip := remote_addr req in
  let sid := session_id_of c o in
  let ident := identifier_of cfg req in
  let c' := with_session_id c o in
  if is_request_suspicious req then
    (Return (Response 403 false RequestBlocked None),
     World st c'
       (es ++ [log_event o ip sid "UNKNOWN" SUSPICIOUS
                 SuspiciousRequestDetected]))
  else if negb (global_budget_left cfg o st) then
    (Return (Response 429 false ServiceTemporarilyUnavailable None),
     World (roll_global o st) c'
       (es ++ [log_event o ip sid "UNKNOWN" GLOBAL_BLOCKED
                 GlobalRateLimitExceeded]))
  else
    match check_blocks o ip sid ident (World (roll_global o st) c' es) with
    | (Next _, w') => (Next (ip, sid, ident), w')
    | (Return r, w') => (Return r, w')
    | (Raise, w') => (Raise, w')
    end.
Proof.
  unfold open_door_screen. rewrite bind_run, get_client_identifier_run.
  cbv beta iota zeta. cbn [tables sess events].
  destruct (is_request_suspicious req); [reflexivity |].
  unfold check_global_rate_limit, global_budget_left. run_handler.
  destruct (global_failed_attempts (roll_global o st) <?
            MAX_GLOBAL_ATTEMPTS_PER_HOUR cfg); run_handler; [| reflexivity].
  destruct (check_blocks _ _ _ _ _) as [[[] | r |] w']; reflexivity.
Qed.

Lemma not_actuator_called_log o ip sid user st d :
  ¬ actuator_called [log_event o ip sid user st d].
Proof.
  intros (svc & en & H). apply list_elem_of_singleton in H. discriminate.
Qed.

(** C1. While a block is in effect (in the cookie, or in memory for the
    session or for the composite identifier) a request that is not turned
    away as suspicious is answered 429 whatever it presents, a correct PIN
    or an accepted federated session included: no block and no per-IP or
    per-session counter changes, the cookie keeps its block, the global
    counter is what the hourly window of [check_global_rate_limit] makes of
    it, and Home Assistant is not called. *)
Theorem blocks_win_over_credentials cfg req o st :
  is_request_suspicious req = false →
  block_in_effect cfg req o st = true →
  let res := open_door cfg req o st in
  code res.1 = 429 ∧
  same_limits st (tables res.2) ∧
  global_failed_attempts (tables res.2)
    = global_failed_attempts (roll_global o st) ∧
  blocked_until_ts (sess res.2) = blocked_until_ts (cookie req) ∧
  ¬ actuator_called (events res.2).
Proof.
  intros Hsusp Hblk res. subst res.
  unfold open_door, try_except, open_door_body.
  rewrite bind_run, open_door_screen_run. cbv zeta. rewrite Hsusp.
  destruct (global_budget_left cfg o st); cbn [negb].
  2:{ cbn [fst snd code tables sess events app].
      rewrite blocked_until_ts_with_session_id.
      split; [reflexivity |]. split; [limits |].
      repeat split. apply not_actuator_called_log. }
  rewrite check_blocks_run.
  unfold block_in_effect, cookie_block_in_effect, session_block_in_effect,
    ip_block_in_effect in Hblk.
  rewrite blocked_until_ts_with_session_id.
  destruct (roll_global_tables o st) as (_ & -> & _ & ->).
  destruct (cookie_block_active _ _);
    [| destruct (block_active (block_of (session_blocked_until st) _) _);
       [| destruct (block_active (block_of (ip_blocked_until st) _) _);
          [| discriminate Hblk]]].
  all: cbn [fst snd code too_many tables sess events app];
    rewrite blocked_until_ts_with_session_id;
    (split; [reflexivity |]); (split; [limits |]);
    repeat split; apply not_actuator_called_log.
Qed.

(** ** The verdict of the block checks *)

Lemma foldr_max_le (u : Z) (us : list Z) : u <= foldr Z.max u us.
Proof. induction us as [| v us IH]; cbn; lia. Qed.

Lemma first_le_latest (sources : list (option Z)) (u : Z) :
  first_active_block sources = Some u →
  u ∈ active_untils sources ∧
  ∃ l, latest_active_block sources = Some l ∧ u <= l.
Proof.
  unfold first_active_block, latest_active_block.
  destruct (active_untils sources) as [| v vs]; [discriminate |].
  cbn. intros [= ->]. split; [left |].
  eexists. split; [reflexivity | apply foldr_max_le].
Qed.

Lemma single_source_latest (sources : list (option Z)) :
  List.length (active_untils sources) = 1%nat →
  first_active_block sources = latest_active_block sources.
Proof.
  unfold first_active_block, latest_active_block.
  destruct (active_untils sources) as [| v [| v' vs]]; try discriminate.
  reflexivity.
Qed.

Lemma check_blocks_verdict o ip sid ident t s es :
  let res := check_blocks o ip sid ident (World t s es) in
  let sources := block_sources o s t sid ident in
  ((∃ r w', res = (Return r, w')) ↔ active_untils sources ≠ []) ∧
  (∀ r w', res = (Return r, w') →
     r = too_many (first_active_block sources) ∧
     ∃ (u clock : Z) (e : event), first_active_block sources = Some u ∧
       events w' = (es ++ [e])%list ∧
       logged_remaining e = Some (Z.quot (u - clock) one_second) ∧
       (clock = time_cookie_remaining o ∨ clock = now o)).
Proof.
  intros res sources. subst res sources.
  rewrite check_blocks_run.
  unfold block_sources, persisted_until, memory_until, first_active_block,
    active_untils.
  destruct (cookie_block_active (blocked_until_ts s) (time_cookie o)) eqn:Hc.
  { destruct (blocked_until_ts s) as [ts |]; [| discriminate Hc].
    cbn. split; [split; [discriminate | eauto] |].
    intros r w' [= <- <-]. split; [reflexivity |].
    eexists _, _, _. split; [reflexivity |]. split; [reflexivity |].
    split; [reflexivity | left; reflexivity]. }
  destruct (block_active (block_of (session_blocked_until t) sid) (now o))
    eqn:Hs.
  { destruct (block_of (session_blocked_until t) sid) as [u |];
      [| discriminate Hs].
    cbn. split; [split; [discriminate | eauto] |].
    intros r w' [= <- <-]. split; [reflexivity |].
    eexists _, _, _. split; [reflexivity |]. split; [reflexivity |].
    split; [reflexivity | right; reflexivity]. }
  destruct (block_active (block_of (ip_blocked_until t) ident) (now o)) eqn:Hi.
  { destruct (block_of (ip_blocked_until t) ident) as [u |];
      [| discriminate Hi].
    cbn. split; [split; [discriminate | eauto] |].
    intros r w' [= <- <-]. split; [reflexivity |].
    eexists _, _, _. split; [reflexivity |]. split; [reflexivity |].
    split; [reflexivity | right; reflexivity]. }
  cbn. split.
  - split; [intros (r & w' & H); discriminate H | congruence].
  - intros r w' H. discriminate H.
Qed.

Lemma dd_getitem_again {V} (dflt : V) (k : string) (m : gmap string V) :
  dd_getitem dflt k (dd_getitem dflt k m).2
  = ((dd_getitem dflt k m).1, (dd_getitem dflt k m).2).
Proof.
  unfold dd_getitem. destruct (m !! k) eqn:Hk; cbn.
  - rewrite Hk. reflexivity.
  - rewrite lookup_insert_eq. reflexivity.
Qed.

Lemma enforce_active_block_run o ip sid ident user t s es :
  enforce_active_block o ip sid ident user (World t s es) =
  let sb := block_of (session_blocked_until t) sid in
  let ib := block_of (ip_blocked_until t) ident in
  if block_active sb (now o) || block_active ib (now o) then
    (Return (too_many (recheck_blocked_until sb ib (now o))),
     World (read_ip_block ident (read_session_block sid t)) s
       (es ++ [log_event o ip sid user BLOCK_ENFORCED
                 (AccessBlockedFor (recheck_remaining sb ib (now o)))]))
  else (Next tt, World (read_ip_block ident (read_session_block sid t)) s es).
Proof.
  unfold enforce_active_block. run_handler. rewrite ?read_block. cbv zeta.
  destruct (block_active (block_of (session_blocked_until t) sid) (now o));
    run_handler; rewrite ?read_block.
  - rewrite dd_getitem_again. cbn [fst snd]. rewrite ?block_of_read.
    reflexivity.
  - destruct (block_active (block_of (ip_blocked_until t) ident) (now o));
      run_handler; [| reflexivity].
    rewrite !dd_getitem_again. cbn [fst snd].
    rewrite ?read_block, ?block_of_read. reflexivity.
Qed.

Lemma recheck_blocked_until_latest o t sid ident :
  0 <= now o →
  recheck_blocked_until (block_of (session_blocked_until t) sid)
    (block_of (ip_blocked_until t) ident) (now o)
  = latest_active_block (memory_sources o t sid ident).
Proof.
  intros Hnow.
  unfold recheck_blocked_until, latest_active_block, memory_sources,
    memory_until, active_untils.
  destruct (block_of (session_blocked_until t) sid) as [u |],
           (block_of (ip_blocked_until t) ident) as [v |]; cbn;
    repeat match goal with
      | |- context [?a <? ?b] => destruct (Z.ltb_spec a b); cbn
      | |- context [?a =? ?b] => destruct (Z.eqb_spec a b); cbn
      end;
    try reflexivity; try lia; f_equal; lia.
Qed.

(** C2, as the code has it. The caller is refused by the block checks when,
    and only when, one of the three sources is active. The [blocked_until]
    of the refusal is that of the first active source in the order cookie,
    session table, identifier table: the expiry of an active block, never
    later than the latest one and equal to it when one source only is
    active; the logged remaining time is computed from that same value. The
    second look before access is granted reports the latest of the active
    in-memory blocks. *)
Theorem blocked_check_verdict o ip sid ident t s es :
  let res := check_blocks o ip sid ident (World t s es) in
  let sources := block_sources o s t sid ident in
  ((∃ r w', res = (Return r, w')) ↔ active_untils sources ≠ []) ∧
  (∀ r w', res = (Return r, w') →
     r = too_many (first_active_block sources) ∧
     ∃ (u l clock : Z) (e : event),
       first_active_block sources = Some u ∧
       u ∈ active_untils sources ∧
       latest_active_block sources = Some l ∧ u <= l ∧
       events w' = (es ++ [e])%list ∧
       logged_remaining e = Some (Z.quot (u - clock) one_second) ∧
       (clock = time_cookie_remaining o ∨ clock = now o)) ∧
  (List.length (active_untils sources) = 1%nat →
   first_active_block sources = latest_active_block sources) ∧
  (∀ user r w', 0 <= now o →
     enforce_active_block o ip sid ident user (World t s es) = (Return r, w') →
     blocked_until r = latest_active_block (memory_sources o t sid ident)).
Proof.
  intros res sources.
  destruct (check_blocks_verdict o ip sid ident t s es) as [Hiff Hret].
  split; [exact Hiff |]. split; [| split].
  - intros r w' Hres.
    destruct (Hret r w' Hres) as (Hr & u & clock & e & Hu & He & Hrem & Hclk).
    split; [exact Hr |].
    destruct (first_le_latest _ _ Hu) as (Hin & l & Hl & Hle).
    exists u, l, clock, e. repeat split; assumption.
  - apply single_source_latest.
  - intros user r w' Hnow. rewrite enforce_active_block_run. cbv zeta.
    destruct (_ || _); [| discriminate].
    intros [= <- _]. cbn [blocked_until too_many].
    apply recheck_blocked_until_latest, Hnow.
Qed.

Lemma open_door_screen_pass cfg req o st :
  reaches_authentication cfg req o st = true →
  open_door_screen cfg req o (World st (cookie req) []) =
  (Next (remote_addr req, session_id_of (cookie req) o, identifier_of cfg req),
   World (screened cfg req o st) (with_session_id (cookie req) o) []).
Proof.
  unfold reaches_authentication, block_in_effect, cookie_block_in_effect,
    session_block_in_effect, ip_block_in_effect.
  rewrite !andb_true_iff, !negb_true_iff, !orb_false_iff.
  intros [[Hsusp Hbudget] [[Hc Hs] Hi]].
  rewrite open_door_screen_run. cbv zeta. rewrite Hsusp, Hbudget. cbn [negb].
  rewrite check_blocks_run, blocked_until_ts_with_session_id, Hc.
  destruct (roll_global_tables o st) as (_ & -> & _ & ->).
  rewrite Hs, Hi. reflexivity.
Qed.

(** ** Writing the tables *)

Lemma dd_getitem_insert {V} (dflt v : V) (k : string) (m : gmap string V) :
  dd_getitem dflt k (<[k := v]> m) = (v, <[k := v]> m).
Proof. unfold dd_getitem. rewrite lookup_insert_eq. reflexivity. Qed.

Lemma insert_dd_getitem {V} (dflt v : V) (k : string) (m : gmap string V) :
  <[k := v]> (dd_getitem dflt k m).2 = <[k := v]> m.
Proof.
  unfold dd_getitem. destruct (m !! k); cbn; [reflexivity |].
  apply insert_insert_eq.
Qed.

Lemma counter_of_insert_eq k v (m : gmap string Z) :
  counter_of (<[k := v]> m) k = v.
Proof. unfold counter_of. rewrite lookup_insert_eq. reflexivity. Qed.

Lemma counter_of_insert_ne k k' v (m : gmap string Z) :
  k' ≠ k → counter_of (<[k := v]> m) k' = counter_of m k'.
Proof. intros H. unfold counter_of. rewrite lookup_insert_ne by congruence. reflexivity. Qed.

Lemma block_of_insert_eq k v (m : gmap string (option Z)) :
  block_of (<[k := v]> m) k = v.
Proof. unfold block_of. rewrite lookup_insert_eq. reflexivity. Qed.

Lemma block_of_insert_ne k k' v (m : gmap string (option Z)) :
  k' ≠ k → block_of (<[k := v]> m) k' = block_of m k'.
Proof. intros H. unfold block_of. rewrite lookup_insert_ne by congruence. reflexivity. Qed.

Lemma block_of_delete_ne k k' (m : gmap string (option Z)) :
  k' ≠ k → block_of (delete k m) k' = block_of m k'.
Proof. intros H. unfold block_of. rewrite lookup_delete_ne by congruence. reflexivity. Qed.

Lemma bumped_insert k (m : gmap string Z) :
  bumped k m (<[k := counter_of m k + 1]> m).
Proof. split; [apply counter_of_insert_eq | intros; by apply counter_of_insert_ne]. Qed.

Lemma block_set_insert k u (m : gmap string (option Z)) :
  block_set k u m (<[k := Some u]> m).
Proof. split; [apply block_of_insert_eq | intros; by apply block_of_insert_ne]. Qed.

Lemma same_blocks_read k (m : gmap string (option Z)) :
  same_blocks m (dd_getitem None k m).2.
Proof. intros k'. apply block_of_read. Qed.

Lemma same_blocks_refl (m : gmap string (option Z)) : same_blocks m m.
Proof. intros k. reflexivity. Qed.

Lemma open_door_pin_failure_spec cfg o ip sid ident t s es :
  let sf := counter_of (session_failed_attempts t) sid + 1 in
  let ipf := counter_of (ip_failed_attempts t) ident + 1 in
  ∃ r w',
    open_door_pin_failure cfg o ip sid ident (World t s es) = (Return r, w') ∧
    code r = 401 ∧
    bumped ident (ip_failed_attempts t) (ip_failed_attempts (tables w')) ∧
    bumped sid (session_failed_attempts t)
      (session_failed_attempts (tables w')) ∧
    global_failed_attempts (tables w') = global_failed_attempts t + 1 ∧
    global_last_reset (tables w') = global_last_reset t ∧
    if SESSION_MAX_ATTEMPTS cfg <=? sf then
      block_set sid (now o + BLOCK_TIME cfg) (session_blocked_until t)
        (session_blocked_until (tables w')) ∧
      same_blocks (ip_blocked_until t) (ip_blocked_until (tables w')) ∧
      sess w' = set_blocked_until_ts (Some (now_persist o + BLOCK_TIME cfg)) s ∧
      events w' = (es ++ [log_event o ip sid "UNKNOWN" AUTH_FAILURE
                           (InvalidPinSessionBlocked (block_minutes cfg))])%list ∧
      msg r = Reason (InvalidPinSessionBlocked (block_minutes cfg))
    else if MAX_ATTEMPTS cfg <=? ipf then
      same_blocks (session_blocked_until t) (session_blocked_until (tables w')) ∧
      block_set ident (now o + BLOCK_TIME cfg) (ip_blocked_until t)
        (ip_blocked_until (tables w')) ∧
      sess w' = s ∧
      events w' = (es ++ [log_event o ip sid "UNKNOWN" AUTH_FAILURE
                           (InvalidPinAccessBlocked (block_minutes cfg))])%list ∧
      msg r = Reason (InvalidPinAccessBlocked (block_minutes cfg))
    else
      let remaining_attempts :=
        Z.min (SESSION_MAX_ATTEMPTS cfg - sf) (MAX_ATTEMPTS cfg - ipf) in
      same_blocks (session_blocked_until t) (session_blocked_until (tables w')) ∧
      same_blocks (ip_blocked_until t) (ip_blocked_until (tables w')) ∧
      sess w' = s ∧
      events w' = (es ++ (if 0 <? get_delay_seconds sf
                          then [Sleep (get_delay_seconds sf)] else [])
                      ++ [log_event o ip sid "UNKNOWN" AUTH_FAILURE
                            (InvalidPinRemaining remaining_attempts)])%list ∧
      msg r = Reason (InvalidPinRemaining remaining_attempts).
Proof.
  intros sf ipf. subst sf ipf.
  unfold open_door_pin_failure. run_handler.
  rewrite !read_counter, !insert_dd_getitem, !dd_getitem_insert. cbn [fst snd].
  rewrite !counter_of_insert_eq.
  destruct (SESSION_MAX_ATTEMPTS cfg <=? counter_of (session_failed_attempts t) sid + 1);
    run_handler;
    [| rewrite ?dd_getitem_insert; cbn [fst snd];
       destruct (MAX_ATTEMPTS cfg <=? counter_of (ip_failed_attempts t) ident + 1);
       run_handler;
       [| destruct (0 <? get_delay_seconds
                           (counter_of (session_failed_attempts t) sid + 1));
          run_handler]].
  all: rewrite ?dd_getitem_insert; cbn [fst snd];
    repeat match goal with
      | |- context [if block_active ?b ?t then _ else _] =>
          destruct (block_active b t); run_handler;
          rewrite ?dd_getitem_insert; cbn [fst snd]
      end.
  all: (eexists _, _; split; [reflexivity |]);
      cbn [code msg tables sess events session_failed_attempts
           ip_failed_attempts session_blocked_until ip_blocked_until
           global_failed_attempts global_last_reset];
      rewrite ?insert_dd_getitem;
      repeat split;
      first [ apply bumped_insert | apply block_set_insert
            | apply same_blocks_read | apply same_blocks_refl | idtac ].
  all: try (rewrite <- app_assoc; reflexivity).
Qed.

(** ** The pieces of the authentication stage *)

Lemma check_oidc_expiry_run cfg o t s es :
  check_oidc_expiry cfg o (World t s es) =
  (Next (oidc_session cfg s && negb (oidc_exp_passed o s)),
   World t (after_expiry_check cfg o s) es).
Proof.
  unfold check_oidc_expiry, after_expiry_check, oidc_session, oidc_exp_passed.
  run_handler.
  destruct (oauth cfg && bool_decide (oidc_authenticated s = Some true));
    [| reflexivity].
  destruct (oidc_exp s) as [e |]; [| reflexivity].
  destruct ((e =? 0) || (e <? time_oidc o)); reflexivity.
Qed.

Lemma pin_of_data_run data w :
  pin_of_data data w =
  if json_truthy data then
    match data with
    | JDict d => (Next (default JNull (dict_get "pin" d)), w)
    | _ => (Raise, w)
    end
  else (Next JNull, w).
Proof.
  unfold pin_of_data. destruct (json_truthy data); [| reflexivity].
  destruct data; reflexivity.
Qed.

Lemma call_home_assistant_spec cfg o ip sid user via t s es :
  ∃ r evs,
    call_home_assistant cfg o ip sid user via (World t s es) =
    (Return r,
     World t s (es ++ HaPost (ha_service_for (entity_id cfg)) (entity_id cfg)
                  :: evs)) ∧
    code r ≠ 401 ∧ code r ≠ 429 ∧
    (code r = 200 ↔ ha_post o = HaResponse 200).
Proof.
  unfold call_home_assistant. run_handler.
  destruct (ha_post o) as [sc | |]; run_handler.
  - destruct ((400 <=? sc) && (sc <? 600)) eqn:Herr; run_handler.
    + eexists _, []. split; [reflexivity |]. cbn. repeat split; try lia.
      intros [= ->]. discriminate Herr.
    + destruct (Z.eqb_spec sc 200) as [-> |]; run_handler.
      * rewrite <- !List.app_assoc. eexists _, [_; _]. split; [reflexivity |].
        cbn. repeat split; lia.
      * rewrite <- !List.app_assoc. eexists _, [_]. split; [reflexivity |].
        cbn. repeat split; try lia. congruence.
  - eexists _, []. split; [reflexivity |]. cbn. repeat split; try lia.
    discriminate.
  - rewrite <- !List.app_assoc. eexists _, [_]. split; [reflexivity |].
    cbn. repeat split; try lia. discriminate.
Qed.

Lemma zeroed_insert k (m : gmap string Z) : zeroed k m (<[k := 0]> m).
Proof.
  split; [apply lookup_insert_eq | intros; by apply counter_of_insert_ne].
Qed.

Lemma block_removed_delete_read k (m : gmap string (option Z)) :
  block_removed k m (delete k (dd_getitem None k m).2).
Proof.
  split; [apply lookup_delete_eq |].
  intros k' Hk. rewrite block_of_delete_ne by assumption. apply block_of_read.
Qed.

Lemma blocks_kept_same (m m' : gmap string (option Z)) :
  same_blocks m m' → blocks_kept m m'.
Proof. intros H k u. rewrite H. tauto. Qed.

Lemma blocks_kept_removed k (m m' : gmap string (option Z)) :
  block_removed k m m' → blocks_kept m m'.
Proof.
  intros [Hk Hothers] k' u. destruct (decide (k' = k)) as [-> |].
  - unfold block_of at 1. rewrite Hk. discriminate.
  - rewrite Hothers by assumption. tauto.
Qed.

Lemma block_of_delete_eq k (m : gmap string (option Z)) :
  block_of (delete k m) k = None.
Proof. unfold block_of. rewrite lookup_delete_eq. reflexivity. Qed.

(** Closes [others_untouched] goals over tables built by reads, writes and
    deletions at the keys of the request. *)
Ltac others :=
  unfold others_untouched, read_ip_block, read_session_block, touch,
    count_failure;
  cbn [tables ip_failed_attempts ip_blocked_until session_failed_attempts
       session_blocked_until set_ip_failed_attempts set_ip_blocked_until
       set_session_failed_attempts set_session_blocked_until set_global];
  split; intros ? ?; split;
  repeat first
    [ rewrite counter_of_insert_ne by assumption
    | rewrite block_of_insert_ne by assumption
    | rewrite block_of_delete_ne by assumption
    | rewrite block_of_read
    | rewrite counter_of_read ];
  reflexivity.

Ltac use_home_assistant :=
  match goal with
  | |- context [call_home_assistant ?c ?o ?a ?b ?u ?v (World ?t ?s ?es)] =>
      let r := fresh "r" in
      let evs := fresh "evs" in
      let Hrun := fresh "Hrun" in
      destruct (call_home_assistant_spec c o a b u v t s es)
        as (r & evs & Hrun & ? & ? & ?);
      rewrite Hrun
  end.

Lemma open_door_pin_success_spec cfg o ip sid ident u t s es :
  ∃ r w',
    open_door_pin_success cfg o ip sid ident u (World t s es) = (Return r, w') ∧
    code r ≠ 401 ∧
    others_untouched ident sid t (tables w') ∧
    blocks_kept (ip_blocked_until t) (ip_blocked_until (tables w')) ∧
    blocks_kept (session_blocked_until t) (session_blocked_until (tables w')) ∧
    (sess w' = s ∨ sess w' = set_blocked_until_ts None s) ∧
    (block_active (block_of (session_blocked_until t) sid) (now o) = false →
     block_active (block_of (ip_blocked_until t) ident) (now o) = false →
     code r ≠ 429 ∧
     zeroed ident (ip_failed_attempts t) (ip_failed_attempts (tables w')) ∧
     zeroed sid (session_failed_attempts t)
       (session_failed_attempts (tables w')) ∧
     block_removed ident (ip_blocked_until t) (ip_blocked_until (tables w')) ∧
     block_removed sid (session_blocked_until t)
       (session_blocked_until (tables w')) ∧
     global_failed_attempts (tables w') = global_failed_attempts t ∧
     global_last_reset (tables w') = global_last_reset t ∧
     sess w' = set_blocked_until_ts None s ∧
     (test_mode cfg = false →
      ∃ evs, events w'
             = (es ++ HaPost (ha_service_for (entity_id cfg)) (entity_id cfg)
                  :: evs)%list)).
Proof.
  unfold open_door_pin_success.
  rewrite bind_run, enforce_active_block_run. cbv zeta.
  destruct (block_active (block_of (session_blocked_until t) sid) (now o)) eqn:Hs;
    [| destruct (block_active (block_of (ip_blocked_until t) ident) (now o)) eqn:Hi];
    cbn [orb].
  1,2: eexists _, _; split; [reflexivity |];
    cbn [code too_many tables]; split; [lia |]; (split; [others |]);
    unfold read_ip_block, read_session_block, touch;
    cbn [ip_blocked_until session_blocked_until set_ip_blocked_until
         set_session_blocked_until];
    (split; [first [apply blocks_kept_same, same_blocks_read
                   | apply blocks_kept_same, same_blocks_refl] |]);
    (split; [first [apply blocks_kept_same, same_blocks_read
                   | apply blocks_kept_same, same_blocks_refl] |]);
    (split; [left; reflexivity |]);
    intros; discriminate.
  unfold read_ip_block, read_session_block, touch. run_handler.
  destruct (test_mode cfg); run_handler; [| use_home_assistant].
  all: eexists _, _; (split; [reflexivity |]);
    cbn [code tables sess events ip_failed_attempts ip_blocked_until
         session_failed_attempts session_blocked_until
         global_failed_attempts global_last_reset];
    (split; [try lia |]); (split; [others |]);
    (split; [apply blocks_kept_removed with ident, block_removed_delete_read |]);
    (split; [apply blocks_kept_removed with sid, block_removed_delete_read |]);
    (split; [right; reflexivity |]);
    intros _ _; (split; [try lia |]);
    repeat split;
    first [ apply zeroed_insert | apply block_removed_delete_read
          | apply lookup_delete_eq | discriminate | eauto
          | intros; rewrite block_of_delete_ne by assumption;
            apply block_of_read ].
Qed.

Lemma open_door_oidc_spec cfg o ip sid ident user t s es :
  ∃ r w',
    open_door_oidc cfg o ip sid ident user (World t s es) = (Return r, w') ∧
    code r ≠ 401 ∧
    others_untouched ident sid t (tables w') ∧
    blocks_kept (ip_blocked_until t) (ip_blocked_until (tables w')) ∧
    blocks_kept (session_blocked_until t) (session_blocked_until (tables w')) ∧
    sess w' = s ∧
    (block_active (block_of (session_blocked_until t) sid) (now o) = false →
     block_active (block_of (ip_blocked_until t) ident) (now o) = false →
     code r ≠ 429 ∧
     zeroed ident (ip_failed_attempts t) (ip_failed_attempts (tables w')) ∧
     zeroed sid (session_failed_attempts t)
       (session_failed_attempts (tables w')) ∧
     block_removed ident (ip_blocked_until t) (ip_blocked_until (tables w')) ∧
     block_removed sid (session_blocked_until t)
       (session_blocked_until (tables w')) ∧
     global_failed_attempts (tables w') = global_failed_attempts t ∧
     global_last_reset (tables w') = global_last_reset t ∧
     (test_mode cfg = false →
      ∃ evs, events w'
             = (es ++ HaPost (ha_service_for (entity_id cfg)) (entity_id cfg)
                  :: evs)%list)).
Proof.
  unfold open_door_oidc.
  rewrite bind_run, enforce_active_block_run. cbv zeta.
  destruct (block_active (block_of (session_blocked_until t) sid) (now o)) eqn:Hs;
    [| destruct (block_active (block_of (ip_blocked_until t) ident) (now o)) eqn:Hi];
    cbn [orb].
  1,2: eexists _, _; split; [reflexivity |];
    cbn [code too_many tables sess]; split; [lia |]; (split; [others |]);
    unfold read_ip_block, read_session_block, touch;
    cbn [ip_blocked_until session_blocked_until set_ip_blocked_until
         set_session_blocked_until];
    (split; [first [apply blocks_kept_same, same_blocks_read
                   | apply blocks_kept_same, same_blocks_refl] |]);
    (split; [first [apply blocks_kept_same, same_blocks_read
                   | apply blocks_kept_same, same_blocks_refl] |]);
    (split; [reflexivity |]);
    intros; discriminate.
  unfold read_ip_block, read_session_block, touch. run_handler.
  rewrite !dd_getitem_again. cbn [fst snd]. rewrite !read_block, Hs.
  run_handler. rewrite !dd_getitem_again. cbn [fst snd]. rewrite !read_block, Hi.
  run_handler.
  destruct (test_mode cfg); run_handler; [| use_home_assistant].
  all: eexists _, _; (split; [reflexivity |]);
    cbn [code tables sess events ip_failed_attempts ip_blocked_until
         session_failed_attempts session_blocked_until
         global_failed_attempts global_last_reset];
    (split; [try lia |]); (split; [others |]);
    (split; [apply blocks_kept_removed with ident, block_removed_delete_read |]);
    (split; [apply blocks_kept_removed with sid, block_removed_delete_read |]);
    (split; [reflexivity |]);
    intros _ _; (split; [try lia |]);
    repeat split;
    first [ apply zeroed_insert | apply block_removed_delete_read
          | apply lookup_delete_eq | discriminate | eauto
          | intros; rewrite block_of_delete_ne by assumption;
            apply block_of_read ].
Qed.

Lemma after_expiry_check_live cfg o s :
  oidc_session cfg s && negb (oidc_exp_passed o s) = true →
  after_expiry_check cfg o s = s.
Proof.
  unfold after_expiry_check. rewrite andb_true_iff, negb_true_iff.
  intros [-> ->]. reflexivity.
Qed.

Lemma open_door_authenticate_run cfg req o ip sid ident t s es :
  open_door_authenticate cfg req o (ip, sid, ident) (World t s es) =
  let s' := after_expiry_check cfg o s in
  let w := World t s' es in
  let data := body req in
  if json_truthy data && negb (is_dict data) then (Raise, w) else
  let pin := default JNull (pin_value data) in
  if negb (json_truthy pin) && oidc_may_open cfg o s then
    open_door_oidc cfg o ip sid ident (oidc_user s) w
  else if negb (json_truthy data) || negb (pin_in_data data) then
    (Return (Response 400 false PinRequired None), w)
  else
    match validate_pin_input pin with
    | (false, _) =>
        (Return (Response 400 false (Reason InvalidPinFormat) None),
         World (count_failure ident sid t) s'
           (es ++ [log_event o ip sid "UNKNOWN" INVALID_FORMAT
                     InvalidPinFormat]))
    | (true, validated_pin) =>
        match validated_pin ≫= matched_user o with
        | Some user => open_door_pin_success cfg o ip sid ident user w
        | None => open_door_pin_failure cfg o ip sid ident w
        end
    end.
Proof.
  unfold open_door_authenticate.
  rewrite bind_run, check_oidc_expiry_run. cbv beta iota zeta.
  rewrite bind_run. unfold get_session at 1. cbn [sess].
  rewrite bind_run, pin_of_data_run.
  destruct (json_truthy (body req)) eqn:Htruthy.
  - destruct (body req) as [| b | n | str | l | d] eqn:Hbody; cbn [is_dict negb andb];
      try reflexivity.
    unfold pin_value. rewrite Htruthy. cbn [orb negb pin_in_data].
    set (pin := default JNull (dict_get "pin" d)).
    unfold oidc_may_open.
    destruct (oidc_session cfg s && negb (oidc_exp_passed o s)) eqn:Hlive;
      [rewrite (after_expiry_check_live _ _ _ Hlive) |];
      destruct (json_truthy pin),
        (negb (PyStr.truthy (oidc_user_group cfg))
         || bool_decide (oidc_user_group cfg ∈ default [] (oidc_groups s))),
        (require_pin_for_oidc cfg);
      cbn [negb andb]; rewrite ?andb_false_r; try reflexivity.
    all: destruct (bool_decide (is_Some (dict_get "pin" d))); cbn [negb];
      [| reflexivity];
      run_handler;
      destruct (validate_pin_input pin) as [[|] vp]; cbn [negb];
      [ destruct vp as [p |]; cbn; [| reflexivity];
        unfold matched_user;
        destruct (find_user p (effective_pins o)) as [u |]; [| reflexivity];
        destruct (PyStr.truthy u); reflexivity
      | run_handler; rewrite !read_counter, !insert_dd_getitem; reflexivity ].
  - cbn [andb]. assert (pin_value (body req) = None) as ->.
    { destruct (body req); try reflexivity. cbn in *. rewrite Htruthy. reflexivity. }
    cbn [default json_truthy negb andb orb].
    unfold oidc_may_open.
    destruct (oidc_session cfg s && negb (oidc_exp_passed o s)) eqn:Hlive;
      [rewrite (after_expiry_check_live _ _ _ Hlive) |];
      destruct
        (negb (PyStr.truthy (oidc_user_group cfg))
         || bool_decide (oidc_user_group cfg ∈ default [] (oidc_groups s))),
        (require_pin_for_oidc cfg);
      cbn [negb andb]; rewrite ?andb_false_r; reflexivity.
Qed.

Lemma validate_pin_input_true (v : json) (vp : option string) :
  validate_pin_input v = (true, vp) → ∃ p, v = JStr p ∧ vp = Some p.
Proof.
  destruct v as [| b | n | str | l | d]; try discriminate.
  unfold validate_pin_input. destruct (_ || _); [discriminate |].
  intros [= <-]. eauto.
Qed.

Lemma pin_value_default (data : json) (p : string) :
  default JNull (pin_value data) = JStr p → pin_value data = Some (JStr p).
Proof. destruct (pin_value data); cbn; [congruence | discriminate]. Qed.

Lemma others_untouched_refl ident sid t : others_untouched ident sid t t.
Proof. split; intros; split; reflexivity. Qed.

Lemma blocks_kept_refl (m : gmap string (option Z)) : blocks_kept m m.
Proof. intros k u H. exact H. Qed.

Lemma open_door_pin_failure_frame cfg o ip sid ident t s es :
  ∃ r w',
    open_door_pin_failure cfg o ip sid ident (World t s es) = (Return r, w') ∧
    code r = 401 ∧
    others_untouched ident sid t (tables w') ∧
    (sess w' = s ∨ ∃ v, sess w' = set_blocked_until_ts v s).
Proof.
  destruct (open_door_pin_failure_spec cfg o ip sid ident t s es)
    as (r & w' & Hrun & Hcode & [_ Hip] & [_ Hsf] & _ & _ & Hcases).
  exists r, w'. split; [exact Hrun |]. split; [exact Hcode |].
  destruct (SESSION_MAX_ATTEMPTS cfg <=? _);
    [| destruct (MAX_ATTEMPTS cfg <=? _)].
  - destruct Hcases as ([_ Hsb] & Hib & Hs & _). split; [| right; eauto].
    split; intros k Hk; split; auto.
  - destruct Hcases as (Hsb & [_ Hib] & Hs & _). split; [| left; exact Hs].
    split; intros k Hk; split; auto.
  - destruct Hcases as (Hsb & Hib & Hs & _). split; [| left; exact Hs].
    split; intros k Hk; split; auto.
Qed.

Lemma open_door_authenticate_frame cfg req o ip sid ident t s es :
  let s' := after_expiry_check cfg o s in
  ∃ out w',
    open_door_authenticate cfg req o (ip, sid, ident) (World t s es) = (out, w') ∧
    others_untouched ident sid t (tables w') ∧
    (sess w' = s' ∨ ∃ v, sess w' = set_blocked_until_ts v s') ∧
    match out with
    | Raise => tables w' = t
    | Next _ => False
    | Return r =>
        (code r = 401 →
         presents_wrong_pin req o ∧
         open_door_pin_failure cfg o ip sid ident (World t s' es)
         = (Return r, w')) ∧
        (code r ≠ 401 →
         blocks_kept (ip_blocked_until t) (ip_blocked_until (tables w')) ∧
         blocks_kept (session_blocked_until t)
           (session_blocked_until (tables w')))
    end.
Proof.
  intros s'. rewrite open_door_authenticate_run. cbv zeta. fold s'.
  destruct (json_truthy (body req) && negb (is_dict (body req))).
  { eexists _, _. split; [reflexivity |]. cbn.
    split; [apply others_untouched_refl |]. split; [left |]; reflexivity. }
  destruct (negb (json_truthy (default JNull (pin_value (body req))))
            && oidc_may_open cfg o s) eqn:Hshort.
  { destruct (open_door_oidc_spec cfg o ip sid ident (oidc_user s) t s' es)
      as (r & w' & Hrun & H401 & Hothers & Hip & Hsess & Hs & _).
    exists (Return r), w'. split; [exact Hrun |]. split; [exact Hothers |].
    split; [left; exact Hs |]. split; [intros H; contradiction | auto]. }
  destruct (negb (json_truthy (body req)) || negb (pin_in_data (body req))).
  { eexists _, _. split; [reflexivity |]. cbn.
    split; [apply others_untouched_refl |]. split; [left; reflexivity |].
    split; [discriminate |]. intros _. split; apply blocks_kept_refl. }
  destruct (validate_pin_input (default JNull (pin_value (body req))))
    as [[|] vp] eqn:Hvalid.
  2:{ eexists _, _. split; [reflexivity |]. cbn [tables sess events code].
      split; [others |]. split; [left; reflexivity |].
      split; [discriminate |]. intros _. split; apply blocks_kept_refl. }
  destruct (validate_pin_input_true _ _ Hvalid) as (p & Hp & ->).
  cbn [mbind option_bind].
  destruct (matched_user o p) as [user |] eqn:Huser.
  - destruct (open_door_pin_success_spec cfg o ip sid ident user t s' es)
      as (r & w' & Hrun & H401 & Hothers & Hip & Hsess & Hs & Hfull).
    exists (Return r), w'. split; [exact Hrun |]. split; [exact Hothers |].
    split; [| split; [intros H; contradiction | auto]].
    destruct Hs as [Hs | Hs]; [left; exact Hs | right; eauto].
  - destruct (open_door_pin_failure_frame cfg o ip sid ident t s' es)
      as (r & w' & Hrun & Hcode & Hothers & Hs).
    exists (Return r), w'. split; [exact Hrun |]. split; [exact Hothers |].
    split; [exact Hs |]. split; [| intros H; contradiction].
    intros _. split; [| exact Hrun].
    exists p. rewrite Hp in Hvalid.
    split; [apply pin_value_default, Hp |]. split; assumption.
Qed.

(** ** The whole handler *)

Lemma screened_tables cfg req o st :
  ip_failed_attempts (screened cfg req o st) = ip_failed_attempts st ∧
  session_failed_attempts (screened cfg req o st) = session_failed_attempts st ∧
  same_blocks (ip_blocked_until st) (ip_blocked_until (screened cfg req o st)) ∧
  same_blocks (session_blocked_until st)
    (session_blocked_until (screened cfg req o st)) ∧
  global_failed_attempts (screened cfg req o st)
    = global_failed_attempts (roll_global o st) ∧
  global_last_reset (screened cfg req o st)
    = global_last_reset (roll_global o st).
Proof.
  unfold screened, read_ip_block, read_session_block, touch.
  cbn [ip_failed_attempts ip_blocked_until session_failed_attempts
       session_blocked_until global_failed_attempts global_last_reset
       set_ip_blocked_until set_session_blocked_until].
  destruct (roll_global_tables o st) as (-> & -> & -> & ->).
  repeat split; intros k; apply block_of_read.
Qed.

Lemma others_untouched_screened cfg req o st ident sid t' :
  others_untouched ident sid (screened cfg req o st) t' →
  others_untouched ident sid st t'.
Proof.
  destruct (screened_tables cfg req o st) as (Hif & Hsf & Hib & Hsb & _).
  intros [Hip Hsess]. split; intros k Hk.
  - destruct (Hip k Hk) as [-> ->]. rewrite Hif, Hib. split; reflexivity.
  - destruct (Hsess k Hk) as [-> ->]. rewrite Hsf, Hsb. split; reflexivity.
Qed.

Lemma blocks_kept_after_same (m0 m1 m2 : gmap string (option Z)) :
  same_blocks m0 m1 → blocks_kept m1 m2 → blocks_kept m0 m2.
Proof. intros Hsame Hkept k u H. rewrite <- Hsame. apply Hkept, H. Qed.

Lemma open_door_past_screen cfg req o st :
  reaches_authentication cfg req o st = true →
  open_door cfg req o st =
  try_except
    (open_door_authenticate cfg req o
       (remote_addr req, session_id_of (cookie req) o, identifier_of cfg req))
    (open_door_except cfg req o)
    (World (screened cfg req o st) (with_session_id (cookie req) o) []).
Proof.
  intros Hreach. unfold open_door, try_except, open_door_body.
  rewrite bind_run, (open_door_screen_pass _ _ _ _ Hreach). reflexivity.
Qed.

Lemma open_door_except_run cfg req o w :
  open_door_except cfg req o w =
  (Next (Response 500 false InternalServerError None),
   World (tables w) (with_session_id (sess w) o)
     (events w ++ [Log (LogEntry (now_exception o) (remote_addr req)
                          (PyStr.take 8 (session_id_of (sess w) o))
                          "UNKNOWN" EXCEPTION ExceptionInOpenDoor)])).
Proof.
  unfold open_door_except. rewrite bind_run, get_client_identifier_run.
  reflexivity.
Qed.

Lemma open_door_refused cfg req o st :
  reaches_authentication cfg req o st = false →
  let res := open_door cfg req o st in
  (code res.1 = 403 ∨ code res.1 = 429) ∧
  same_limits st (tables res.2) ∧
  sess res.2 = with_session_id (cookie req) o ∧
  ¬ actuator_called (events res.2).
Proof.
  intros Hreach res. subst res.
  unfold reaches_authentication, block_in_effect, cookie_block_in_effect,
    session_block_in_effect, ip_block_in_effect in Hreach.
  unfold open_door, try_except, open_door_body.
  rewrite bind_run, open_door_screen_run. cbv zeta.
  destruct (is_request_suspicious req).
  { cbn. split; [left; reflexivity |]. split; [limits |].
    split; [reflexivity | apply not_actuator_called_log]. }
  destruct (global_budget_left cfg o st); cbn [negb].
  2:{ cbn. split; [right; reflexivity |]. split; [limits |].
      split; [reflexivity | apply not_actuator_called_log]. }
  rewrite check_blocks_run, blocked_until_ts_with_session_id.
  destruct (roll_global_tables o st) as (_ & -> & _ & ->).
  cbn [negb andb] in Hreach.
  destruct (cookie_block_active _ _);
    [| destruct (block_active (block_of (session_blocked_until st) _) _);
       [| destruct (block_active (block_of (ip_blocked_until st) _) _);
          [| discriminate Hreach]]].
  all: cbn [fst snd code too_many tables sess events app];
    (split; [right; reflexivity |]); (split; [limits |]);
    (split; [reflexivity | apply not_actuator_called_log]).
Qed.

Lemma same_limits_others ident sid t t' :
  same_limits t t' → others_untouched ident sid t t'.
Proof.
  intros (Hif & Hsf & Hib & Hsb). split; intros k _; split; auto.
Qed.

Lemma same_limits_blocks_kept t t' :
  same_limits t t' →
  blocks_kept (ip_blocked_until t) (ip_blocked_until t') ∧
  blocks_kept (session_blocked_until t) (session_blocked_until t').
Proof.
  intros (_ & _ & Hib & Hsb). split; apply blocks_kept_same; assumption.
Qed.

Lemma open_door_frame cfg req o st :
  let res := open_door cfg req o st in
  let sid := session_id_of (cookie req) o in
  let ident := identifier_of cfg req in
  others_untouched ident sid st (tables res.2) ∧
  (code res.1 = 401 →
   reaches_authentication cfg req o st = true ∧
   presents_wrong_pin req o ∧
   open_door_pin_failure cfg o (remote_addr req) sid ident
     (World (screened cfg req o st)
        (after_expiry_check cfg o (with_session_id (cookie req) o)) [])
   = (Return res.1, res.2)) ∧
  (code res.1 ≠ 401 →
   blocks_kept (ip_blocked_until st) (ip_blocked_until (tables res.2)) ∧
   blocks_kept (session_blocked_until st)
     (session_blocked_until (tables res.2))).
Proof.
  intros res sid ident. subst res.
  destruct (reaches_authentication cfg req o st) eqn:Hreach.
  2:{ destruct (open_door_refused cfg req o st Hreach) as (Hcode & Hsame & _).
      split; [apply same_limits_others, Hsame |].
      split; [intros H401; rewrite H401 in Hcode; destruct Hcode; discriminate |].
      intros _. apply same_limits_blocks_kept, Hsame. }
  rewrite (open_door_past_screen _ _ _ _ Hreach). unfold try_except.
  destruct (open_door_authenticate_frame cfg req o (remote_addr req) sid ident
              (screened cfg req o st) (with_session_id (cookie req) o) [])
    as (out & w' & Hrun & Hothers & Hs & Hout).
  fold sid ident. rewrite Hrun.
  destruct (screened_tables cfg req o st) as (_ & _ & Hib & Hsb & _).
  destruct out as [r | r |]; [contradiction | |].
  - cbn [fst snd]. split; [apply others_untouched_screened with cfg req o, Hothers |].
    destruct Hout as [H401 Hkept]. split.
    + intros Hc. destruct (H401 Hc) as [Hwrong Hfail]. auto.
    + intros Hc. destruct (Hkept Hc) as [Hk1 Hk2].
      split; eapply blocks_kept_after_same; eassumption.
  - rewrite open_door_except_run. cbn [fst snd code tables].
    split; [apply others_untouched_screened with cfg req o, Hothers |].
    rewrite Hout.
    split; [discriminate |]. intros _.
    split; apply blocks_kept_same; assumption.
Qed.

Lemma pin_value_Some data v :
  pin_value data = Some v →
  json_truthy data = true ∧ is_dict data = true ∧ pin_in_data data = true.
Proof.
  destruct data as [| b | n | str | l | d]; try discriminate.
  unfold pin_value. destruct (json_truthy (JDict d)); [| discriminate].
  intros H. cbn [pin_in_data is_dict]. rewrite H.
  repeat split.
Qed.

Lemma validated_pin_truthy p vp :
  validate_pin_input (JStr p) = (true, vp) → json_truthy (JStr p) = true.
Proof.
  unfold validate_pin_input. destruct p; [cbn; discriminate | reflexivity].
Qed.

Lemma authenticate_pin cfg req o ip sid ident t s es p :
  pin_value (body req) = Some (JStr p) →
  validate_pin_input (JStr p) = (true, Some p) →
  open_door_authenticate cfg req o (ip, sid, ident) (World t s es) =
  match matched_user o p with
  | Some user =>
      open_door_pin_success cfg o ip sid ident user
        (World t (after_expiry_check cfg o s) es)
  | None =>
      open_door_pin_failure cfg o ip sid ident
        (World t (after_expiry_check cfg o s) es)
  end.
Proof.
  intros Hpin Hvalid. rewrite open_door_authenticate_run. cbv zeta.
  destruct (pin_value_Some _ _ Hpin) as (-> & -> & ->).
  rewrite Hpin. cbn [default from_option id negb andb orb].
  rewrite (validated_pin_truthy _ _ Hvalid), Hvalid. reflexivity.
Qed.

Lemma authenticate_malformed cfg req o ip sid ident t s es v :
  pin_value (body req) = Some v →
  (validate_pin_input v).1 = false →
  json_truthy v = true ∨ oidc_may_open cfg o s = false →
  open_door_authenticate cfg req o (ip, sid, ident) (World t s es) =
  (Return (Response 400 false (Reason InvalidPinFormat) None),
   World (count_failure ident sid t) (after_expiry_check cfg o s)
     (es ++ [log_event o ip sid "UNKNOWN" INVALID_FORMAT InvalidPinFormat])).
Proof.
  intros Hpin Hvalid Hno. rewrite open_door_authenticate_run. cbv zeta.
  destruct (pin_value_Some _ _ Hpin) as (-> & -> & ->).
  rewrite Hpin. cbn [default from_option id negb andb orb].
  assert (negb (json_truthy v) && oidc_may_open cfg o s = false) as ->.
  { destruct Hno as [-> | ->]; [reflexivity | apply andb_false_r]. }
  destruct (validate_pin_input v) as [[|] vp]; [discriminate Hvalid |].
  reflexivity.
Qed.

Lemma authenticate_federated cfg req o ip sid ident t s es :
  json_truthy (body req) && negb (is_dict (body req)) = false →
  json_truthy (default JNull (pin_value (body req))) = false →
  oidc_may_open cfg o s = true →
  open_door_authenticate cfg req o (ip, sid, ident) (World t s es) =
  open_door_oidc cfg o ip sid ident (oidc_user s) (World t s es).
Proof.
  intros Hdict Hpin Hmay. rewrite open_door_authenticate_run. cbv zeta.
  rewrite Hdict, Hpin, Hmay. cbn [negb andb].
  rewrite after_expiry_check_live; [reflexivity |].
  unfold oidc_may_open in Hmay.
  rewrite !andb_true_iff in Hmay. rewrite andb_true_iff. tauto.
Qed.

Lemma blocked_until_ts_after_expiry_check cfg o s :
  blocked_until_ts (after_expiry_check cfg o s) = blocked_until_ts s.
Proof. unfold after_expiry_check. destruct (_ && _); reflexivity. Qed.

Lemma session_id_after_expiry_check cfg o s :
  _session_id (after_expiry_check cfg o s) = _session_id s.
Proof. unfold after_expiry_check. destruct (_ && _); reflexivity. Qed.

Lemma open_door_wrong_pin cfg req o st :
  reaches_authentication cfg req o st = true →
  presents_wrong_pin req o →
  open_door_pin_failure cfg o (remote_addr req)
    (session_id_of (cookie req) o) (identifier_of cfg req)
    (World (screened cfg req o st)
       (after_expiry_check cfg o (with_session_id (cookie req) o)) [])
  = (Return (open_door cfg req o st).1, (open_door cfg req o st).2).
Proof.
  intros Hreach (p & Hpin & Hvalid & Huser).
  rewrite (open_door_past_screen _ _ _ _ Hreach). unfold try_except.
  rewrite (authenticate_pin _ _ _ _ _ _ _ _ _ _ Hpin Hvalid), Huser.
  destruct (open_door_pin_failure_frame cfg o (remote_addr req)
              (session_id_of (cookie req) o) (identifier_of cfg req)
              (screened cfg req o st)
              (after_expiry_check cfg o (with_session_id (cookie req) o)) [])
    as (r & w' & -> & _). reflexivity.
Qed.

(** ** A failed guess *)

Lemma block_set_after_same k u (m0 m1 m2 : gmap string (option Z)) :
  same_blocks m0 m1 → block_set k u m1 m2 → block_set k u m0 m2.
Proof.
  intros Hsame [Hk Hothers]. split; [exact Hk |].
  intros k' Hk'. rewrite Hothers by assumption. apply Hsame.
Qed.

Lemma same_blocks_trans (m0 m1 m2 : gmap string (option Z)) :
  same_blocks m0 m1 → same_blocks m1 m2 → same_blocks m0 m2.
Proof. intros H1 H2 k. rewrite H2. apply H1. Qed.

(** C4. A well-formed PIN that belongs to nobody, once the request is past
    the refusals that come first: the three counters go up by one; then, if
    the session counter has reached [SESSION_MAX_ATTEMPTS], the session is
    blocked until [now + BLOCK_TIME] in memory and the cookie gets its own
    [BLOCK_TIME] block, whether or not the identifier counter has reached
    [MAX_ATTEMPTS] too, and nothing sleeps; else, if the identifier counter
    has reached [MAX_ATTEMPTS], the identifier is blocked until
    [now + BLOCK_TIME]; else the request sleeps [get_delay_seconds] of the
    session counter and the denial reports the smaller of the two remaining
    budgets. The answer is 401 in the three cases. *)
Theorem wrong_pin_policy cfg req o st :
  reaches_authentication cfg req o st = true →
  presents_wrong_pin req o →
  let res := open_door cfg req o st in
  let sid := session_id_of (cookie req) o in
  let ident := identifier_of cfg req in
  let session_failed := counter_of (session_failed_attempts st) sid + 1 in
  let ip_failed := counter_of (ip_failed_attempts st) ident + 1 in
  code res.1 = 401 ∧
  bumped ident (ip_failed_attempts st) (ip_failed_attempts (tables res.2)) ∧
  bumped sid (session_failed_attempts st)
    (session_failed_attempts (tables res.2)) ∧
  global_failed_attempts (tables res.2)
    = global_failed_attempts (roll_global o st) + 1 ∧
  if SESSION_MAX_ATTEMPTS cfg <=? session_failed then
    block_set sid (now o + BLOCK_TIME cfg) (session_blocked_until st)
      (session_blocked_until (tables res.2)) ∧
    blocked_until_ts (sess res.2) = Some (now_persist o + BLOCK_TIME cfg) ∧
    same_blocks (ip_blocked_until st) (ip_blocked_until (tables res.2)) ∧
    sleeps (events res.2) = [] ∧
    msg res.1 = Reason (InvalidPinSessionBlocked (block_minutes cfg))
  else if MAX_ATTEMPTS cfg <=? ip_failed then
    block_set ident (now o + BLOCK_TIME cfg) (ip_blocked_until st)
      (ip_blocked_until (tables res.2)) ∧
    same_blocks (session_blocked_until st)
      (session_blocked_until (tables res.2)) ∧
    blocked_until_ts (sess res.2) = blocked_until_ts (cookie req) ∧
    sleeps (events res.2) = [] ∧
    msg res.1 = Reason (InvalidPinAccessBlocked (block_minutes cfg))
  else
    same_blocks (session_blocked_until st)
      (session_blocked_until (tables res.2)) ∧
    same_blocks (ip_blocked_until st) (ip_blocked_until (tables res.2)) ∧
    blocked_until_ts (sess res.2) = blocked_until_ts (cookie req) ∧
    sleeps (events res.2)
      = (if 0 <? get_delay_seconds session_failed
         then [get_delay_seconds session_failed] else []) ∧
    (0 <= counter_of (session_failed_attempts st) sid →
     1 <= get_delay_seconds session_failed ∧
     sleeps (events res.2) = [get_delay_seconds session_failed]) ∧
    msg res.1
      = Reason (InvalidPinRemaining
                  (Z.min (SESSION_MAX_ATTEMPTS cfg - session_failed)
                         (MAX_ATTEMPTS cfg - ip_failed))).
Proof.
  intros Hreach Hwrong res sid ident sf ipf. subst res sf ipf.
  pose proof (open_door_wrong_pin cfg req o st Hreach Hwrong) as Hrun.
  fold sid ident in Hrun.
  destruct (open_door_pin_failure_spec cfg o (remote_addr req) sid ident
              (screened cfg req o st)
              (after_expiry_check cfg o (with_session_id (cookie req) o)) [])
    as (r & w' & Hspec & Hcode & Hip & Hsf & Hglobal & _ & Hcases).
  rewrite Hrun in Hspec. injection Hspec as <- <-.
  destruct (screened_tables cfg req o st) as (Hif & Hsfa & Hib & Hsb & Hg & _).
  rewrite Hif in Hip, Hcases. rewrite Hsfa in Hsf, Hcases. rewrite Hg in Hglobal.
  split; [exact Hcode |]. split; [exact Hip |]. split; [exact Hsf |].
  split; [exact Hglobal |].
  destruct (SESSION_MAX_ATTEMPTS cfg <=? _);
    [| destruct (MAX_ATTEMPTS cfg <=? _)].
  - destruct Hcases as (Hset & Hsame & Hs & Hev & Hmsg).
    split; [eapply block_set_after_same; eassumption |].
    split; [rewrite Hs; reflexivity |].
    split; [eapply same_blocks_trans; eassumption |].
    split; [rewrite Hev; reflexivity | exact Hmsg].
  - destruct Hcases as (Hsame & Hset & Hs & Hev & Hmsg).
    split; [eapply block_set_after_same; eassumption |].
    split; [eapply same_blocks_trans; eassumption |].
    split; [rewrite Hs, blocked_until_ts_after_expiry_check,
              blocked_until_ts_with_session_id; reflexivity |].
    split; [rewrite Hev; reflexivity | exact Hmsg].
  - destruct Hcases as (Hsame1 & Hsame2 & Hs & Hev & Hmsg).
    split; [eapply same_blocks_trans; eassumption |].
    split; [eapply same_blocks_trans; eassumption |].
    split; [rewrite Hs, blocked_until_ts_after_expiry_check,
              blocked_until_ts_with_session_id; reflexivity |].
    assert (Hsleeps :
      sleeps (events (open_door cfg req o st).2)
      = (if 0 <? get_delay_seconds
                   (counter_of (session_failed_attempts st) sid + 1)
         then [get_delay_seconds
                 (counter_of (session_failed_attempts st) sid + 1)]
         else [])).
    { rewrite Hev. destruct (0 <? _); reflexivity. }
    split; [exact Hsleeps |]. split; [| exact Hmsg].
    intros Hnonneg.
    pose proof (get_delay_seconds_positive
                  (counter_of (session_failed_attempts st) sid + 1)) as Hpos.
    split; [lia |]. rewrite Hsleeps.
    destruct (Z.ltb_spec 0
                (get_delay_seconds
                   (counter_of (session_failed_attempts st) sid + 1)));
      [reflexivity | lia].
Qed.

(** ** A malformed PIN *)

Lemma oidc_may_open_with_session_id cfg o c :
  oidc_may_open cfg o (with_session_id c o) = oidc_may_open cfg o c.
Proof.
  unfold with_session_id.
  destruct (_session_id c) as [sid |]; [destruct (PyStr.truthy sid) |];
    reflexivity.
Qed.

Lemma bumped_count_failure ident sid t :
  bumped ident (ip_failed_attempts t)
    (ip_failed_attempts (count_failure ident sid t)) ∧
  bumped sid (session_failed_attempts t)
    (session_failed_attempts (count_failure ident sid t)) ∧
  global_failed_attempts (count_failure ident sid t)
    = global_failed_attempts t + 1 ∧
  ip_blocked_until (count_failure ident sid t) = ip_blocked_until t ∧
  session_blocked_until (count_failure ident sid t) = session_blocked_until t.
Proof.
  unfold count_failure. cbn. repeat split; try apply bumped_insert.
  all: intros; by apply counter_of_insert_ne.
Qed.

Lemma open_door_malformed_pin cfg req o st v :
  reaches_authentication cfg req o st = true →
  pin_value (body req) = Some v →
  (validate_pin_input v).1 = false →
  json_truthy v = true ∨ oidc_may_open cfg o (cookie req) = false →
  open_door cfg req o st =
  (Response 400 false (Reason InvalidPinFormat) None,
   World (count_failure (identifier_of cfg req) (session_id_of (cookie req) o)
            (screened cfg req o st))
     (after_expiry_check cfg o (with_session_id (cookie req) o))
     [log_event o (remote_addr req) (session_id_of (cookie req) o) "UNKNOWN"
        INVALID_FORMAT InvalidPinFormat]).
Proof.
  intros Hreach Hpin Hvalid Hno.
  rewrite (open_door_past_screen _ _ _ _ Hreach). unfold try_except.
  rewrite (authenticate_malformed _ _ _ _ _ _ _ _ _ v Hpin Hvalid);
    [reflexivity |].
  rewrite oidc_may_open_with_session_id. exact Hno.
Qed.

Lemma admin_auth_frame cfg req o password remember_me st :
  let res := admin_auth cfg req o password remember_me st in
  ip_blocked_until (tables res.2) = ip_blocked_until st ∧
  ip_failed_attempts (tables res.2) = ip_failed_attempts st ∧
  (String.eqb password (admin_password cfg) = true →
   blocks_kept (session_blocked_until st) (session_blocked_until (tables res.2))) ∧
  (∀ k, k ≠ session_id_of (cookie req) o →
     block_of (session_blocked_until (tables res.2)) k
     = block_of (session_blocked_until st) k).
Proof.
  intros res. subst res. unfold admin_auth, try_except, admin_auth_body.
  rewrite bind_run, get_client_identifier_run. cbv beta iota.
  run_handler.
  set (sid := session_id_of (cookie req) o).
  destruct (block_active (block_of (session_blocked_until st) sid) (now o));
    run_handler.
  { repeat split. intros _. apply blocks_kept_refl. }
  destruct (String.eqb password (admin_password cfg)); run_handler.
  { repeat split.
    - intros _ k u. destruct (decide (k = sid)) as [-> |].
      + rewrite block_of_delete_eq. discriminate.
      + rewrite block_of_delete_ne by assumption. tauto.
    - intros k Hk. by apply block_of_delete_ne. }
  rewrite !read_counter, !insert_dd_getitem, !dd_getitem_insert. cbn [fst snd].
  rewrite ?counter_of_insert_eq.
  destruct (0 <? _); run_handler;
    destruct (SESSION_MAX_ATTEMPTS cfg <=? _); run_handler;
    repeat split; try discriminate;
    intros k Hk; by apply block_of_insert_ne.
Qed.

(** C10. A PIN that is put through [validate_pin_input] and fails it (the
    request is past the refusals that come first, and no federated session
    opens the door for an empty PIN) makes the three counters go up by one
    and is answered 400: no block is set in either table or in the cookie
    and nothing sleeps, however large the counters are. A request to
    [open_door] after which a block table holds a block it did not hold
    before is a 401 for a well-formed PIN that belongs to nobody; the only
    other writer, [admin_auth], never writes the identifier table and sets
    a session block only on a wrong password. *)
Theorem malformed_pin_never_blocks cfg req o st :
  let res := open_door cfg req o st in
  let sid := session_id_of (cookie req) o in
  let ident := identifier_of cfg req in
  (∀ v,
     reaches_authentication cfg req o st = true →
     pin_value (body req) = Some v →
     (validate_pin_input v).1 = false →
     json_truthy v = true ∨ oidc_may_open cfg o (cookie req) = false →
     res.1 = Response 400 false (Reason InvalidPinFormat) None ∧
     bumped ident (ip_failed_attempts st) (ip_failed_attempts (tables res.2)) ∧
     bumped sid (session_failed_attempts st)
       (session_failed_attempts (tables res.2)) ∧
     global_failed_attempts (tables res.2)
       = global_failed_attempts (roll_global o st) + 1 ∧
     same_blocks (ip_blocked_until st) (ip_blocked_until (tables res.2)) ∧
     same_blocks (session_blocked_until st)
       (session_blocked_until (tables res.2)) ∧
     blocked_until_ts (sess res.2) = blocked_until_ts (cookie req) ∧
     sleeps (events res.2) = []) ∧
  (¬ (blocks_kept (ip_blocked_until st) (ip_blocked_until (tables res.2)) ∧
      blocks_kept (session_blocked_until st)
        (session_blocked_until (tables res.2))) →
   code res.1 = 401 ∧ presents_wrong_pin req o) ∧
  (∀ password remember_me,
     let adm := admin_auth cfg req o password remember_me st in
     blocks_kept (ip_blocked_until st) (ip_blocked_until (tables adm.2)) ∧
     (¬ blocks_kept (session_blocked_until st)
          (session_blocked_until (tables adm.2)) →
      String.eqb password (admin_password cfg) = false)).
Proof.
  intros res sid ident. subst res sid ident. split; [| split].
  - intros v Hreach Hpin Hvalid Hno.
    rewrite (open_door_malformed_pin _ _ _ _ _ Hreach Hpin Hvalid Hno).
    cbn [fst snd tables sess events].
    destruct (bumped_count_failure (identifier_of cfg req)
                (session_id_of (cookie req) o) (screened cfg req o st))
      as (Hip & Hsf & Hg & -> & ->).
    destruct (screened_tables cfg req o st) as (Hif & Hsfa & Hib & Hsb & Hgl & _).
    rewrite Hif in Hip. rewrite Hsfa in Hsf. rewrite Hgl in Hg.
    repeat split; try assumption; try apply Hip; try apply Hsf.
    rewrite blocked_until_ts_after_expiry_check.
    apply blocked_until_ts_with_session_id.
  - intros Hnot.
    destruct (open_door_frame cfg req o st) as (_ & H401 & Hkept).
    destruct (decide (code (open_door cfg req o st).1 = 401)) as [Hc | Hc].
    + split; [exact Hc |]. apply (H401 Hc).
    + exfalso. apply Hnot, Hkept, Hc.
  - intros password remember_me adm. subst adm.
    destruct (admin_auth_frame cfg req o password remember_me st)
      as (Hib & _ & Hok & _).
    split; [rewrite Hib; apply blocks_kept_refl |].
    intros Hnot. destruct (String.eqb password (admin_password cfg));
      [exfalso; apply Hnot, Hok; reflexivity | reflexivity].
Qed.

(** ** A successful authorization *)

Lemma reaches_no_memory_block cfg req o st :
  reaches_authentication cfg req o st = true →
  block_active
    (block_of (session_blocked_until (screened cfg req o st))
       (session_id_of (cookie req) o)) (now o) = false ∧
  block_active
    (block_of (ip_blocked_until (screened cfg req o st))
       (identifier_of cfg req)) (now o) = false.
Proof.
  unfold reaches_authentication, block_in_effect, session_block_in_effect,
    ip_block_in_effect.
  rewrite !andb_true_iff, !negb_true_iff, !orb_false_iff.
  intros [_ [[_ Hs] Hi]].
  destruct (screened_tables cfg req o st) as (_ & _ & Hib & Hsb & _).
  rewrite Hib, Hsb. split; assumption.
Qed.

(** In a run of one request at a time the second look at the blocks never
    refuses: what it would refuse has been refused by the first. *)
Lemma second_look_passes cfg req o st user s es :
  reaches_authentication cfg req o st = true →
  ∃ w',
    enforce_active_block o (remote_addr req) (session_id_of (cookie req) o)
      (identifier_of cfg req) user (World (screened cfg req o st) s es)
    = (Next tt, w').
Proof.
  intros Hreach. rewrite enforce_active_block_run. cbv zeta.
  destruct (reaches_no_memory_block _ _ _ _ Hreach) as [-> ->].
  eexists. reflexivity.
Qed.

Lemma block_removed_after_same k (m0 m1 m2 : gmap string (option Z)) :
  same_blocks m0 m1 → block_removed k m1 m2 → block_removed k m0 m2.
Proof.
  intros Hsame [Hk Hothers]. split; [exact Hk |].
  intros k' Hk'. rewrite Hothers by assumption. apply Hsame.
Qed.

(** C3, as the code has it. An authorization that succeeds while no block
    is in effect, by PIN or by federated session, stores zero for the
    caller's identifier counter and session counter and removes the
    caller's entries from both block tables; the global counter is left as
    the hourly window made it. On the PIN path the block kept in the cookie
    is removed as well. *)
Theorem success_resets_caller cfg req o st :
  reaches_authentication cfg req o st = true →
  (∃ user, presents_correct_pin req o user)
  ∨ presents_federated_session cfg req o →
  let res := open_door cfg req o st in
  let sid := session_id_of (cookie req) o in
  let ident := identifier_of cfg req in
  zeroed ident (ip_failed_attempts st) (ip_failed_attempts (tables res.2)) ∧
  zeroed sid (session_failed_attempts st)
    (session_failed_attempts (tables res.2)) ∧
  block_removed ident (ip_blocked_until st) (ip_blocked_until (tables res.2)) ∧
  block_removed sid (session_blocked_until st)
    (session_blocked_until (tables res.2)) ∧
  global_failed_attempts (tables res.2)
    = global_failed_attempts (roll_global o st) ∧
  ((∃ user, presents_correct_pin req o user) →
   blocked_until_ts (sess res.2) = None).
Proof.
  intros Hreach Hcred res sid ident. subst res sid ident.
  rewrite (open_door_past_screen _ _ _ _ Hreach). unfold try_except.
  destruct (reaches_no_memory_block _ _ _ _ Hreach) as [Hs Hi].
  destruct (screened_tables cfg req o st) as (Hif & Hsfa & Hib & Hsb & Hg & _).
  destruct Hcred as [(user & p & Hpin & Hvalid & Huser) | (Hdict & Hnopin & Hmay)].
  - rewrite (authenticate_pin _ _ _ _ _ _ _ _ _ _ Hpin Hvalid), Huser.
    destruct (open_door_pin_success_spec cfg o (remote_addr req)
                (session_id_of (cookie req) o) (identifier_of cfg req) user
                (screened cfg req o st)
                (after_expiry_check cfg o (with_session_id (cookie req) o)) [])
      as (r & w' & -> & _ & _ & _ & _ & _ & Hfull).
    destruct (Hfull Hs Hi) as (_ & Hz1 & Hz2 & Hr1 & Hr2 & Hgl & _ & Hsess & _).
    cbn [fst snd]. rewrite Hif in Hz1. rewrite Hsfa in Hz2.
    split; [exact Hz1 |]. split; [exact Hz2 |].
    split; [eapply block_removed_after_same; eassumption |].
    split; [eapply block_removed_after_same; eassumption |].
    split; [congruence |]. intros _. rewrite Hsess. reflexivity.
  - rewrite authenticate_federated;
      [| assumption | assumption
       | rewrite oidc_may_open_with_session_id; assumption].
    destruct (open_door_oidc_spec cfg o (remote_addr req)
                (session_id_of (cookie req) o) (identifier_of cfg req)
                (oidc_user (with_session_id (cookie req) o))
                (screened cfg req o st) (with_session_id (cookie req) o) [])
      as (r & w' & -> & _ & _ & _ & _ & _ & Hfull).
    destruct (Hfull Hs Hi) as (_ & Hz1 & Hz2 & Hr1 & Hr2 & Hgl & _).
    cbn [fst snd]. rewrite Hif in Hz1. rewrite Hsfa in Hz2.
    split; [exact Hz1 |]. split; [exact Hz2 |].
    split; [eapply block_removed_after_same; eassumption |].
    split; [eapply block_removed_after_same; eassumption |].
    split; [congruence |].
    intros (user & p & Hpin & Hvalid & _). exfalso.
    rewrite Hpin in Hnopin. cbn in Hnopin.
    pose proof (validated_pin_truthy _ _ Hvalid) as Ht. cbn in Ht. congruence.
Qed.

(** ** An expired federated session *)

Lemma with_session_id_pop_oidc c o :
  with_session_id (pop_oidc c) o = pop_oidc (with_session_id c o).
Proof.
  unfold with_session_id. cbn [_session_id pop_oidc].
  destruct (_session_id c) as [sid |]; [destruct (PyStr.truthy sid) |];
    reflexivity.
Qed.

Lemma oidc_session_with_session_id cfg c o :
  oidc_session cfg (with_session_id c o) = oidc_session cfg c.
Proof.
  unfold with_session_id.
  destruct (_session_id c) as [sid |]; [destruct (PyStr.truthy sid) |];
    reflexivity.
Qed.

Lemma oidc_exp_passed_with_session_id c o :
  oidc_exp_passed o (with_session_id c o) = oidc_exp_passed o c.
Proof.
  unfold with_session_id.
  destruct (_session_id c) as [sid |]; [destruct (PyStr.truthy sid) |];
    reflexivity.
Qed.

Lemma oidc_keys_with_session_id c o :
  oidc_keys (with_session_id c o) = oidc_keys c.
Proof.
  unfold with_session_id.
  destruct (_session_id c) as [sid |]; [destruct (PyStr.truthy sid) |];
    reflexivity.
Qed.

Lemma after_expiry_check_expired cfg o s :
  oidc_session cfg s = true → oidc_exp_passed o s = true →
  after_expiry_check cfg o s = pop_oidc s.
Proof. unfold after_expiry_check. intros -> ->. reflexivity. Qed.

Lemma oidc_session_pop_oidc cfg s : oidc_session cfg (pop_oidc s) = false.
Proof. unfold oidc_session. cbn. apply andb_false_r. Qed.

Lemma after_expiry_check_popped cfg o s :
  after_expiry_check cfg o (pop_oidc s) = pop_oidc s.
Proof.
  unfold after_expiry_check. rewrite oidc_session_pop_oidc. reflexivity.
Qed.

Lemma oidc_may_open_expired cfg o s :
  oidc_exp_passed o s = true → oidc_may_open cfg o s = false.
Proof.
  unfold oidc_may_open. intros ->. cbn [negb]. rewrite andb_false_r.
  reflexivity.
Qed.

Lemma oidc_may_open_popped cfg o s : oidc_may_open cfg o (pop_oidc s) = false.
Proof. unfold oidc_may_open. rewrite oidc_session_pop_oidc. reflexivity. Qed.

Lemma reaches_authentication_with_cookie cfg req o st c :
  _session_id c = _session_id (cookie req) →
  blocked_until_ts c = blocked_until_ts (cookie req) →
  reaches_authentication cfg (with_cookie req c) o st
  = reaches_authentication cfg req o st.
Proof.
  intros Hsid Hts.
  unfold reaches_authentication, block_in_effect, cookie_block_in_effect,
    session_block_in_effect, ip_block_in_effect, session_id_of,
    is_request_suspicious, identifier_of, with_cookie.
  cbn [cookie user_agent accept_language remote_addr]. rewrite Hsid, Hts.
  reflexivity.
Qed.

Lemma open_door_unauthenticated cfg req o st :
  reaches_authentication cfg req o st = true →
  oidc_session cfg (cookie req) = true →
  oidc_exp_passed o (cookie req) = true →
  open_door cfg req o st
  = open_door cfg (with_cookie req (pop_oidc (cookie req))) o st.
Proof.
  intros Hreach Hsession Hpassed.
  assert (Hreach' :
    reaches_authentication cfg (with_cookie req (pop_oidc (cookie req))) o st
    = true).
  { rewrite reaches_authentication_with_cookie; [exact Hreach | |];
      reflexivity. }
  rewrite (open_door_past_screen _ _ _ _ Hreach),
    (open_door_past_screen _ _ _ _ Hreach').
  unfold try_except.
  rewrite !open_door_authenticate_run. cbv zeta.
  change (cookie (with_cookie req (pop_oidc (cookie req))))
    with (pop_oidc (cookie req)).
  change (body (with_cookie req (pop_oidc (cookie req)))) with (body req).
  change (remote_addr (with_cookie req (pop_oidc (cookie req))))
    with (remote_addr req).
  change (identifier_of cfg (with_cookie req (pop_oidc (cookie req))))
    with (identifier_of cfg req).
  change (session_id_of (pop_oidc (cookie req)) o)
    with (session_id_of (cookie req) o).
  change (screened cfg (with_cookie req (pop_oidc (cookie req))) o st)
    with (screened cfg req o st).
  rewrite with_session_id_pop_oidc, after_expiry_check_popped.
  rewrite after_expiry_check_expired
    by (rewrite ?oidc_session_with_session_id,
          ?oidc_exp_passed_with_session_id; assumption).
  rewrite oidc_may_open_popped.
  rewrite oidc_may_open_expired
    by (rewrite oidc_exp_passed_with_session_id; assumption).
  rewrite !andb_false_r. reflexivity.
Qed.

Lemma oidc_keys_after_expiry_check cfg o c :
  oidc_keys (after_expiry_check cfg o (with_session_id c o))
  = oidc_keys (after_expiry_check cfg o c).
Proof.
  unfold after_expiry_check.
  rewrite oidc_session_with_session_id, oidc_exp_passed_with_session_id.
  destruct (_ && _); [reflexivity | apply oidc_keys_with_session_id].
Qed.

Lemma open_door_oidc_keys cfg req o st :
  reaches_authentication cfg req o st = true →
  oidc_keys (sess (open_door cfg req o st).2)
  = oidc_keys (after_expiry_check cfg o (cookie req)).
Proof.
  intros Hreach. rewrite (open_door_past_screen _ _ _ _ Hreach).
  unfold try_except.
  destruct (open_door_authenticate_frame cfg req o (remote_addr req)
              (session_id_of (cookie req) o) (identifier_of cfg req)
              (screened cfg req o st) (with_session_id (cookie req) o) [])
    as (out & w' & -> & _ & Hs & Hout).
  rewrite <- oidc_keys_after_expiry_check.
  destruct out as [r | r |]; [contradiction | |].
  - cbn [snd]. destruct Hs as [-> | [v ->]]; reflexivity.
  - rewrite open_door_except_run. cbn [snd sess].
    rewrite oidc_keys_with_session_id.
    destruct Hs as [-> | [v ->]]; reflexivity.
Qed.

Lemma open_door_pin_required cfg req o st :
  reaches_authentication cfg req o st = true →
  oidc_may_open cfg o (cookie req) = false →
  json_truthy (body req) && negb (is_dict (body req)) = false →
  negb (json_truthy (body req)) || negb (pin_in_data (body req)) = true →
  let res := open_door cfg req o st in
  res.1 = Response 400 false PinRequired None ∧ events res.2 = [].
Proof.
  intros Hreach Hmay Hdict Hnopin res. subst res.
  rewrite (open_door_past_screen _ _ _ _ Hreach). unfold try_except.
  rewrite open_door_authenticate_run. cbv zeta.
  rewrite Hdict, oidc_may_open_with_session_id, Hmay, andb_false_r, Hnopin.
  split; reflexivity.
Qed.

(** C8, as the code has it. When a request gets past the refusals that come
    first (suspicious, global budget, blocks) with a federated session whose
    [oidc_exp] has passed, is zero or is missing, the four [oidc_] keys are
    gone from the session afterwards, and the request is handled in every
    respect as the same request sent without them: with no PIN in the body
    the answer is 400 "PIN required" and nothing else happens. *)
Theorem expired_federated_session_dropped cfg req o st :
  reaches_authentication cfg req o st = true →
  oidc_session cfg (cookie req) = true →
  oidc_exp_passed o (cookie req) = true →
  let res := open_door cfg req o st in
  oidc_keys (sess res.2) = (None, None, None, None) ∧
  res = open_door cfg (with_cookie req (pop_oidc (cookie req))) o st ∧
  (json_truthy (body req) && negb (is_dict (body req)) = false →
   negb (json_truthy (body req)) || negb (pin_in_data (body req)) = true →
   res.1 = Response 400 false PinRequired None ∧ events res.2 = []).
Proof.
  intros Hreach Hsession Hpassed res. subst res.
  split; [| split].
  - rewrite (open_door_oidc_keys _ _ _ _ Hreach),
      (after_expiry_check_expired _ _ _ Hsession Hpassed).
    reflexivity.
  - apply open_door_unauthenticated; assumption.
  - intros Hdict Hnopin.
    apply open_door_pin_required; try assumption.
    apply oidc_may_open_expired, Hpassed.
Qed.

(** ** The key of the per-IP state *)

(** C9, as the code has it. The identifier counter and the identifier block
    are kept under the composite identifier, the address followed by the
    hash of the two (truncated, concatenated) headers modulo 10000. A failed
    guess counts under the identifier of its request; a request changes no
    counter and no block of another identifier, so two requests whose
    identifiers differ never share them. Different headers alone do not
    make the identifiers differ. *)
Theorem per_ip_state_keyed_by_identifier cfg req o st :
  let res := open_door cfg req o st in
  let ident := identifier_of cfg req in
  ident = remote_addr req ++ ":"
          ++ pretty (hash cfg (PyStr.take 100 (user_agent req)
                               ++ PyStr.take 50 (accept_language req))
                     `mod` 10000) ∧
  (code res.1 = 401 →
   bumped ident (ip_failed_attempts st) (ip_failed_attempts (tables res.2))) ∧
  (∀ req', identifier_of cfg req' ≠ ident →
     counter_of (ip_failed_attempts (tables res.2)) (identifier_of cfg req')
     = counter_of (ip_failed_attempts st) (identifier_of cfg req') ∧
     block_of (ip_blocked_until (tables res.2)) (identifier_of cfg req')
     = block_of (ip_blocked_until st) (identifier_of cfg req')) ∧
  (∀ k, block_of (ip_blocked_until (tables res.2)) k
        ≠ block_of (ip_blocked_until st) k → k = ident).
Proof.
  intros res ident. subst res.
  destruct (open_door_frame cfg req o st) as ([Hothers _] & H401 & _).
  fold ident in Hothers, H401.
  split; [reflexivity |]. split; [| split].
  - intros Hc. destruct (H401 Hc) as (_ & _ & Hrun).
    destruct (open_door_pin_failure_spec cfg o (remote_addr req)
                (session_id_of (cookie req) o) ident (screened cfg req o st)
                (after_expiry_check cfg o (with_session_id (cookie req) o)) [])
      as (r & w' & Hspec & _ & Hip & _).
    rewrite Hrun in Hspec. injection Hspec as <- <-.
    destruct (screened_tables cfg req o st) as (Hif & _).
    rewrite Hif in Hip. exact Hip.
  - intros req' Hne. apply Hothers, Hne.
  - intros k Hk. destruct (decide (k = ident)) as [-> | Hne]; [reflexivity |].
    exfalso. apply Hk. apply Hothers, Hne.
Qed.

(** Same address, both headers different, one identifier whatever the hash:
    the failed guess of the first caller is counted against the second. *)
Lemma distinct_headers_share_key :
  remote_addr first_caller = remote_addr second_caller ∧
  user_agent first_caller ≠ user_agent second_caller ∧
  accept_language first_caller ≠ accept_language second_caller ∧
  (∀ cfg, identifier_of cfg first_caller = identifier_of cfg second_caller) ∧
  counter_of
    (ip_failed_attempts
       (tables (open_door default_config first_caller (at_second 10)
                  fresh_tables).2))
    (identifier_of default_config second_caller) = 1.
Proof.
  split; [reflexivity |]. split; [discriminate |]. split; [discriminate |].
  split; [intros cfg; reflexivity |]. vm_compute. reflexivity.
Qed.

(** ** Wrong PINs in a row *)

Lemma session_id_with_session_id c o :
  _session_id (with_session_id c o) = Some (session_id_of c o).
Proof.
  unfold with_session_id, session_id_of.
  destruct (_session_id c) as [sid |] eqn:Hc;
    [destruct (PyStr.truthy sid) |]; cbn; congruence.
Qed.

Lemma session_id_of_established c o sid :
  _session_id c = Some sid → PyStr.truthy sid = true → session_id_of c o = sid.
Proof. unfold session_id_of. intros -> ->. reflexivity. Qed.

Lemma wrong_pin_step cfg req o st :
  let res := open_door cfg req o st in
  let sid := session_id_of (cookie req) o in
  code res.1 = 401 →
  counter_of (session_failed_attempts (tables res.2)) sid
  = counter_of (session_failed_attempts st) sid + 1 ∧
  _session_id (sess res.2) = Some sid ∧
  (SESSION_MAX_ATTEMPTS cfg <= counter_of (session_failed_attempts st) sid + 1 →
   block_of (session_blocked_until (tables res.2)) sid
   = Some (now o + BLOCK_TIME cfg) ∧
   blocked_until_ts (sess res.2) = Some (now_persist o + BLOCK_TIME cfg)).
Proof.
  intros res sid Hc. subst res.
  destruct (open_door_frame cfg req o st) as (_ & H401 & _).
  destruct (H401 Hc) as (_ & _ & Hrun). fold sid in Hrun.
  destruct (open_door_pin_failure_spec cfg o (remote_addr req) sid
              (identifier_of cfg req) (screened cfg req o st)
              (after_expiry_check cfg o (with_session_id (cookie req) o)) [])
    as (r & w' & Hspec & _ & _ & [Hsf _] & _ & _ & Hcases).
  rewrite Hrun in Hspec. injection Hspec as <- <-.
  destruct (screened_tables cfg req o st) as (_ & Hsfa & _).
  rewrite Hsfa in Hsf, Hcases.
  split; [exact Hsf |]. revert Hcases.
  destruct (Z.leb_spec (SESSION_MAX_ATTEMPTS cfg)
              (counter_of (session_failed_attempts st) sid + 1)) as [Hge | Hlt];
    intros Hcases.
  - destruct Hcases as ([Hblock _] & _ & Hs & _).
    rewrite Hs. cbn [_session_id blocked_until_ts set_blocked_until_ts].
    rewrite session_id_after_expiry_check, session_id_with_session_id.
    auto.
  - assert (Hs : sess (open_door cfg req o st).2
                 = after_expiry_check cfg o (with_session_id (cookie req) o)).
    { revert Hcases. destruct (MAX_ATTEMPTS cfg <=? _); cbv zeta; tauto. }
    rewrite Hs, session_id_after_expiry_check, session_id_with_session_id.
    split; [reflexivity | lia].
Qed.

Lemma browse_wrong_pins cfg calls :
  ∀ c st sid final,
    (∀ first, head calls = Some first → session_id_of c first.2 = sid) →
    PyStr.truthy sid = true →
    last calls = Some final →
    SESSION_MAX_ATTEMPTS cfg - Z.of_nat (List.length calls)
      <= counter_of (session_failed_attempts st) sid →
    Forall (λ r, code r = 401) (browse cfg calls c st).1.1 →
    block_of (session_blocked_until (browse cfg calls c st).2) sid
    = Some (now final.2 + BLOCK_TIME cfg) ∧
    blocked_until_ts (browse cfg calls c st).1.2
    = Some (now_persist final.2 + BLOCK_TIME cfg).
Proof.
  induction calls as [| [req o] rest IH]; intros c st sid final Hsid Htruthy Hlast Hcount Hall.
  - discriminate Hlast.
  - cbn [browse] in *.
    set (res := open_door cfg (with_cookie req c) o st) in *.
    destruct (browse cfg rest (sess res.2) (tables res.2))
      as [[answers c'] st'] eqn:Hrest.
    cbn [fst snd] in *.
    apply Forall_cons in Hall as [Hc Hall].
    pose proof (wrong_pin_step cfg (with_cookie req c) o st Hc) as Hstep.
    cbn [cookie with_cookie] in Hstep. fold res in Hstep.
    pose proof (Hsid (req, o) eq_refl) as Hsid0. cbn [snd] in Hsid0.
    rewrite Hsid0 in Hstep.
    destruct Hstep as (Hcnt & Hsess & Hblock).
    destruct rest as [| call rest'].
    + cbn in Hlast. injection Hlast as <-. cbn [browse] in Hrest.
      injection Hrest as <- <- <-. cbn [snd]. apply Hblock.
      cbn [List.length] in Hcount. lia.
    + specialize (IH (sess res.2) (tables res.2) sid final).
      rewrite Hrest in IH. cbn [fst snd] in IH. apply IH; try assumption.
      * intros first _. apply session_id_of_established; assumption.
      * cbn [List.length] in *. lia.
Qed.

(** C5, as the code has it. A caller sends [SESSION_MAX_ATTEMPTS] (at least
    one) requests in a row under one session and each is answered 401, a
    wrong PIN. Then the session is blocked in memory until exactly
    [BLOCK_TIME] after the [now] of the last request, and the cookie holds a
    block of [BLOCK_TIME] counted from the clock reading taken when it is
    written. The two expiries are the same exactly when the two readings
    are; with a clock that does not run backwards the cookie's is never the
    earlier one. *)
Theorem wrong_pins_block_session cfg calls c st first final :
  head calls = Some first →
  last calls = Some final →
  let sid := session_id_of c first.2 in
  PyStr.truthy sid = true →
  0 <= counter_of (session_failed_attempts st) sid →
  Z.of_nat (List.length calls) = SESSION_MAX_ATTEMPTS cfg →
  let run := browse cfg calls c st in
  Forall (λ r, code r = 401) run.1.1 →
  let in_memory := block_of (session_blocked_until run.2) sid in
  let persisted := blocked_until_ts run.1.2 in
  in_memory = Some (now final.2 + BLOCK_TIME cfg) ∧
  persisted = Some (now_persist final.2 + BLOCK_TIME cfg) ∧
  (∀ t, block_active in_memory t = (t <? now final.2 + BLOCK_TIME cfg)) ∧
  (in_memory = persisted ↔ now final.2 = now_persist final.2) ∧
  (clock_monotone final.2 →
   ∀ m p, in_memory = Some m → persisted = Some p → m <= p).
Proof.
  intros Hfirst Hlast sid Htruthy Hcount Hlen run Hall in_memory persisted.
  destruct (browse_wrong_pins cfg calls c st sid final) as [Hmem Hper];
    try assumption.
  { intros first' Hfirst'. rewrite Hfirst in Hfirst'.
    injection Hfirst' as <-. reflexivity. }
  { lia. }
  subst in_memory persisted run. rewrite Hmem, Hper.
  split; [reflexivity |]. split; [reflexivity |].
  split; [reflexivity |]. split.
  - split; [intros [= H]; lia | intros ->; reflexivity].
  - intros (H1 & H2 & H3 & H4 & H5) m p [= <-] [= <-]. lia.
Qed.

(** Three wrong PINs under the defaults, the clock ticking between the
    readings: the cookie block ends five microseconds after the block in
    memory. *)
Lemma cookie_block_later_than_memory_block :
  let run := browse default_config three_wrong_pins session_s1 fresh_tables in
  map code run.1.1 = [401; 401; 401] ∧
  block_of (session_blocked_until run.2) "s1" = Some 330000000 ∧
  blocked_until_ts run.1.2 = Some 330000005 ∧
  block_of (session_blocked_until run.2) "s1" ≠ blocked_until_ts run.1.2.
Proof. vm_compute. repeat split; discriminate. Qed.

(** ** Worked cases *)

Lemma blocks_win_over_credentials_witness :
  let req := post_pin (JStr "4821") session_s1 in
  presents_correct_pin req (at_second 100) "alice" ∧
  code (open_door default_config req (at_second 100) s1_blocked).1 = 429 ∧
  block_of
    (session_blocked_until
       (tables (open_door default_config req (at_second 100) s1_blocked).2))
    "s1" = Some (400 * one_second).
Proof.
  intros req.
  split; [exists "4821"; repeat split |].
  destruct (blocks_win_over_credentials default_config req (at_second 100)
              s1_blocked) as (Hcode & (_ & _ & _ & Hsb) & _);
    [reflexivity | reflexivity |].
  split; [exact Hcode |]. rewrite Hsb. reflexivity.
Defined.

Lemma first_block_reported_not_latest :
  let req := post_pin (JStr "4821") session_s1_blocked in
  let o := at_second 10 in
  let res := open_door default_config req o identifier_blocked in
  code res.1 = 429 ∧
  blocked_until res.1 = Some (100 * one_second) ∧
  latest_active_block
    (block_sources o (cookie req) identifier_blocked
       (session_id_of (cookie req) o) (identifier_of default_config req))
  = Some (200 * one_second) ∧
  blocked_until res.1
  ≠ latest_active_block
      (block_sources o (cookie req) identifier_blocked
         (session_id_of (cookie req) o) (identifier_of default_config req)).
Proof. vm_compute. repeat split; discriminate. Qed.

Lemma blocked_check_verdict_witness :
  let o := at_second 10 in
  first_active_block
    (block_sources o session_s1 identifier_blocked "s1" "192.0.2.7:36")
  = latest_active_block
      (block_sources o session_s1 identifier_blocked "s1" "192.0.2.7:36").
Proof.
  intros o.
  destruct (blocked_check_verdict o "192.0.2.7" "s1" "192.0.2.7:36"
              identifier_blocked session_s1 []) as (_ & _ & Hone & _).
  apply Hone. reflexivity.
Defined.

Lemma global_counter_survives_success :
  let req := post_pin (JStr "4821") session_s1 in
  let res := open_door default_config req (at_second 10) seven_failures in
  block_in_effect default_config req (at_second 10) seven_failures = false ∧
  code res.1 = 200 ∧
  global_failed_attempts (tables res.2) = 7.
Proof. vm_compute. repeat split. Qed.

Lemma federated_success_keeps_cookie_block :
  let res :=
    open_door oidc_config (post_nothing session_s1_federated) (at_second 10)
      fresh_tables in
  code res.1 = 200 ∧ blocked_until_ts (sess res.2) = Some (5 * one_second).
Proof. vm_compute. repeat split. Qed.

Lemma success_resets_caller_witness :
  let req := post_pin (JStr "4821") session_s1 in
  let res := open_door default_config req (at_second 10) seven_failures in
  session_failed_attempts (tables res.2) !! "s1" = Some 0 ∧
  session_blocked_until (tables res.2) !! "s1" = None ∧
  blocked_until_ts (sess res.2) = None.
Proof.
  intros req res.
  assert (Hpin : ∃ user, presents_correct_pin req (at_second 10) user).
  { exists "alice", "4821". repeat split. }
  destruct (success_resets_caller default_config req (at_second 10)
              seven_failures) as (_ & [Hz _] & _ & [Hr _] & _ & Hcookie);
    [reflexivity | left; exact Hpin |].
  split; [exact Hz |]. split; [exact Hr | exact (Hcookie Hpin)].
Defined.

Lemma wrong_pin_policy_witness :
  let req := post_pin (JStr "0000") session_s1 in
  let res := open_door default_config req (at_second 10) fresh_tables in
  code res.1 = 401 ∧
  global_failed_attempts (tables res.2) = 1.
Proof.
  intros req res.
  destruct (wrong_pin_policy default_config req (at_second 10) fresh_tables)
    as (Hcode & _ & _ & Hg & _).
  - reflexivity.
  - exists "0000". repeat split.
  - split; [exact Hcode | exact Hg].
Defined.

Lemma wrong_pins_block_session_witness :
  let run := browse default_config three_wrong_pins session_s1 fresh_tables in
  block_of (session_blocked_until run.2) "s1"
  = Some (30 * one_second + 300 * one_second).
Proof.
  intros run.
  destruct (wrong_pins_block_session default_config three_wrong_pins
              session_s1 fresh_tables
              (post_pin (JStr "0000") empty_session, ticking 10)
              (post_pin (JStr "2222") empty_session, ticking 30))
    as (Hmem & _);
    [ reflexivity | reflexivity | reflexivity
    | vm_compute; intros H; discriminate H | reflexivity
    | vm_compute; repeat constructor | exact Hmem ].
Defined.

Lemma validate_pin_input_spec_witness :
  validate_pin_input (JStr "4821") = (true, Some "4821").
Proof.
  destruct validate_pin_input_spec as (Hok & _).
  destruct (proj1 (Hok (JStr "4821"))) as (s & Hs & Hv).
  - exists "4821". split; [reflexivity |].
    split; [repeat constructor | cbn; lia].
  - injection Hs as <-. exact Hv.
Defined.

Lemma blocked_caller_keeps_expired_federated_session :
  let req := post_nothing session_s1_expired_blocked in
  let o := at_second 10 in
  let res := open_door oidc_config req o fresh_tables in
  oidc_session oidc_config (cookie req) = true ∧
  oidc_exp_passed o (cookie req) = true ∧
  code res.1 = 429 ∧
  oidc_keys (sess res.2)
  = (Some true, Some "carol", Some ["door"], Some 5) ∧
  oidc_keys (sess res.2) ≠ (None, None, None, None).
Proof. vm_compute. repeat split; discriminate. Qed.

Lemma expired_federated_session_dropped_witness :
  let req := post_nothing session_s1_expired in
  let res := open_door oidc_config req (at_second 10) fresh_tables in
  oidc_keys (sess res.2) = (None, None, None, None) ∧
  res.1 = Response 400 false PinRequired None.
Proof.
  intros req res.
  destruct (expired_federated_session_dropped oidc_config req (at_second 10)
              fresh_tables) as (Hkeys & _ & Hpin);
    [reflexivity | reflexivity | reflexivity |].
  split; [exact Hkeys |]. apply Hpin; reflexivity.
Defined.

Lemma per_ip_state_keyed_by_identifier_witness :
  let res := open_door default_config first_caller (at_second 10) fresh_tables in
  counter_of (ip_failed_attempts (tables res.2)) "192.0.2.7:36" = 1 ∧
  counter_of (ip_failed_attempts (tables res.2)) "192.0.2.7:37" = 0.
Proof.
  intros res.
  destruct (per_ip_state_keyed_by_identifier default_config first_caller
              (at_second 10) fresh_tables) as (_ & Hbump & Hother & _).
  split.
  - destruct (Hbump eq_refl) as [H _]. exact H.
  - destruct (Hother (Request "192.0.2.7" "Mozilla/5.0 (X11; Linux x86_64)"
                        "en-USA" JNull empty_session)) as [H _].
    + vm_compute. discriminate.
    + exact H.
Defined.

Lemma malformed_pin_never_blocks_witness :
  let req := post_pin (JStr "12a4") session_s1 in
  let res := open_door default_config req (at_second 10) seven_failures in
  res.1 = Response 400 false (Reason InvalidPinFormat) None ∧
  global_failed_attempts (tables res.2) = 8 ∧
  sleeps (events res.2) = [].
Proof.
  intros req res.
  destruct (malformed_pin_never_blocks default_config req (at_second 10)
              seven_failures) as (Hbad & _).
  destruct (Hbad (JStr "12a4")) as (Hresp & _ & _ & Hg & _ & _ & _ & Hsleep);
    [reflexivity | reflexivity | reflexivity | left; reflexivity |].
  split; [exact Hresp |]. split; [exact Hg | exact Hsleep].
Defined.

(** * Further properties of the routes

    ** Equations of the stages and helper lemmas *)


Lemma call_home_assistant_run cfg o ip sid user via t s es :
  call_home_assistant cfg o ip sid user via (World t s es) =
  (Return (ha_outcome o ip sid user via).1,
   World t s
     (es ++ HaPost (ha_service_for (entity_id cfg)) (entity_id cfg)
         :: (ha_outcome o ip sid user via).2)).
Proof.
  unfold call_home_assistant, ha_outcome. run_handler.
  destruct (ha_post o) as [sc | |]; run_handler;
    [destruct ((400 <=? sc) && (sc <? 600)); run_handler;
     [| destruct (sc =? 200); run_handler] | |];
    cbn [fst snd]; rewrite <- ?List.app_assoc; reflexivity.
Qed.

Lemma open_door_pin_success_run cfg o ip sid ident user t s es :
  block_active (block_of (session_blocked_until t) sid) (now o) = false →
  block_active (block_of (ip_blocked_until t) ident) (now o) = false →
  open_door_pin_success cfg o ip sid ident user (World t s es) =
  if test_mode cfg then
    (Return (Response 200 true (WelcomeHomeTest user) None),
     World (grant_tables ident sid t) (set_blocked_until_ts None s)
       (es ++ [log_event o ip sid user SUCCESS DoorOpenedTest;
               TouchUser user]))
  else
    call_home_assistant cfg o ip sid user false
      (World (grant_tables ident sid t) (set_blocked_until_ts None s) es).
Proof.
  intros Hs Hi. unfold open_door_pin_success.
  rewrite bind_run, enforce_active_block_run. cbv zeta. rewrite Hs, Hi.
  cbn [orb]. unfold read_ip_block, read_session_block, grant_tables, touch.
  run_handler.
  destruct (test_mode cfg); run_handler; rewrite <- ?List.app_assoc;
    reflexivity.
Qed.

Lemma open_door_oidc_run cfg o ip sid ident user t s es :
  block_active (block_of (session_blocked_until t) sid) (now o) = false →
  block_active (block_of (ip_blocked_until t) ident) (now o) = false →
  open_door_oidc cfg o ip sid ident user (World t s es) =
  if test_mode cfg then
    (Return
       (Response 200 true (WelcomeHomeTest (str_or user "oidc-user")) None),
     World (grant_tables ident sid t) s
       (es ++ [log_event o ip sid (str_or user "oidc-user") SUCCESS
                 DoorOpenedTestOidc]))
  else
    call_home_assistant cfg o ip sid (str_or user "oidc-user") true
      (World (grant_tables ident sid t) s es).
Proof.
  intros Hs Hi. unfold open_door_oidc.
  rewrite bind_run, enforce_active_block_run. cbv zeta. rewrite Hs, Hi.
  cbn [orb]. unfold read_ip_block, read_session_block, grant_tables, touch.
  run_handler.
  rewrite !dd_getitem_again. cbn [fst snd]. rewrite !read_block, Hs.
  run_handler. rewrite !dd_getitem_again. cbn [fst snd].
  rewrite !read_block, Hi.
  run_handler.
  destruct (test_mode cfg); run_handler; reflexivity.
Qed.

(** The whole route on a request that carries the PIN of [user] and gets
    past the screen. *)
Lemma open_door_correct_pin cfg req o st user :
  reaches_authentication cfg req o st = true →
  presents_correct_pin req o user →
  let ip := remote_addr req in
  let sid := session_id_of (cookie req) o in
  let ident := identifier_of cfg req in
  let t' := grant_tables ident sid (screened cfg req o st) in
  let s' := set_blocked_until_ts None
              (after_expiry_check cfg o (with_session_id (cookie req) o)) in
  open_door cfg req o st =
  if test_mode cfg then
    (Response 200 true (WelcomeHomeTest user) None,
     World t' s' [log_event o ip sid user SUCCESS DoorOpenedTest;
                  TouchUser user])
  else
    ((ha_outcome o ip sid user false).1,
     World t' s'
       (HaPost (ha_service_for (entity_id cfg)) (entity_id cfg)
          :: (ha_outcome o ip sid user false).2)).
Proof.
  intros Hreach (p & Hp & Hv & Hm). cbv zeta.
  destruct (reaches_no_memory_block _ _ _ _ Hreach) as [Hs Hi].
  rewrite open_door_past_screen by assumption. unfold try_except.
  rewrite (authenticate_pin _ _ _ _ _ _ _ _ _ p Hp Hv), Hm.
  rewrite open_door_pin_success_run by assumption.
  destruct (test_mode cfg); [reflexivity |].
  rewrite call_home_assistant_run. reflexivity.
Qed.

Lemma open_door_federated cfg req o st :
  reaches_authentication cfg req o st = true →
  presents_federated_session cfg req o →
  let ip := remote_addr req in
  let sid := session_id_of (cookie req) o in
  let ident := identifier_of cfg req in
  let user := str_or (oidc_user (cookie req)) "oidc-user" in
  let t' := grant_tables ident sid (screened cfg req o st) in
  let s' := with_session_id (cookie req) o in
  open_door cfg req o st =
  if test_mode cfg then
    (Response 200 true (WelcomeHomeTest user) None,
     World t' s' [log_event o ip sid user SUCCESS DoorOpenedTestOidc])
  else
    ((ha_outcome o ip sid user true).1,
     World t' s'
       (HaPost (ha_service_for (entity_id cfg)) (entity_id cfg)
          :: (ha_outcome o ip sid user true).2)).
Proof.
  intros Hreach (Hd & Hp & Hm). cbv zeta.
  destruct (reaches_no_memory_block _ _ _ _ Hreach) as [Hs Hi].
  rewrite open_door_past_screen by assumption. unfold try_except.
  rewrite authenticate_federated
    by (rewrite ?oidc_may_open_with_session_id; assumption).
  rewrite open_door_oidc_run by assumption.
  assert (oidc_user (with_session_id (cookie req) o) = oidc_user (cookie req))
    as ->.
  { unfold with_session_id. destruct (_session_id _) as [x|];
      [destruct (PyStr.truthy x) |]; reflexivity. }
  destruct (test_mode cfg); [reflexivity |].
  rewrite call_home_assistant_run. reflexivity.
Qed.

Lemma open_door_suspicious cfg req o st :
  is_request_suspicious req = true →
  open_door cfg req o st =
  (Response 403 false RequestBlocked None,
   World st (with_session_id (cookie req) o)
     [log_event o (remote_addr req) (session_id_of (cookie req) o) "UNKNOWN"
        SUSPICIOUS SuspiciousRequestDetected]).
Proof.
  intros H. unfold open_door, try_except, open_door_body.
  rewrite bind_run, open_door_screen_run. cbv zeta. rewrite H. reflexivity.
Qed.

Lemma open_door_over_budget cfg req o st :
  is_request_suspicious req = false →
  global_budget_left cfg o st = false →
  open_door cfg req o st =
  (Response 429 false ServiceTemporarilyUnavailable None,
   World (roll_global o st) (with_session_id (cookie req) o)
     [log_event o (remote_addr req) (session_id_of (cookie req) o) "UNKNOWN"
        GLOBAL_BLOCKED GlobalRateLimitExceeded]).
Proof.
  intros H G. unfold open_door, try_except, open_door_body.
  rewrite bind_run, open_door_screen_run. cbv zeta. rewrite H, G. reflexivity.
Qed.

(** A request stopped by a block: the answer names a block, one line is
    logged, the tables differ from the rolled ones by subscript reads. *)
Lemma open_door_blocked cfg req o st :
  is_request_suspicious req = false →
  global_budget_left cfg o st = true →
  block_in_effect cfg req o st = true →
  ∃ u t' l,
    open_door cfg req o st
    = (too_many u, World t' (with_session_id (cookie req) o) [Log l]) ∧
    same_limits st t' ∧
    global_failed_attempts t' = global_failed_attempts (roll_global o st) ∧
    global_last_reset t' = global_last_reset (roll_global o st).
Proof.
  intros H G B.
  unfold block_in_effect, cookie_block_in_effect,
    session_block_in_effect, ip_block_in_effect in B.
  unfold open_door, try_except, open_door_body.
  rewrite bind_run, open_door_screen_run. cbv zeta. rewrite H, G. cbn [negb].
  rewrite check_blocks_run, blocked_until_ts_with_session_id.
  destruct (roll_global_tables o st) as (_ & -> & _ & ->).
  destruct (cookie_block_active _ _);
    [| destruct (block_active (block_of (session_blocked_until st) _) _);
       [| destruct (block_active (block_of (ip_blocked_until st) _) _);
          [| discriminate B]]].
  all: cbn [fst snd app]; eexists _, _, _; (split; [reflexivity |]);
    (split; [limits |]); split; reflexivity.
Qed.

Lemma reaches_authentication_false cfg req o st :
  reaches_authentication cfg req o st = false →
  is_request_suspicious req = true ∨
  (is_request_suspicious req = false ∧ global_budget_left cfg o st = false) ∨
  (is_request_suspicious req = false ∧ global_budget_left cfg o st = true ∧
   block_in_effect cfg req o st = true).
Proof.
  unfold reaches_authentication.
  destruct (is_request_suspicious req), (global_budget_left cfg o st),
    (block_in_effect cfg req o st); cbn; intros; try discriminate; tauto.
Qed.

(** The credentials of a request fall in one of six classes. *)
Lemma pin_value_None data :
  negb (json_truthy data) || negb (pin_in_data data) = true →
  json_truthy data && negb (is_dict data) = false →
  pin_value data = None.
Proof.
  destruct data as [| b | n | s | l | d]; cbn; try reflexivity;
    try (destruct b; cbn; intros; congruence);
    try (destruct (n =? 0); cbn; intros; congruence);
    try (destruct s; cbn; intros; congruence);
    try (destruct l; cbn; intros; congruence).
  destruct d as [| kv d]; [reflexivity |]. cbn [negb orb].
  destruct (dict_get "pin" (kv :: d)) eqn:E; [| reflexivity].
  rewrite bool_decide_true by eauto. discriminate.
Qed.

Lemma credentials_cases cfg req o :
  json_truthy (body req) && negb (is_dict (body req)) = true ∨
  presents_federated_session cfg req o ∨
  (json_truthy (body req) && negb (is_dict (body req)) = false ∧
   oidc_may_open cfg o (cookie req) = false ∧
   negb (json_truthy (body req)) || negb (pin_in_data (body req)) = true) ∨
  (∃ v, pin_value (body req) = Some v ∧
        (validate_pin_input v).1 = false ∧
        (json_truthy v = true ∨ oidc_may_open cfg o (cookie req) = false)) ∨
  (∃ user, presents_correct_pin req o user) ∨
  presents_wrong_pin req o.
Proof.
  destruct (json_truthy (body req) && negb (is_dict (body req))) eqn:Hd;
    [left; reflexivity | right].
  destruct (negb (json_truthy (default JNull (pin_value (body req))))
            && oidc_may_open cfg o (cookie req)) eqn:Hshort.
  { left. apply andb_true_iff in Hshort as [Hp Hm].
    apply negb_true_iff in Hp. split; [exact Hd | split; assumption]. }
  right.
  destruct (negb (json_truthy (body req)) || negb (pin_in_data (body req)))
    eqn:Hnopin.
  { left. split; [reflexivity |]. split; [| reflexivity].
    rewrite (pin_value_None _ Hnopin Hd) in Hshort. exact Hshort. }
  right.
  assert (∃ v, pin_value (body req) = Some v) as [v Hv].
  { apply orb_false_iff in Hnopin as [Ht Hin].
    apply negb_false_iff in Ht, Hin.
    destruct (body req) as [| | | | | d]; try discriminate Hin.
    cbn in Hin. apply bool_decide_eq_true in Hin as [v Hv].
    exists v. unfold pin_value. rewrite Ht. exact Hv. }
  rewrite Hv in Hshort. cbn [default from_option id] in Hshort.
  destruct (validate_pin_input v) as [[|] vp] eqn:Hvalid.
  2:{ left. exists v. split; [exact Hv |]. rewrite Hvalid.
      split; [reflexivity |].
      destruct (json_truthy v); [left; reflexivity | right; exact Hshort]. }
  right. destruct (validate_pin_input_true _ _ Hvalid) as (p & -> & ->).
  destruct (matched_user o p) as [user |] eqn:Hu.
  - left. exists user, p. auto.
  - right. exists p. auto.
Qed.

Lemma with_session_id_again cfg c o :
  with_session_id (after_expiry_check cfg o (with_session_id c o)) o
  = after_expiry_check cfg o (with_session_id c o).
Proof.
  unfold with_session_id at 1.
  rewrite session_id_after_expiry_check, session_id_with_session_id.
  destruct (PyStr.truthy (session_id_of c o)) eqn:E; [reflexivity |].
  unfold after_expiry_check, session_id_of, with_session_id in *.
  destruct (_session_id c) as [x |] eqn:Hx;
    [destruct (PyStr.truthy x) eqn:Ex; [congruence |] |];
    destruct (_ && _); reflexivity.
Qed.

Lemma session_id_of_again cfg c o :
  session_id_of (after_expiry_check cfg o (with_session_id c o)) o
  = session_id_of c o.
Proof.
  unfold session_id_of at 1.
  rewrite session_id_after_expiry_check, session_id_with_session_id.
  destruct (PyStr.truthy (session_id_of c o)) eqn:E; [reflexivity |].
  unfold session_id_of in *.
  destruct (_session_id c) as [x |];
    [destruct (PyStr.truthy x) eqn:Ex; [congruence |] |]; reflexivity.
Qed.

Lemma open_door_non_object cfg req o st :
  reaches_authentication cfg req o st = true →
  json_truthy (body req) && negb (is_dict (body req)) = true →
  open_door cfg req o st =
  (Response 500 false InternalServerError None,
   World (screened cfg req o st)
     (after_expiry_check cfg o (with_session_id (cookie req) o))
     [Log (LogEntry (now_exception o) (remote_addr req)
             (PyStr.take 8 (session_id_of (cookie req) o))
             "UNKNOWN" EXCEPTION ExceptionInOpenDoor)]).
Proof.
  intros Hreach Hd. rewrite (open_door_past_screen _ _ _ _ Hreach).
  unfold try_except. rewrite open_door_authenticate_run. cbv zeta. rewrite Hd.
  rewrite open_door_except_run. cbn [tables sess events app].
  rewrite with_session_id_again, session_id_of_again. reflexivity.
Qed.

Lemma open_door_no_pin cfg req o st :
  reaches_authentication cfg req o st = true →
  json_truthy (body req) && negb (is_dict (body req)) = false →
  oidc_may_open cfg o (cookie req) = false →
  negb (json_truthy (body req)) || negb (pin_in_data (body req)) = true →
  open_door cfg req o st =
  (Response 400 false PinRequired None,
   World (screened cfg req o st)
     (after_expiry_check cfg o (with_session_id (cookie req) o)) []).
Proof.
  intros Hreach Hdict Hmay Hnopin.
  rewrite (open_door_past_screen _ _ _ _ Hreach). unfold try_except.
  rewrite open_door_authenticate_run. cbv zeta.
  rewrite Hdict, oidc_may_open_with_session_id, Hmay, andb_false_r, Hnopin.
  reflexivity.
Qed.

Lemma open_door_pin_failure_denies cfg o ip sid ident t s es :
  ∃ d bu t' s' evs,
    open_door_pin_failure cfg o ip sid ident (World t s es)
    = (Return (Response 401 false (Reason d) bu), World t' s' (es ++ evs)) ∧
    ha_posts evs = [] ∧ touched_users evs = [].
Proof.
  unfold open_door_pin_failure. run_handler.
  rewrite !read_counter, !insert_dd_getitem, !dd_getitem_insert. cbn [fst snd].
  rewrite !counter_of_insert_eq.
  destruct (SESSION_MAX_ATTEMPTS cfg
            <=? counter_of (session_failed_attempts t) sid + 1);
    run_handler;
    [| rewrite ?dd_getitem_insert; cbn [fst snd];
       destruct (MAX_ATTEMPTS cfg
                 <=? counter_of (ip_failed_attempts t) ident + 1);
       run_handler;
       [| destruct (0 <? get_delay_seconds
                           (counter_of (session_failed_attempts t) sid + 1));
          run_handler]].
  all: rewrite ?dd_getitem_insert; cbn [fst snd];
    repeat match goal with
      | |- context [if block_active ?b ?t then _ else _] =>
          destruct (block_active b t); run_handler;
          rewrite ?dd_getitem_insert; cbn [fst snd]
      end.
  all: rewrite <- ?List.app_assoc;
    eexists _, _, _, _, _; (split; [reflexivity |]); split; reflexivity.
Qed.

Lemma failed_guess_ha_outcome o ip sid user via :
  failed_guess (ha_outcome o ip sid user via).1 = false.
Proof.
  unfold ha_outcome.
  destruct (ha_post o) as [sc | |]; [| reflexivity | reflexivity].
  destruct (_ && _); [reflexivity |].
  destruct (sc =? 200); reflexivity.
Qed.

Lemma global_grant_tables ident sid t :
  global_failed_attempts (grant_tables ident sid t) = global_failed_attempts t ∧
  global_last_reset (grant_tables ident sid t) = global_last_reset t.
Proof. split; reflexivity. Qed.

Lemma same_limits_screened cfg req o st :
  same_limits st (screened cfg req o st).
Proof. unfold screened. limits. Qed.

Lemma ha_posts_app (es es' : list event) :
  ha_posts (es ++ es') = (ha_posts es ++ ha_posts es')%list.
Proof. apply omap_app. Qed.

(** Every answer either grants nothing, or belongs to a request that got
    past the screen with a matching PIN or an accepted federated session. *)
Lemma open_door_denied_or_authorised cfg req o st :
  let res := open_door cfg req o st in
  (success res.1 = false ∧ code res.1 ≠ 200 ∧
   ha_posts (events res.2) = [] ∧ touched_users (events res.2) = []) ∨
  (reaches_authentication cfg req o st = true ∧
   ((∃ user, presents_correct_pin req o user) ∨
    presents_federated_session cfg req o)).
Proof.
  intros res. subst res.
  destruct (reaches_authentication cfg req o st) eqn:Hreach.
  2:{ left.
      destruct (reaches_authentication_false _ _ _ _ Hreach)
        as [Hs | [[Hs G] | (Hs & G & B)]].
      - rewrite (open_door_suspicious _ _ _ _ Hs). cbn.
        repeat split; discriminate.
      - rewrite (open_door_over_budget _ _ _ _ Hs G). cbn.
        repeat split; discriminate.
      - destruct (open_door_blocked _ _ _ _ Hs G B)
          as (u & t' & l & Hrun & _). rewrite Hrun. cbn.
        repeat split; discriminate. }
  destruct (credentials_cases cfg req o)
    as [Hd | [Hf | [(Hd & Hm & Hn) | [(v & Hv & Hbad & Hor) | [Hu | Hw]]]]];
    [left | right; auto | left | left | right; auto | left].
  - rewrite (open_door_non_object _ _ _ _ Hreach Hd). cbn.
    repeat split; discriminate.
  - rewrite (open_door_no_pin _ _ _ _ Hreach Hd Hm Hn). cbn.
    repeat split; discriminate.
  - rewrite (open_door_malformed_pin _ _ _ _ _ Hreach Hv Hbad Hor). cbn.
    repeat split; discriminate.
  - pose proof (open_door_wrong_pin _ _ _ _ Hreach Hw) as Hrun.
    destruct (open_door_pin_failure_denies cfg o (remote_addr req)
                (session_id_of (cookie req) o) (identifier_of cfg req)
                (screened cfg req o st)
                (after_expiry_check cfg o (with_session_id (cookie req) o)) [])
      as (d & bu & t' & s' & evs & Hrun' & Hha & Htouch).
    rewrite Hrun in Hrun'. injection Hrun' as Hr Hw'.
    rewrite Hr, Hw'. cbn [fst snd success code events app].
    repeat split; try assumption; discriminate.
Qed.

Lemma open_door_authorised cfg req o st user via :
  reaches_authentication cfg req o st = true →
  authorised_as cfg req o user via →
  test_mode cfg = false →
  open_door cfg req o st =
  ((ha_outcome o (remote_addr req) (session_id_of (cookie req) o) user via).1,
   World (grant_tables (identifier_of cfg req) (session_id_of (cookie req) o)
            (screened cfg req o st))
     (if via then with_session_id (cookie req) o
      else set_blocked_until_ts None
             (after_expiry_check cfg o (with_session_id (cookie req) o)))
     (HaPost (ha_service_for (entity_id cfg)) (entity_id cfg)
        :: (ha_outcome o (remote_addr req) (session_id_of (cookie req) o)
              user via).2)).
Proof.
  intros Hreach Hauth Htest. destruct via; cbn in Hauth.
  - destruct Hauth as [Hf ->].
    rewrite (open_door_federated _ _ _ _ Hreach Hf), Htest. reflexivity.
  - rewrite (open_door_correct_pin _ _ _ _ _ Hreach Hauth), Htest. reflexivity.
Qed.

Lemma ha_posts_ha_outcome o ip sid user via :
  ha_posts (ha_outcome o ip sid user via).2 = [].
Proof.
  unfold ha_outcome. destruct (ha_post o) as [sc | |]; try reflexivity.
  destruct (_ && _); [reflexivity |]. destruct (sc =? 200); reflexivity.
Qed.

Lemma counter_of_grant_tables ident sid t :
  counter_of (ip_failed_attempts (grant_tables ident sid t)) ident = 0 ∧
  counter_of (session_failed_attempts (grant_tables ident sid t)) sid = 0 ∧
  block_of (ip_blocked_until (grant_tables ident sid t)) ident = None ∧
  block_of (session_blocked_until (grant_tables ident sid t)) sid = None.
Proof.
  unfold grant_tables.
  cbn [ip_failed_attempts session_failed_attempts ip_blocked_until
       session_blocked_until set_ip_failed_attempts
       set_session_failed_attempts set_ip_blocked_until
       set_session_blocked_until].
  rewrite !counter_of_insert_eq, !block_of_delete_eq. repeat split.
Qed.

Lemma length_lower s : String.length (PyStr.lower s) = String.length s.
Proof. induction s as [| c s IH]; cbn; [reflexivity | by rewrite IH]. Qed.

Lemma truthy_lower s : PyStr.truthy (PyStr.lower s) = PyStr.truthy s.
Proof. destruct s; reflexivity. Qed.

Lemma truthy_length s s' :
  String.length s = String.length s' → PyStr.truthy s = PyStr.truthy s'.
Proof. destruct s, s'; cbn; intros; congruence. Qed.

Lemma admin_auth_run cfg req o password remember_me st :
  let ip := remote_addr req in
  let sid := session_id_of (cookie req) o in
  let c' := with_session_id (cookie req) o in
  let b := block_of (session_blocked_until st) sid in
  let sf := counter_of (session_failed_attempts st) sid + 1 in
  admin_auth cfg req o password remember_me st =
  if block_active b (now o) then
    (Response 429 false AdminTooManyFailedAttempts None,
     World st c'
       [log_event o ip sid "ADMIN" ADMIN_SESSION_BLOCKED
          (AdminAuthBlockedFor (whole_seconds (default 0 b) (now o)))])
  else if String.eqb password (admin_password cfg) then
    (Response 200 true NoMessage None,
     World (admin_success_tables sid st) (set_admin (now o) remember_me c')
       [log_event o ip sid "ADMIN" ADMIN_SUCCESS AdminLogin])
  else
    (Response 403 false InvalidAdminPassword None,
     World (admin_failure_tables cfg o sid st) c'
       ((if 0 <? get_delay_seconds sf then [Sleep (get_delay_seconds sf)]
         else [])
        ++ [log_event o ip sid "ADMIN" ADMIN_FAILURE
              (if SESSION_MAX_ATTEMPTS cfg <=? sf
               then InvalidAdminPasswordBlocked (block_minutes cfg)
               else InvalidAdminPasswordRemaining
                      (SESSION_MAX_ATTEMPTS cfg - sf))])).
Proof.
  cbv zeta. unfold admin_auth, try_except, admin_auth_body.
  rewrite bind_run, get_client_identifier_run. cbv beta iota.
  run_handler.
  set (sid := session_id_of (cookie req) o).
  destruct (block_active (block_of (session_blocked_until st) sid) (now o));
    run_handler; [reflexivity |].
  destruct (String.eqb password (admin_password cfg)); run_handler;
    [reflexivity |].
  unfold admin_failure_tables.
  rewrite !read_counter, !insert_dd_getitem, !dd_getitem_insert. cbn [fst snd].
  rewrite ?counter_of_insert_eq.
  destruct (0 <? _); run_handler;
    destruct (SESSION_MAX_ATTEMPTS cfg <=? _); run_handler; reflexivity.
Qed.

Lemma admin_keys_with_session_id c o :
  admin_keys (with_session_id c o) = admin_keys c.
Proof.
  unfold with_session_id. destruct (_session_id c) as [x |];
    [destruct (PyStr.truthy x) |]; reflexivity.
Qed.

Lemma admin_keys_after_expiry_check cfg o s :
  admin_keys (after_expiry_check cfg o s) = admin_keys s.
Proof. unfold after_expiry_check. destruct (_ && _); reflexivity. Qed.

Lemma open_door_session cfg req o st :
  let res := open_door cfg req o st in
  let s' := after_expiry_check cfg o (with_session_id (cookie req) o) in
  sess res.2 = with_session_id (cookie req) o ∨ sess res.2 = s' ∨
  ∃ v, sess res.2 = set_blocked_until_ts v s'.
Proof.
  intros res s'. subst res s'.
  destruct (reaches_authentication cfg req o st) eqn:Hreach.
  2:{ left. apply open_door_refused. exact Hreach. }
  destruct (credentials_cases cfg req o)
    as [Hd | [Hf | [(Hd & Hm & Hn) | [(v & Hv & Hbad & Hor) | [[u Hu] | Hw]]]]].
  - rewrite (open_door_non_object _ _ _ _ Hreach Hd). right. left. reflexivity.
  - rewrite (open_door_federated _ _ _ _ Hreach Hf). left.
    destruct (test_mode cfg); reflexivity.
  - rewrite (open_door_no_pin _ _ _ _ Hreach Hd Hm Hn). right. left.
    reflexivity.
  - rewrite (open_door_malformed_pin _ _ _ _ _ Hreach Hv Hbad Hor).
    right. left. reflexivity.
  - rewrite (open_door_correct_pin _ _ _ _ _ Hreach Hu). right. right.
    exists None. destruct (test_mode cfg); reflexivity.
  - pose proof (open_door_wrong_pin _ _ _ _ Hreach Hw) as Hrun.
    destruct (open_door_pin_failure_frame cfg o (remote_addr req)
                (session_id_of (cookie req) o) (identifier_of cfg req)
                (screened cfg req o st)
                (after_expiry_check cfg o (with_session_id (cookie req) o)) [])
      as (r & w' & Hrun' & _ & _ & Hs).
    rewrite Hrun in Hrun'. injection Hrun' as _ <-. right. exact Hs.
Qed.

Lemma open_door_admin_keys cfg req o st :
  admin_keys (sess (open_door cfg req o st).2) = admin_keys (cookie req).
Proof.
  destruct (open_door_session cfg req o st) as [-> | [-> | [v ->]]];
    [| | change (admin_keys (set_blocked_until_ts v ?s))
           with (admin_keys s)];
    rewrite ?admin_keys_after_expiry_check;
    apply admin_keys_with_session_id.
Qed.

Lemma blocks_accounted_same_limits cfg t t' :
  same_limits t t' → blocks_accounted cfg t → blocks_accounted cfg t'.
Proof.
  intros (Hic & Hsc & Hib & Hsb) [Hs Hi]. split; intros k u.
  - rewrite Hsb, Hsc. apply Hs.
  - rewrite Hib, Hic. apply Hi.
Qed.

Lemma blocks_accounted_count_failure cfg ident sid t :
  blocks_accounted cfg t → blocks_accounted cfg (count_failure ident sid t).
Proof.
  intros [Hs Hi]. unfold count_failure. split; intros k u;
    cbn [session_blocked_until session_failed_attempts ip_blocked_until
         ip_failed_attempts set_global set_session_failed_attempts
         set_ip_failed_attempts]; intros Hb.
  - destruct (decide (k = sid)) as [-> |].
    + rewrite counter_of_insert_eq. specialize (Hs _ _ Hb). lia.
    + rewrite counter_of_insert_ne by assumption. eauto.
  - destruct (decide (k = ident)) as [-> |].
    + rewrite counter_of_insert_eq. specialize (Hi _ _ Hb). lia.
    + rewrite counter_of_insert_ne by assumption. eauto.
Qed.

Lemma blocks_accounted_grant_tables cfg ident sid t :
  blocks_accounted cfg t → blocks_accounted cfg (grant_tables ident sid t).
Proof.
  intros [Hs Hi]. unfold grant_tables, touch. split; intros k u;
    cbn [session_blocked_until session_failed_attempts ip_blocked_until
         ip_failed_attempts set_session_blocked_until set_ip_blocked_until
         set_session_failed_attempts set_ip_failed_attempts].
  - destruct (decide (k = sid)) as [-> |].
    + rewrite block_of_delete_eq. discriminate.
    + rewrite block_of_delete_ne, block_of_read, counter_of_insert_ne
        by assumption. apply Hs.
  - destruct (decide (k = ident)) as [-> |].
    + rewrite block_of_delete_eq. discriminate.
    + rewrite block_of_delete_ne, block_of_read, counter_of_insert_ne
        by assumption. apply Hi.
Qed.

Lemma blocks_accounted_pin_failure cfg o ip sid ident t s es r w' :
  open_door_pin_failure cfg o ip sid ident (World t s es) = (Return r, w') →
  blocks_accounted cfg t → blocks_accounted cfg (tables w').
Proof.
  intros Hrun [Hs Hi].
  destruct (open_door_pin_failure_spec cfg o ip sid ident t s es)
    as (r' & w'' & Hrun' & _ & [Hic Hico] & [Hsc Hsco] & _ & _ & Hcases).
  rewrite Hrun in Hrun'. injection Hrun' as <- <-.
  assert (∀ k u, block_of (session_blocked_until (tables w')) k = Some u →
                 k = sid ∧ SESSION_MAX_ATTEMPTS cfg
                           <= counter_of (session_failed_attempts t) sid + 1
                 ∨ block_of (session_blocked_until t) k = Some u) as Hsb.
  { intros k u Hb. revert Hcases.
    destruct (Z.leb_spec (SESSION_MAX_ATTEMPTS cfg)
                (counter_of (session_failed_attempts t) sid + 1));
      [| destruct (MAX_ATTEMPTS cfg <=? _)]; cbv zeta.
    - intros ([_ Ho] & _). destruct (decide (k = sid)) as [-> |]; [auto |].
      right. rewrite <- Ho by assumption. exact Hb.
    - intros (Hsame & _). right. rewrite <- Hsame. exact Hb.
    - intros (Hsame & _). right. rewrite <- Hsame. exact Hb. }
  assert (∀ k u, block_of (ip_blocked_until (tables w')) k = Some u →
                 k = ident ∧ MAX_ATTEMPTS cfg
                             <= counter_of (ip_failed_attempts t) ident + 1
                 ∨ block_of (ip_blocked_until t) k = Some u) as Hib.
  { intros k u Hb. revert Hcases.
    destruct (SESSION_MAX_ATTEMPTS cfg <=? _);
      [| destruct (Z.leb_spec (MAX_ATTEMPTS cfg)
                     (counter_of (ip_failed_attempts t) ident + 1))];
      cbv zeta.
    - intros (_ & Hsame & _). right. rewrite <- Hsame. exact Hb.
    - intros (_ & [_ Ho] & _). destruct (decide (k = ident)) as [-> |];
        [auto |]. right. rewrite <- Ho by assumption. exact Hb.
    - intros (_ & Hsame & _). right. rewrite <- Hsame. exact Hb. }
  split; intros k u Hb.
  - destruct (Hsb _ _ Hb) as [[-> Hle] | Hold]; [rewrite Hsc; exact Hle |].
    specialize (Hs _ _ Hold). destruct (decide (k = sid)) as [-> |].
    + rewrite Hsc. lia.
    + rewrite Hsco by assumption. exact Hs.
  - destruct (Hib _ _ Hb) as [[-> Hle] | Hold]; [rewrite Hic; exact Hle |].
    specialize (Hi _ _ Hold). destruct (decide (k = ident)) as [-> |].
    + rewrite Hic. lia.
    + rewrite Hico by assumption. exact Hi.
Qed.

Lemma blocks_accounted_open_door cfg req o st :
  blocks_accounted cfg st →
  blocks_accounted cfg (tables (open_door cfg req o st).2).
Proof.
  intros Hinv.
  assert (blocks_accounted cfg (screened cfg req o st)) as Hscr
    by (eapply blocks_accounted_same_limits;
        [apply same_limits_screened | exact Hinv]).
  destruct (reaches_authentication cfg req o st) eqn:Hreach.
  2:{ eapply blocks_accounted_same_limits; [| exact Hinv].
      apply open_door_refused. exact Hreach. }
  destruct (credentials_cases cfg req o)
    as [Hd | [Hf | [(Hd & Hm & Hn) | [(v & Hv & Hbad & Hor) | [[u Hu] | Hw]]]]].
  - rewrite (open_door_non_object _ _ _ _ Hreach Hd). exact Hscr.
  - rewrite (open_door_federated _ _ _ _ Hreach Hf).
    destruct (test_mode cfg); by apply blocks_accounted_grant_tables.
  - rewrite (open_door_no_pin _ _ _ _ Hreach Hd Hm Hn). exact Hscr.
  - rewrite (open_door_malformed_pin _ _ _ _ _ Hreach Hv Hbad Hor).
    by apply blocks_accounted_count_failure.
  - rewrite (open_door_correct_pin _ _ _ _ _ Hreach Hu).
    destruct (test_mode cfg); by apply blocks_accounted_grant_tables.
  - eapply blocks_accounted_pin_failure;
      [apply (open_door_wrong_pin _ _ _ _ Hreach Hw) | exact Hscr].
Qed.

Lemma blocks_accounted_admin_auth cfg req o password remember_me st :
  blocks_accounted cfg st →
  blocks_accounted cfg
    (tables (admin_auth cfg req o password remember_me st).2).
Proof.
  intros [Hs Hi]. rewrite admin_auth_run. cbv zeta.
  set (sid := session_id_of (cookie req) o).
  destruct (block_active _ _); [split; assumption |].
  destruct (String.eqb _ _); cbn [snd tables].
  - unfold admin_success_tables. split; intros k u;
      cbn [session_blocked_until session_failed_attempts ip_blocked_until
           ip_failed_attempts set_session_blocked_until
           set_session_failed_attempts]; [| apply Hi].
    destruct (decide (k = sid)) as [-> |].
    + rewrite block_of_delete_eq. discriminate.
    + rewrite block_of_delete_ne, counter_of_insert_ne by assumption.
      apply Hs.
  - unfold admin_failure_tables. cbv zeta.
    destruct (Z.leb_spec (SESSION_MAX_ATTEMPTS cfg)
                (counter_of (session_failed_attempts st) sid + 1));
      split; intros k u;
      cbn [session_blocked_until session_failed_attempts ip_blocked_until
           ip_failed_attempts set_session_blocked_until
           set_session_failed_attempts]; try apply Hi;
      (destruct (decide (k = sid)) as [-> |];
       [rewrite ?block_of_insert_eq, counter_of_insert_eq
       | rewrite ?block_of_insert_ne, counter_of_insert_ne by assumption]);
      try (intros _; assumption); try apply Hs.
    intros Hb. specialize (Hs _ _ Hb). lia.
Qed.

Lemma blocks_accounted_s1_blocked : blocks_accounted default_config s1_blocked.
Proof.
  split; intros k u; cbn [s1_blocked session_blocked_until
    session_failed_attempts ip_blocked_until ip_failed_attempts].
  - destruct (decide (k = "s1")) as [-> |].
    + rewrite counter_of_insert_eq. intros _. cbn. lia.
    + rewrite block_of_insert_ne by assumption. discriminate.
  - discriminate.
Qed.

Lemma ha_outcome_contract o ip sid user via :
  let r := (ha_outcome o ip sid user via).1 in
  let evs := (ha_outcome o ip sid user via).2 in
  (success r = true ↔ code r = 200) ∧
  (code r = 200 ∨ code r = 500 ∨ code r = 502) ∧
  blocked_until r = None ∧
  msg r ≠ PinRequired ∧
  sleeps evs = [] ∧
  (logged_statuses evs = [] ∧ code r = 502 ∨
   (∃ st, logged_statuses evs = [st]) ∧ code r ≠ 502).
Proof.
  unfold ha_outcome. destruct (ha_post o) as [sc | |];
    [destruct ((400 <=? sc) && (sc <? 600)); [| destruct (sc =? 200)] | |];
    cbn; repeat split; try discriminate; try tauto; eauto;
    try (right; split; [eauto | discriminate]).
Qed.

Lemma door_codes_spec c :
  c ∈ door_codes ↔
  c = 200 ∨ c = 400 ∨ c = 401 ∨ c = 403 ∨ c = 429 ∨ c = 500 ∨ c = 502.
Proof. unfold door_codes. rewrite !elem_of_cons, elem_of_nil. tauto. Qed.

Lemma get_delay_seconds_le_16 n : get_delay_seconds n <= 16.
Proof. unfold get_delay_seconds. destruct (0 <? n); lia. Qed.

Lemma open_door_pin_failure_effects cfg o ip sid ident t s r w' :
  open_door_pin_failure cfg o ip sid ident (World t s []) = (Return r, w') →
  code r = 401 ∧ msg r ≠ PinRequired ∧
  logged_statuses (events w') = [AUTH_FAILURE] ∧
  (sleeps (events w') = [] ∨
   ∃ n, sleeps (events w') = [n] ∧ 1 <= n <= 16).
Proof.
  intros Hrun.
  destruct (open_door_pin_failure_spec cfg o ip sid ident t s [])
    as (r' & w'' & Hrun' & Hcode & _ & _ & _ & _ & Hcases).
  rewrite Hrun in Hrun'. injection Hrun' as <- <-.
  split; [exact Hcode |]. revert Hcases.
  destruct (SESSION_MAX_ATTEMPTS cfg <=? _);
    [| destruct (MAX_ATTEMPTS cfg <=? _)]; cbv zeta.
  - intros (_ & _ & _ & -> & ->). repeat split; [discriminate | by left].
  - intros (_ & _ & _ & -> & ->). repeat split; [discriminate | by left].
  - intros (_ & _ & _ & -> & ->). split; [discriminate |].
    set (g := get_delay_seconds _).
    pose proof (get_delay_seconds_le_16
                  (counter_of (session_failed_attempts t) sid + 1)) as Hle.
    fold g in Hle.
    destruct (Z.ltb_spec 0 g); cbn; split; try reflexivity;
      [right; exists g; split; [reflexivity | lia] | by left].
Qed.

Lemma effects_disciplined_one_line r l :
  msg r ≠ PinRequired → code r ≠ 502 → effects_disciplined r [Log l].
Proof.
  intros Hm Hc. unfold effects_disciplined. cbn.
  split; [split; [discriminate | tauto] |]. split; [lia |].
  split; [intros n Hn; inversion Hn |]. split; lia.
Qed.

Lemma effects_disciplined_ha o ip sid user via svc en :
  effects_disciplined (ha_outcome o ip sid user via).1
    (HaPost svc en :: (ha_outcome o ip sid user via).2).
Proof.
  destruct (ha_outcome_contract o ip sid user via)
    as (_ & _ & _ & Hm & Hsl & Hlog).
  pose proof (ha_posts_ha_outcome o ip sid user via) as Hha.
  unfold effects_disciplined.
  change (logged_statuses (HaPost svc en :: ?es)) with (logged_statuses es).
  change (sleeps (HaPost svc en :: ?es)) with (sleeps es).
  change (ha_posts (HaPost svc en :: ?es)) with ((svc, en) :: ha_posts es).
  rewrite Hsl, Hha.
  split; [| split; [| split; [intros n Hn; inversion Hn | split; cbn; lia]]].
  - destruct Hlog as [[-> Hc] | [[st Hst] Hc]]; [tauto |].
    rewrite Hst. split; [discriminate | tauto].
  - destruct Hlog as [[-> _] | [[st ->] _]]; cbn; lia.
Qed.

(** ** Properties *)

(** X1. A request whose User-Agent [is_request_suspicious] rejects is answered
    403 "Request blocked" whatever it carries (PIN, federated session,
    cookie): the tables are left exactly as they were (not even the hourly
    window is rolled, no counter moves), the session only gets its id, one
    SUSPICIOUS line is logged, Home Assistant is not called and nothing
    sleeps. *)
Theorem suspicious_request_turned_away cfg req o st :
  is_request_suspicious req = true →
  let res := open_door cfg req o st in
  res.1 = Response 403 false RequestBlocked None ∧
  tables res.2 = st ∧
  sess res.2 = with_session_id (cookie req) o ∧
  logged_statuses (events res.2) = [SUSPICIOUS] ∧
  ha_posts (events res.2) = [] ∧
  sleeps (events res.2) = [].
Proof.
  intros H res. subst res. rewrite (open_door_suspicious _ _ _ _ H).
  repeat split.
Qed.

Lemma suspicious_request_turned_away_witness :
  is_request_suspicious curl_request = true ∧
  (open_door default_config curl_request (at_second 10) seven_failures).1
  = Response 403 false RequestBlocked None.
Proof.
  split; [reflexivity |].
  apply (suspicious_request_turned_away default_config curl_request
           (at_second 10) seven_failures). reflexivity.
Defined.

(** X2. The verdict of [is_request_suspicious] depends on the User-Agent only
    through its lower-cased text: two agents that differ in letter case
    alone get the same verdict. *)
Theorem suspicious_check_ignores_case req req' :
  PyStr.lower (user_agent req) = PyStr.lower (user_agent req') →
  is_request_suspicious req = is_request_suspicious req'.
Proof.
  intros H. unfold is_request_suspicious. cbv zeta.
  assert (String.length (user_agent req) = String.length (user_agent req'))
    as Hlen by (rewrite <- (length_lower (user_agent req)), H;
                apply length_lower).
  rewrite (truthy_length _ _ Hlen). unfold PyStr.len. rewrite Hlen, H.
  reflexivity.
Qed.

Lemma suspicious_check_ignores_case_witness :
  is_request_suspicious shouting_bot = is_request_suspicious quiet_bot.
Proof.
  apply (suspicious_check_ignores_case shouting_bot quiet_bot). reflexivity.
Defined.

(** X3. When the global failure counter has reached
    MAX_GLOBAL_ATTEMPTS_PER_HOUR and no more than one hour has passed since
    the last reset ("more than an hour" is strict), every request that is
    not suspicious is answered 429 "Service temporarily unavailable", also
    one with a correct PIN from a caller who never failed; the tables stay
    as they were, one GLOBAL_BLOCKED line is logged and Home Assistant is
    not called. *)
Theorem exhausted_global_budget_refuses_everyone cfg req o st :
  is_request_suspicious req = false →
  MAX_GLOBAL_ATTEMPTS_PER_HOUR cfg <= global_failed_attempts st →
  now_global o - global_last_reset st <= one_hour →
  let res := open_door cfg req o st in
  res.1 = Response 429 false ServiceTemporarilyUnavailable None ∧
  tables res.2 = st ∧
  sess res.2 = with_session_id (cookie req) o ∧
  logged_statuses (events res.2) = [GLOBAL_BLOCKED] ∧
  ha_posts (events res.2) = [].
Proof.
  intros Hs Hmax Hhour res. subst res.
  assert (roll_global o st = st) as Hroll.
  { unfold roll_global. destruct (Z.ltb_spec one_hour
      (now_global o - global_last_reset st)); [lia | reflexivity]. }
  rewrite open_door_over_budget; [| assumption |].
  - rewrite Hroll. repeat split.
  - unfold global_budget_left. rewrite Hroll. apply Z.ltb_ge. exact Hmax.
Qed.

Lemma exhausted_global_budget_refuses_everyone_witness :
  (open_door default_config (post_pin (JStr "4821") session_s1)
     (at_second 3600) fifty_failures).1
  = Response 429 false ServiceTemporarilyUnavailable None.
Proof.
  apply (exhausted_global_budget_refuses_everyone default_config
           (post_pin (JStr "4821") session_s1) (at_second 3600)
           fifty_failures).
  - reflexivity.
  - vm_compute. intros H. discriminate H.
  - vm_compute. intros H. discriminate H.
Defined.

(** X4. For a request that is not suspicious, the global failure counter after
    the request is the counter the hourly window left (zero when more than
    an hour has passed since the last reset, the old value otherwise) plus
    one exactly when the answer is a failed guess (401, or 400 "Invalid PIN
    format"); the last reset moves to the request's clock reading exactly
    when the window was rolled. Nothing else, a success included, gives
    budget back. *)
Theorem global_counter_accounting cfg req o st :
  is_request_suspicious req = false →
  let res := open_door cfg req o st in
  let elapsed := one_hour <? now_global o - global_last_reset st in
  global_failed_attempts (tables res.2)
  = (if elapsed then 0 else global_failed_attempts st)
    + (if failed_guess res.1 then 1 else 0) ∧
  global_last_reset (tables res.2)
  = (if elapsed then now_global o else global_last_reset st).
Proof.
  intros Hs res elapsed. subst res elapsed.
  assert (global_failed_attempts (roll_global o st)
          = (if one_hour <? now_global o - global_last_reset st
             then 0 else global_failed_attempts st) ∧
          global_last_reset (roll_global o st)
          = (if one_hour <? now_global o - global_last_reset st
             then now_global o else global_last_reset st)) as [<- <-].
  { unfold roll_global. destruct (_ <? _); split; reflexivity. }
  destruct (screened_tables cfg req o st) as (_ & _ & _ & _ & Hg & Hl).
  destruct (reaches_authentication cfg req o st) eqn:Hreach.
  2:{ destruct (reaches_authentication_false _ _ _ _ Hreach)
        as [H | [[_ H] | (_ & G & B)]]; [congruence | |].
      - rewrite (open_door_over_budget _ _ _ _ Hs H). cbn. lia.
      - destruct (open_door_blocked _ _ _ _ Hs G B)
          as (u & t' & l & -> & _ & Hg' & Hl'). cbn [fst snd tables].
        rewrite Hg', Hl'. cbn. lia. }
  destruct (credentials_cases cfg req o)
    as [Hd | [Hf | [(Hd & Hm & Hn) | [(v & Hv & Hbad & Hor) | [[u Hu] | Hw]]]]].
  - rewrite (open_door_non_object _ _ _ _ Hreach Hd). cbn. lia.
  - rewrite (open_door_federated _ _ _ _ Hreach Hf).
    destruct (test_mode cfg); cbn [fst snd tables];
      rewrite ?failed_guess_ha_outcome; cbn; lia.
  - rewrite (open_door_no_pin _ _ _ _ Hreach Hd Hm Hn). cbn. lia.
  - rewrite (open_door_malformed_pin _ _ _ _ _ Hreach Hv Hbad Hor). cbn. lia.
  - rewrite (open_door_correct_pin _ _ _ _ _ Hreach Hu).
    destruct (test_mode cfg); cbn [fst snd tables];
      rewrite ?failed_guess_ha_outcome; cbn; lia.
  - pose proof (open_door_wrong_pin _ _ _ _ Hreach Hw) as Hrun.
    destruct (open_door_pin_failure_spec cfg o (remote_addr req)
                (session_id_of (cookie req) o) (identifier_of cfg req)
                (screened cfg req o st)
                (after_expiry_check cfg o (with_session_id (cookie req) o)) [])
      as (r & w' & Hrun' & Hcode & _ & _ & Hglob & Hlast & _).
    rewrite Hrun in Hrun'. injection Hrun' as <- <-.
    rewrite Hglob, Hlast. unfold failed_guess. rewrite Hcode. cbn. lia.
Qed.

Lemma global_counter_accounting_witness :
  global_failed_attempts
    (tables (open_door default_config (post_pin (JStr "0000") session_s1)
               (at_second 4000) seven_failures).2)
  = (if one_hour <? now_global (at_second 4000)
                    - global_last_reset seven_failures
     then 0 else global_failed_attempts seven_failures)
    + (if failed_guess
            (open_door default_config (post_pin (JStr "0000") session_s1)
               (at_second 4000) seven_failures).1 then 1 else 0).
Proof.
  apply (global_counter_accounting default_config
           (post_pin (JStr "0000") session_s1) (at_second 4000)
           seven_failures).
  reflexivity.
Defined.

(** X5. A request past the screen whose JSON body is truthy but not an object
    (a list, a string, a number, [true]) is answered 500 "Internal server
    error" by the [except] clause: no counter and no block changes, it is
    not a failed guess for the global budget, one EXCEPTION line is logged,
    Home Assistant is not called. *)
Theorem non_object_body_is_server_error cfg req o st :
  reaches_authentication cfg req o st = true →
  json_truthy (body req) = true →
  is_dict (body req) = false →
  let res := open_door cfg req o st in
  res.1 = Response 500 false InternalServerError None ∧
  same_limits st (tables res.2) ∧
  failed_guess res.1 = false ∧
  logged_statuses (events res.2) = [EXCEPTION] ∧
  ha_posts (events res.2) = [] ∧
  sleeps (events res.2) = [].
Proof.
  intros Hreach Ht Hd res. subst res.
  rewrite open_door_non_object by (rewrite ?Ht, ?Hd; auto).
  cbn [fst snd tables events].
  split; [reflexivity |]. split; [apply same_limits_screened |].
  repeat split.
Qed.

Lemma non_object_body_is_server_error_witness :
  (open_door default_config
     (Request "192.0.2.7" browser "en-US" (JList [JStr "4821"]) session_s1)
     (at_second 10) fresh_tables).1
  = Response 500 false InternalServerError None.
Proof.
  apply (non_object_body_is_server_error default_config
           (Request "192.0.2.7" browser "en-US" (JList [JStr "4821"])
              session_s1) (at_second 10) fresh_tables); reflexivity.
Defined.

(** X6. For a request past the screen without a federated session that may
    open the door: a body that is empty or has no "pin" key is answered 400
    "PIN required" with no counter changed and nothing logged, whereas a
    "pin" key with a falsy value (null, the empty string, 0, false, an
    empty list or object) is answered 400 "Invalid PIN format", counted on
    the session counter and logged as INVALID_FORMAT. *)
Theorem missing_pin_is_free_empty_pin_is_not cfg req o st :
  reaches_authentication cfg req o st = true →
  oidc_may_open cfg o (cookie req) = false →
  let res := open_door cfg req o st in
  let sid := session_id_of (cookie req) o in
  (json_truthy (body req) = false ∨
   (∃ d, body req = JDict d ∧ dict_get "pin" d = None) →
   res.1 = Response 400 false PinRequired None ∧
   same_limits st (tables res.2) ∧
   events res.2 = []) ∧
  (∀ v, pin_value (body req) = Some v → json_truthy v = false →
   res.1 = Response 400 false (Reason InvalidPinFormat) None ∧
   counter_of (session_failed_attempts (tables res.2)) sid
   = counter_of (session_failed_attempts st) sid + 1 ∧
   logged_statuses (events res.2) = [INVALID_FORMAT]).
Proof.
  intros Hreach Hmay res sid. subst res sid. split.
  - intros Hbody.
    rewrite open_door_no_pin; try assumption.
    + cbn [fst snd tables events]. split; [reflexivity |].
      split; [apply same_limits_screened | reflexivity].
    + destruct Hbody as [-> | (d & -> & _)]; [reflexivity |].
      cbn. apply andb_false_r.
    + destruct Hbody as [-> | (d & -> & Hd)]; [reflexivity |].
      cbn. rewrite Hd. rewrite bool_decide_false; [apply orb_true_r |].
      intros [x Hx]. discriminate Hx.
  - intros v Hv Hfalsy.
    assert ((validate_pin_input v).1 = false) as Hbad.
    { destruct v as [| | | s | |]; try reflexivity.
      destruct s; [reflexivity | discriminate Hfalsy]. }
    rewrite (open_door_malformed_pin _ _ _ _ _ Hreach Hv Hbad)
      by (right; exact Hmay).
    cbn [fst snd tables events]. split; [reflexivity |].
    split; [| reflexivity].
    unfold count_failure.
    cbn [session_failed_attempts set_global set_session_failed_attempts].
    rewrite counter_of_insert_eq.
    destruct (screened_tables cfg req o st) as (_ & -> & _). reflexivity.
Qed.

Lemma missing_pin_is_free_empty_pin_is_not_witness :
  (open_door default_config (post_nothing session_s1) (at_second 10)
     fresh_tables).1 = Response 400 false PinRequired None ∧
  (open_door default_config (post_pin (JStr "") session_s1) (at_second 10)
     fresh_tables).1 = Response 400 false (Reason InvalidPinFormat) None.
Proof.
  split.
  - apply (missing_pin_is_free_empty_pin_is_not default_config
             (post_nothing session_s1) (at_second 10) fresh_tables);
      [reflexivity | reflexivity | left; reflexivity].
  - apply (missing_pin_is_free_empty_pin_is_not default_config
             (post_pin (JStr "") session_s1) (at_second 10) fresh_tables)
      with (v := JStr ""); reflexivity.
Defined.

(** X7. No way around the credentials: if [open_door] answers success, or
    status 200, or calls Home Assistant, or records the use of a user, then
    the request got past all three screens (suspicious, global budget,
    blocks) and carried either a well-formed PIN that belongs to a user or
    no PIN together with a federated session that may open the door. *)
Theorem no_entry_without_credentials cfg req o st :
  let res := open_door cfg req o st in
  success res.1 = true ∨ code res.1 = 200 ∨ ha_posts (events res.2) ≠ []
  ∨ touched_users (events res.2) ≠ [] →
  reaches_authentication cfg req o st = true ∧
  ((∃ user, presents_correct_pin req o user) ∨
   presents_federated_session cfg req o).
Proof.
  intros res H. subst res.
  destruct (open_door_denied_or_authorised cfg req o st)
    as [(Hs & Hc & Hp & Ht) | Hok]; [exfalso | exact Hok].
  destruct H as [H | [H | [H | H]]]; congruence.
Qed.

Lemma no_entry_without_credentials_witness :
  reaches_authentication default_config (post_pin (JStr "4821") session_s1)
    (at_second 10) fresh_tables = true ∧
  ((∃ user, presents_correct_pin (post_pin (JStr "4821") session_s1)
              (at_second 10) user) ∨
   presents_federated_session default_config
     (post_pin (JStr "4821") session_s1) (at_second 10)).
Proof.
  apply (no_entry_without_credentials default_config
           (post_pin (JStr "4821") session_s1) (at_second 10) fresh_tables).
  left. reflexivity.
Defined.

(** X8. Outside test mode an authorised request (by PIN or by federated
    session) posts to Home Assistant exactly once, to the service chosen by
    the entity's prefix. On a 200 the answer is 200 "Welcome home" and the
    use of the user is recorded; on anything else the answer is an error
    (502 for a 4xx/5xx status or a request exception, 500 otherwise) and no
    use is recorded. Either way the caller's two failure counters are zero
    and the caller's two blocks are gone afterwards. *)
Theorem home_assistant_outcome cfg req o st user via :
  reaches_authentication cfg req o st = true →
  authorised_as cfg req o user via →
  test_mode cfg = false →
  let res := open_door cfg req o st in
  let sid := session_id_of (cookie req) o in
  let ident := identifier_of cfg req in
  ha_posts (events res.2) = [(ha_service_for (entity_id cfg), entity_id cfg)] ∧
  (ha_post o = HaResponse 200 →
   res.1 = Response 200 true (WelcomeHome user) None ∧
   touched_users (events res.2) = [user]) ∧
  (ha_post o ≠ HaResponse 200 →
   success res.1 = false ∧
   touched_users (events res.2) = [] ∧
   code res.1 =
     match ha_post o with
     | HaResponse sc => if (400 <=? sc) && (sc <? 600) then 502 else 500
     | HaRequestException => 502
     | HaOtherException => 500
     end) ∧
  counter_of (ip_failed_attempts (tables res.2)) ident = 0 ∧
  counter_of (session_failed_attempts (tables res.2)) sid = 0 ∧
  block_of (ip_blocked_until (tables res.2)) ident = None ∧
  block_of (session_blocked_until (tables res.2)) sid = None.
Proof.
  intros Hreach Hauth Htest res sid ident. subst res sid ident.
  rewrite (open_door_authorised _ _ _ _ _ _ Hreach Hauth Htest).
  cbn [fst snd events tables].
  split.
  { change (ha_posts (?e :: ?es)) with
      ((ha_service_for (entity_id cfg), entity_id cfg) :: ha_posts es).
    rewrite ha_posts_ha_outcome. reflexivity. }
  split; [| split; [| apply counter_of_grant_tables]].
  - intros Hok. unfold ha_outcome. rewrite Hok. cbn. split; reflexivity.
  - intros Hne. unfold ha_outcome.
    destruct (ha_post o) as [sc | |]; [| repeat split ..].
    destruct (_ && _); [repeat split |].
    destruct (Z.eqb_spec sc 200) as [-> | _]; [congruence |]. repeat split.
Qed.

Lemma home_assistant_outcome_witness :
  ha_posts
    (events (open_door default_config (post_pin (JStr "4821") session_s1)
               (at_second 10) fresh_tables).2)
  = [(ha_service_for (entity_id default_config), entity_id default_config)].
Proof.
  apply (home_assistant_outcome default_config
           (post_pin (JStr "4821") session_s1) (at_second 10) fresh_tables
           "alice" false).
  - reflexivity.
  - exists "4821". repeat split.
  - reflexivity.
Defined.

(** X9. In test mode [open_door] never posts to Home Assistant, whatever the
    request; an authorised request is answered 200 with the test-mode
    message, its session counter is reset, and the use of the user is
    recorded on the PIN path only. *)
Theorem test_mode_never_calls_home_assistant cfg req o st :
  test_mode cfg = true →
  let res := open_door cfg req o st in
  ha_posts (events res.2) = [] ∧
  ∀ user via,
    reaches_authentication cfg req o st = true →
    authorised_as cfg req o user via →
    res.1 = Response 200 true (WelcomeHomeTest user) None ∧
    touched_users (events res.2) = (if via then [] else [user]) ∧
    counter_of (session_failed_attempts (tables res.2))
      (session_id_of (cookie req) o) = 0.
Proof.
  intros Htest res. subst res. split.
  - destruct (ha_posts (events (open_door cfg req o st).2)) eqn:E;
      [reflexivity | exfalso].
    destruct (open_door_denied_or_authorised cfg req o st)
      as [(_ & _ & Hp & _) | [Hreach Hcred]]; [congruence |].
    destruct Hcred as [[u Hu] | Hf].
    + rewrite (open_door_correct_pin _ _ _ _ _ Hreach Hu), Htest in E.
      discriminate E.
    + rewrite (open_door_federated _ _ _ _ Hreach Hf), Htest in E.
      discriminate E.
  - intros user via Hreach Hauth. destruct via; cbn in Hauth.
    + destruct Hauth as [Hf ->].
      rewrite (open_door_federated _ _ _ _ Hreach Hf), Htest.
      cbn [fst snd events tables]. repeat split.
      apply counter_of_grant_tables.
    + rewrite (open_door_correct_pin _ _ _ _ _ Hreach Hauth), Htest.
      cbn [fst snd events tables]. repeat split.
      apply counter_of_grant_tables.
Qed.

Lemma test_mode_never_calls_home_assistant_witness :
  ha_posts
    (events (open_door test_config (post_pin (JStr "4821") session_s1)
               (at_second 10) fresh_tables).2) = [].
Proof.
  apply (test_mode_never_calls_home_assistant test_config
           (post_pin (JStr "4821") session_s1) (at_second 10) fresh_tables).
  reflexivity.
Defined.

(** X10. [find_user], the loop over the effective PINs: it returns [user]
    exactly when [(user, pin)] is the first entry with that PIN, and nothing
    exactly when no entry has that PIN. *)
Theorem find_user_first_match pin pins :
  (∀ user,
     find_user pin pins = Some user ↔
     ∃ before after,
       pins = (before ++ (user, pin) :: after)%list ∧
       ∀ u p, (u, p) ∈ before → p ≠ pin) ∧
  (find_user pin pins = None ↔ ∀ u, (u, pin) ∉ pins).
Proof.
  induction pins as [| [u p] pins [IHs IHn]].
  - split.
    + intros user. split; [discriminate |].
      intros (before & after & H & _). destruct before; discriminate H.
    + split; [| reflexivity]. intros _ u H. inversion H.
  - cbn [find_user]. destruct (String.eqb_spec pin p) as [-> | Hne].
    + split.
      * intros user. split.
        -- intros [= ->]. exists [], pins. split; [reflexivity |].
           intros ? ? H. inversion H.
        -- intros (before & after & H & Hb).
           destruct before as [| [u' p'] before].
           ++ injection H as -> _. reflexivity.
           ++ injection H as -> -> _. exfalso.
              apply (Hb u' p'); [left | reflexivity].
      * split; [discriminate |]. intros H. exfalso. apply (H u). left.
    + split.
      * intros user. rewrite IHs. split.
        -- intros (before & after & -> & Hb).
           exists ((u, p) :: before), after. split; [reflexivity |].
           intros u' p' Hin. apply elem_of_cons in Hin as [[= -> ->] | Hin];
             [congruence | eauto].
        -- intros (before & after & H & Hb).
           destruct before as [| [u' p'] before].
           ++ injection H as _ -> _. congruence.
           ++ injection H as -> -> ->. exists before, after.
              split; [reflexivity |]. intros u'' p'' Hin.
              apply (Hb u'' p''). by right.
      * rewrite IHn. split.
        -- intros H u' Hin. apply elem_of_cons in Hin as [[= -> ->] | Hin];
             [congruence | by apply (H u')].
        -- intros H u' Hin. apply (H u'). by right.
Qed.

(** X11. Every answer of [open_door], refusals included, leaves a session id in
    the cookie: the one the request came with, or the freshly drawn token
    when it had none. An id once set is never replaced, a follow-up request
    with that cookie runs under the same id whatever token it would draw,
    and the admin login of the session (flag, login time, permanence) is
    left as it was. *)
Theorem open_door_keeps_session_identity cfg req o st :
  let res := open_door cfg req o st in
  _session_id (sess res.2) = Some (session_id_of (cookie req) o) ∧
  admin_keys (sess res.2) = admin_keys (cookie req) ∧
  (∀ sid, _session_id (cookie req) = Some sid → PyStr.truthy sid = true →
          _session_id (sess res.2) = Some sid) ∧
  (∀ o', PyStr.truthy (token_hex o) = true →
         session_id_of (sess res.2) o' = session_id_of (cookie req) o).
Proof.
  intros res. subst res.
  assert (_session_id (sess (open_door cfg req o st).2)
          = Some (session_id_of (cookie req) o)) as Hid.
  { destruct (open_door_session cfg req o st) as [-> | [-> | [v ->]]];
      cbn [_session_id set_blocked_until_ts];
      rewrite ?session_id_after_expiry_check;
      apply session_id_with_session_id. }
  split; [exact Hid |]. split; [| split].
  - apply open_door_admin_keys.
  - intros sid Hsid Ht. rewrite Hid.
    by rewrite (session_id_of_established _ _ _ Hsid Ht).
  - intros o' Ht. apply session_id_of_established; [exact Hid |].
    unfold session_id_of. destruct (_session_id (cookie req)) as [x |];
      [destruct (PyStr.truthy x) eqn:E |]; assumption.
Qed.

(** X12. The answers of [open_door]: the status is one of 200, 400, 401, 403,
    429, 500, 502; success is reported exactly with status 200; a
    [blockedUntil] comes only with 401 or 429; 403 is answered exactly to
    suspicious requests and 429 exactly to the other requests that do not
    get past the global budget and the block checks. *)
Theorem open_door_answer_contract cfg req o st :
  let res := open_door cfg req o st in
  code res.1 ∈ door_codes ∧
  (success res.1 = true ↔ code res.1 = 200) ∧
  (blocked_until res.1 ≠ None → code res.1 = 401 ∨ code res.1 = 429) ∧
  (code res.1 = 403 ↔ is_request_suspicious req = true) ∧
  (code res.1 = 429 ↔ reaches_authentication cfg req o st = false ∧
                      is_request_suspicious req = false).
Proof.
  intros res. subst res. rewrite door_codes_spec.
  destruct (reaches_authentication cfg req o st) eqn:Hreach.
  2:{ destruct (reaches_authentication_false _ _ _ _ Hreach)
        as [Hs | [[Hs G] | (Hs & G & B)]].
      - rewrite (open_door_suspicious _ _ _ _ Hs), Hs. cbn.
        repeat split; try discriminate; try tauto.
        intros [_ H]; discriminate H.
      - rewrite (open_door_over_budget _ _ _ _ Hs G), Hs. cbn.
        repeat split; try discriminate; tauto.
      - destruct (open_door_blocked _ _ _ _ Hs G B)
          as (u & t' & l & -> & _). rewrite Hs. cbn.
        repeat split; try discriminate; tauto. }
  assert (is_request_suspicious req = false) as Hs.
  { unfold reaches_authentication in Hreach.
    destruct (is_request_suspicious req); [discriminate | reflexivity]. }
  rewrite Hs.
  assert (∀ r, code r = 200 ∨ code r = 400 ∨ code r = 401 ∨ code r = 500
               ∨ code r = 502 →
               (success r = true ↔ code r = 200) →
               (blocked_until r ≠ None → code r = 401) →
               (code r = 200 ∨ code r = 400 ∨ code r = 401 ∨ code r = 403
                ∨ code r = 429 ∨ code r = 500 ∨ code r = 502) ∧
               (success r = true ↔ code r = 200) ∧
               (blocked_until r ≠ None → code r = 401 ∨ code r = 429) ∧
               (code r = 403 ↔ false = true) ∧
               (code r = 429 ↔ true = false ∧ false = false)) as Hpast.
  { intros r Hc Hsucc Hb. split; [tauto |]. split; [exact Hsucc |].
    split; [auto |].
    split; (split; [intros E; rewrite E in Hc; exfalso; lia | ]);
      [discriminate | intros [H _]; discriminate H]. }
  assert (∀ user via,
            let r := (ha_outcome o (remote_addr req)
                        (session_id_of (cookie req) o) user via).1 in
            (code r = 200 ∨ code r = 400 ∨ code r = 401 ∨ code r = 500
             ∨ code r = 502) ∧
            (success r = true ↔ code r = 200) ∧
            (blocked_until r ≠ None → code r = 401)) as Hha.
  { intros user via.
    destruct (ha_outcome_contract o (remote_addr req)
                (session_id_of (cookie req) o) user via)
      as (Hsucc & Hc & Hb & _). cbv zeta. split; [tauto |].
    split; [exact Hsucc |]. intros H. contradiction. }
  destruct (credentials_cases cfg req o)
    as [Hd | [Hf | [(Hd & Hm & Hn) | [(v & Hv & Hbad & Hor) | [[u Hu] | Hw]]]]].
  - rewrite (open_door_non_object _ _ _ _ Hreach Hd). apply Hpast; cbn;
      [tauto | split; discriminate | intros H; contradiction].
  - rewrite (open_door_federated _ _ _ _ Hreach Hf).
    destruct (test_mode cfg); cbn [fst].
    + apply Hpast; cbn; [tauto | tauto | intros H; contradiction].
    + apply Hpast; apply Hha.
  - rewrite (open_door_no_pin _ _ _ _ Hreach Hd Hm Hn). apply Hpast; cbn;
      [tauto | split; discriminate | intros H; contradiction].
  - rewrite (open_door_malformed_pin _ _ _ _ _ Hreach Hv Hbad Hor).
    apply Hpast; cbn;
      [tauto | split; discriminate | intros H; contradiction].
  - rewrite (open_door_correct_pin _ _ _ _ _ Hreach Hu).
    destruct (test_mode cfg); cbn [fst].
    + apply Hpast; cbn; [tauto | tauto | intros H; contradiction].
    + apply Hpast; apply Hha.
  - pose proof (open_door_wrong_pin _ _ _ _ Hreach Hw) as Hrun.
    destruct (open_door_pin_failure_denies cfg o (remote_addr req)
                (session_id_of (cookie req) o) (identifier_of cfg req)
                (screened cfg req o st)
                (after_expiry_check cfg o (with_session_id (cookie req) o)) [])
      as (d & bu & t' & s' & evs & Hrun' & _).
    rewrite Hrun in Hrun'. injection Hrun' as -> _.
    apply Hpast; cbn; [tauto | split; discriminate | auto].
Qed.

(** X13. The effects of one [open_door] request: at most one line in the audit
    log, and none exactly for "PIN required" and for a 502 (a failed call to
    Home Assistant leaves no audit line); at most one sleep, of 1 to 16
    seconds and only when the answer is 401; at most one call to Home
    Assistant. *)
Theorem open_door_effects_discipline cfg req o st :
  let res := open_door cfg req o st in
  let es := events res.2 in
  (logged_statuses es = [] ↔ msg res.1 = PinRequired ∨ code res.1 = 502) ∧
  (List.length (logged_statuses es) <= 1)%nat ∧
  (∀ n, n ∈ sleeps es → 1 <= n <= 16 ∧ code res.1 = 401) ∧
  (List.length (sleeps es) <= 1)%nat ∧
  (List.length (ha_posts es) <= 1)%nat.
Proof.
  intros res es. subst es res.
  change (effects_disciplined (open_door cfg req o st).1
            (events (open_door cfg req o st).2)).
  destruct (reaches_authentication cfg req o st) eqn:Hreach.
  2:{ destruct (reaches_authentication_false _ _ _ _ Hreach)
        as [Hs | [[Hs G] | (Hs & G & B)]].
      - rewrite (open_door_suspicious _ _ _ _ Hs).
        apply effects_disciplined_one_line; discriminate.
      - rewrite (open_door_over_budget _ _ _ _ Hs G).
        apply effects_disciplined_one_line; discriminate.
      - destruct (open_door_blocked _ _ _ _ Hs G B)
          as (u & t' & l & -> & _).
        apply effects_disciplined_one_line; discriminate. }
  destruct (credentials_cases cfg req o)
    as [Hd | [Hf | [(Hd & Hm & Hn) | [(v & Hv & Hbad & Hor) | [[u Hu] | Hw]]]]].
  - rewrite (open_door_non_object _ _ _ _ Hreach Hd).
    apply effects_disciplined_one_line; discriminate.
  - rewrite (open_door_federated _ _ _ _ Hreach Hf).
    destruct (test_mode cfg); cbn [fst snd events].
    + apply effects_disciplined_one_line; discriminate.
    + apply effects_disciplined_ha.
  - rewrite (open_door_no_pin _ _ _ _ Hreach Hd Hm Hn).
    unfold effects_disciplined. cbn.
    split; [split; [tauto | reflexivity] |]. split; [lia |].
    split; [intros n H; inversion H |]. split; lia.
  - rewrite (open_door_malformed_pin _ _ _ _ _ Hreach Hv Hbad Hor).
    apply effects_disciplined_one_line; discriminate.
  - rewrite (open_door_correct_pin _ _ _ _ _ Hreach Hu).
    destruct (test_mode cfg); cbn [fst snd events].
    + unfold effects_disciplined. cbn.
      split; [split; [discriminate | intros [H | H]; discriminate H] |].
      split; [lia |]. split; [intros n H; inversion H |]. split; lia.
    + apply effects_disciplined_ha.
  - pose proof (open_door_wrong_pin _ _ _ _ Hreach Hw) as Hrun.
    destruct (open_door_pin_failure_effects _ _ _ _ _ _ _ _ _ Hrun)
      as (Hcode & Hmsg & Hlog & Hsleep).
    destruct (open_door_pin_failure_denies cfg o (remote_addr req)
                (session_id_of (cookie req) o) (identifier_of cfg req)
                (screened cfg req o st)
                (after_expiry_check cfg o (with_session_id (cookie req) o)) [])
      as (d & bu & t' & s' & evs & Hrun' & Hha & _).
    rewrite Hrun in Hrun'. injection Hrun' as _ Hw'.
    unfold effects_disciplined. rewrite Hlog.
    split; [split; [discriminate | intros [H | H]; [contradiction | lia]] |].
    split; [cbn; lia |].
    assert (ha_posts (events (open_door cfg req o st).2) = []) as ->
      by (rewrite Hw'; exact Hha).
    destruct Hsleep as [-> | (n & -> & Hn)].
    + split; [intros n H; inversion H |]. split; cbn; lia.
    + split; [| split; cbn; lia].
      intros n' H. apply list_elem_of_singleton in H as ->. auto.
Qed.

(** X14. [admin_auth] for a session with an active in-memory block: 429 whatever
    the password (the right one included), the tables unchanged (the block
    is read with [.get], nothing is inserted), the session unchanged but
    for its id, one ADMIN_SESSION_BLOCKED line, no sleep. *)
Theorem admin_auth_blocked_session cfg req o password remember_me st :
  block_active
    (block_of (session_blocked_until st) (session_id_of (cookie req) o))
    (now o) = true →
  let res := admin_auth cfg req o password remember_me st in
  res.1 = Response 429 false AdminTooManyFailedAttempts None ∧
  tables res.2 = st ∧
  sess res.2 = with_session_id (cookie req) o ∧
  logged_statuses (events res.2) = [ADMIN_SESSION_BLOCKED] ∧
  sleeps (events res.2) = [].
Proof.
  intros Hb res. subst res. rewrite admin_auth_run. cbv zeta. rewrite Hb.
  repeat split.
Qed.

Lemma admin_auth_blocked_session_witness :
  (admin_auth default_config (post_nothing session_s1) (at_second 10)
     "correct horse" false s1_blocked).1
  = Response 429 false AdminTooManyFailedAttempts None.
Proof.
  apply (admin_auth_blocked_session default_config (post_nothing session_s1)
           (at_second 10) "correct horse" false s1_blocked).
  reflexivity.
Defined.

(** X15. [admin_auth] with the right password and no active block: 200, the
    session becomes an admin session (login time = the request's clock
    reading, permanent as "remember me" says), the session's failure
    counter (shared with [open_door]) is set to zero and its in-memory block
    removed; the per-identifier tables, the global counter and the cookie's
    block mirror are not touched, and nothing sleeps. *)
Theorem admin_auth_success cfg req o password remember_me st :
  let sid := session_id_of (cookie req) o in
  block_active (block_of (session_blocked_until st) sid) (now o) = false →
  password = admin_password cfg →
  let res := admin_auth cfg req o password remember_me st in
  res.1 = Response 200 true NoMessage None ∧
  sess res.2
  = set_admin (now o) remember_me (with_session_id (cookie req) o) ∧
  zeroed sid (session_failed_attempts st)
    (session_failed_attempts (tables res.2)) ∧
  block_removed sid (session_blocked_until st)
    (session_blocked_until (tables res.2)) ∧
  ip_failed_attempts (tables res.2) = ip_failed_attempts st ∧
  ip_blocked_until (tables res.2) = ip_blocked_until st ∧
  global_failed_attempts (tables res.2) = global_failed_attempts st ∧
  logged_statuses (events res.2) = [ADMIN_SUCCESS] ∧
  sleeps (events res.2) = [].
Proof.
  intros sid Hb -> res. subst res sid. rewrite admin_auth_run. cbv zeta.
  rewrite Hb, String.eqb_refl. cbn [fst snd tables sess events].
  unfold admin_success_tables.
  cbn [session_failed_attempts session_blocked_until ip_failed_attempts
       ip_blocked_until global_failed_attempts set_session_blocked_until
       set_session_failed_attempts].
  repeat split.
  - apply lookup_insert_eq.
  - intros k' Hk. by apply counter_of_insert_ne.
  - apply lookup_delete_eq.
  - intros k' Hk. by apply block_of_delete_ne.
Qed.

Lemma admin_auth_success_witness :
  (admin_auth default_config (post_nothing session_s1) (at_second 500)
     "correct horse" true s1_blocked).1
  = Response 200 true NoMessage None.
Proof.
  apply (admin_auth_success default_config (post_nothing session_s1)
           (at_second 500) "correct horse" true s1_blocked); reflexivity.
Defined.

(** X16. [admin_auth] with a wrong password and no active block: 403, the
    session counter goes up by one, the progressive delay for the new count
    is slept in every case (also when the session gets blocked), the
    session is blocked in memory for BLOCK_TIME when the count has reached
    SESSION_MAX_ATTEMPTS; the per-identifier tables, the global counter and
    the session cookie (no block mirror, no admin flag) are not touched. *)
Theorem admin_auth_wrong_password cfg req o password remember_me st :
  let sid := session_id_of (cookie req) o in
  let sf := counter_of (session_failed_attempts st) sid + 1 in
  block_active (block_of (session_blocked_until st) sid) (now o) = false →
  password ≠ admin_password cfg →
  let res := admin_auth cfg req o password remember_me st in
  res.1 = Response 403 false InvalidAdminPassword None ∧
  sess res.2 = with_session_id (cookie req) o ∧
  bumped sid (session_failed_attempts st)
    (session_failed_attempts (tables res.2)) ∧
  (if SESSION_MAX_ATTEMPTS cfg <=? sf
   then block_set sid (now o + BLOCK_TIME cfg) (session_blocked_until st)
          (session_blocked_until (tables res.2))
   else session_blocked_until (tables res.2) = session_blocked_until st) ∧
  ip_failed_attempts (tables res.2) = ip_failed_attempts st ∧
  ip_blocked_until (tables res.2) = ip_blocked_until st ∧
  global_failed_attempts (tables res.2) = global_failed_attempts st ∧
  sleeps (events res.2)
  = (if 0 <? sf then [Z.min (2 ^ (sf - 1)) 16] else []) ∧
  logged_statuses (events res.2) = [ADMIN_FAILURE].
Proof.
  intros sid sf Hb Hne res. subst res sid sf. rewrite admin_auth_run.
  cbv zeta. rewrite Hb.
  destruct (String.eqb_spec password (admin_password cfg)) as [? | _];
    [contradiction |].
  cbn [fst snd tables sess events]. unfold admin_failure_tables. cbv zeta.
  set (sid := session_id_of (cookie req) o).
  set (sf := counter_of (session_failed_attempts st) sid + 1).
  split; [reflexivity |]. split; [reflexivity |].
  split; [| split; [| split; [| split; [| split; [| split]]]]].
  - destruct (SESSION_MAX_ATTEMPTS cfg <=? sf);
      cbn [session_failed_attempts set_session_blocked_until
           set_session_failed_attempts]; apply bumped_insert.
  - destruct (SESSION_MAX_ATTEMPTS cfg <=? sf);
      cbn [session_blocked_until set_session_blocked_until
           set_session_failed_attempts]; [| reflexivity].
    split; [apply block_of_insert_eq |].
    intros k' Hk. by apply block_of_insert_ne.
  - destruct (SESSION_MAX_ATTEMPTS cfg <=? sf); reflexivity.
  - destruct (SESSION_MAX_ATTEMPTS cfg <=? sf); reflexivity.
  - destruct (SESSION_MAX_ATTEMPTS cfg <=? sf); reflexivity.
  - unfold get_delay_seconds. destruct (Z.ltb_spec 0 sf) as [Hpos | _];
      [| reflexivity].
    assert ((0 <? Z.min (2 ^ (sf - 1)) 16) = true) as ->; [| reflexivity].
    apply Z.ltb_lt, Z.min_glb_lt; [apply Z.pow_pos_nonneg |]; lia.
  - destruct (0 <? get_delay_seconds sf); reflexivity.
Qed.

Lemma admin_auth_wrong_password_witness :
  (admin_auth default_config (post_nothing session_s1) (at_second 500)
     "battery staple" false s1_blocked).1
  = Response 403 false InvalidAdminPassword None.
Proof.
  apply (admin_auth_wrong_password default_config (post_nothing session_s1)
           (at_second 500) "battery staple" false s1_blocked);
    [reflexivity | discriminate].
Defined.

(** X17. An invariant of the tables: from the empty tables of start-up, after
    any sequence of [open_door] and [admin_auth] requests of any callers,
    every session that has a block entry has a failure count of at least
    SESSION_MAX_ATTEMPTS and every identifier that has a block entry has a
    failure count of at least MAX_ATTEMPTS (counters are not reset when a
    block runs out, only on success). *)
Theorem blocks_accounted_always cfg calls t0 :
  blocks_accounted cfg (serve cfg calls (initial_state t0)).
Proof.
  assert (blocks_accounted cfg (initial_state t0)) as Hinit.
  { split; intros k u H; discriminate H. }
  revert Hinit. generalize (initial_state t0).
  induction calls as [| [req o | req o pw rm] calls IH]; intros st Hinv;
    cbn [serve]; [exact Hinv | |]; apply IH.
  - by apply blocks_accounted_open_door.
  - by apply blocks_accounted_admin_auth.
Qed.

(** X18. When every block entry belongs to a counter at its threshold (the
    invariant above, [blocks_accounted]), a session that has been blocked
    before and now gets a 401 (so the block has run out) is blocked again by
    that single wrong PIN for a full BLOCK_TIME, in memory and in the
    cookie. *)
Theorem lapsed_block_renewed_by_one_wrong_pin cfg req o st u :
  let sid := session_id_of (cookie req) o in
  let res := open_door cfg req o st in
  blocks_accounted cfg st →
  block_of (session_blocked_until st) sid = Some u →
  code res.1 = 401 →
  u <= now o ∧
  block_of (session_blocked_until (tables res.2)) sid
  = Some (now o + BLOCK_TIME cfg) ∧
  blocked_until_ts (sess res.2) = Some (now_persist o + BLOCK_TIME cfg).
Proof.
  intros sid res [Hs _] Hb Hcode. subst sid res.
  destruct (wrong_pin_step cfg req o st Hcode) as (_ & _ & Hblock).
  split; [| apply Hblock; specialize (Hs _ _ Hb); lia].
  destruct (open_door_frame cfg req o st) as (_ & H401 & _).
  destruct (H401 Hcode) as (Hreach & _).
  unfold reaches_authentication in Hreach.
  apply andb_true_iff in Hreach as [_ Hreach].
  apply negb_true_iff in Hreach. unfold block_in_effect in Hreach.
  apply orb_false_iff in Hreach as [Hreach _].
  apply orb_false_iff in Hreach as [_ Hreach].
  unfold session_block_in_effect in Hreach. rewrite Hb in Hreach.
  cbn in Hreach. apply Z.ltb_ge in Hreach. exact Hreach.
Qed.

Lemma lapsed_block_renewed_by_one_wrong_pin_witness :
  400 * one_second <= now (at_second 500) ∧
  block_of
    (session_blocked_until
       (tables (open_door default_config (post_pin (JStr "0000") session_s1)
                  (at_second 500) s1_blocked).2)) "s1"
  = Some (now (at_second 500) + BLOCK_TIME default_config) ∧
  blocked_until_ts
    (sess (open_door default_config (post_pin (JStr "0000") session_s1)
             (at_second 500) s1_blocked).2)
  = Some (now_persist (at_second 500) + BLOCK_TIME default_config).
Proof.
  apply (lapsed_block_renewed_by_one_wrong_pin default_config
           (post_pin (JStr "0000") session_s1) (at_second 500) s1_blocked
           (400 * one_second)).
  - exact blocks_accounted_s1_blocked.
  - reflexivity.
  - reflexivity.
Defined.

(** X19. The two routes share the session counter and block: after a wrong
    admin password that brings the session counter to SESSION_MAX_ATTEMPTS,
    a request to [open_door] with the cookie of that answer, made before
    BLOCK_TIME has passed, is answered 429 "Too many failed attempts" and
    Home Assistant is not called, whatever PIN it carries. *)
Theorem admin_failures_lock_the_door cfg req o password remember_me st
    req' o' :
  let sid := session_id_of (cookie req) o in
  let a := admin_auth cfg req o password remember_me st in
  let d := open_door cfg req' o' (tables a.2) in
  block_active (block_of (session_blocked_until st) sid) (now o) = false →
  password ≠ admin_password cfg →
  SESSION_MAX_ATTEMPTS cfg <= counter_of (session_failed_attempts st) sid + 1 →
  PyStr.truthy sid = true →
  cookie req' = sess a.2 →
  is_request_suspicious req' = false →
  global_budget_left cfg o' (tables a.2) = true →
  now o' < now o + BLOCK_TIME cfg →
  code d.1 = 429 ∧ msg d.1 = TooManyFailedAttempts ∧
  success d.1 = false ∧ ha_posts (events d.2) = [].
Proof.
  intros sid a d Hb Hne Hmax Ht Hcookie Hs Hg Hnow. subst d.
  assert (sess a.2 = with_session_id (cookie req) o ∧
          block_of (session_blocked_until (tables a.2)) sid
          = Some (now o + BLOCK_TIME cfg)) as [Hsess Hblock].
  { subst a. rewrite admin_auth_run. cbv zeta. fold sid. rewrite Hb.
    destruct (String.eqb_spec password (admin_password cfg)) as [? | _];
      [contradiction |].
    cbn [snd sess tables]. split; [reflexivity |].
    unfold admin_failure_tables. cbv zeta.
    destruct (Z.leb_spec (SESSION_MAX_ATTEMPTS cfg)
                (counter_of (session_failed_attempts st) sid + 1)); [| lia].
    cbn [session_blocked_until set_session_blocked_until].
    apply block_of_insert_eq. }
  assert (block_in_effect cfg req' o' (tables a.2) = true) as Hin.
  { unfold block_in_effect, session_block_in_effect.
    assert (session_id_of (cookie req') o' = sid) as ->.
    { apply session_id_of_established; [| exact Ht].
      rewrite Hcookie, Hsess. apply session_id_with_session_id. }
    rewrite Hblock. cbn [block_active].
    apply Z.ltb_lt in Hnow. rewrite Hnow. apply orb_true_iff. left.
    apply orb_true_r. }
  destruct (open_door_blocked _ _ _ _ Hs Hg Hin) as (u & t' & l & -> & _).
  repeat split.
Qed.

Lemma admin_failures_lock_the_door_witness :
  let a := admin_auth default_config (post_nothing session_s1) (at_second 10)
             "battery staple" false s1_failed_twice in
  let d := open_door default_config (post_pin (JStr "4821") session_s1)
             (at_second 20) (tables a.2) in
  code d.1 = 429 ∧ msg d.1 = TooManyFailedAttempts ∧
  success d.1 = false ∧ ha_posts (events d.2) = [].
Proof.
  apply (admin_failures_lock_the_door default_config
           (post_nothing session_s1) (at_second 10) "battery staple" false
           s1_failed_twice (post_pin (JStr "4821") session_s1) (at_second 20)).
  - reflexivity.
  - discriminate.
  - vm_compute. intros H. discriminate H.
  - reflexivity.
  - reflexivity.
  - reflexivity.
  - reflexivity.
  - reflexivity.
Defined.

(** X20. Conversely: after a wrong PIN that brings the session counter to
    SESSION_MAX_ATTEMPTS, an admin login with the cookie of that answer,
    made before BLOCK_TIME has passed, is answered 429 even with the right
    password; it changes no table and does not make the session an admin
    session. *)
Theorem door_failures_lock_admin_login cfg req o st req' o' password
    remember_me :
  let sid := session_id_of (cookie req) o in
  let d := open_door cfg req o st in
  let a := admin_auth cfg req' o' password remember_me (tables d.2) in
  code d.1 = 401 →
  SESSION_MAX_ATTEMPTS cfg <= counter_of (session_failed_attempts st) sid + 1 →
  PyStr.truthy sid = true →
  cookie req' = sess d.2 →
  now o' < now o + BLOCK_TIME cfg →
  a.1 = Response 429 false AdminTooManyFailedAttempts None ∧
  tables a.2 = tables d.2 ∧
  admin_keys (sess a.2) = admin_keys (cookie req).
Proof.
  intros sid d a Hcode Hmax Ht Hcookie Hnow. subst a.
  destruct (wrong_pin_step cfg req o st Hcode) as (_ & Hid & Hblock).
  destruct (Hblock Hmax) as [Hb _]. fold d sid in Hid, Hb.
  rewrite admin_auth_run. cbv zeta.
  assert (session_id_of (cookie req') o' = sid) as ->
    by (apply session_id_of_established; [rewrite Hcookie |]; assumption).
  rewrite Hb. cbn [block_active]. apply Z.ltb_lt in Hnow. rewrite Hnow.
  cbn [fst snd tables sess]. split; [reflexivity |]. split; [reflexivity |].
  rewrite admin_keys_with_session_id, Hcookie.
  apply open_door_admin_keys.
Qed.

Lemma door_failures_lock_admin_login_witness :
  let d := open_door default_config (post_pin (JStr "0000") session_s1)
             (at_second 10) s1_failed_twice in
  let a := admin_auth default_config (post_nothing (sess d.2)) (at_second 20)
             "correct horse" false (tables d.2) in
  a.1 = Response 429 false AdminTooManyFailedAttempts None ∧
  tables a.2 = tables d.2 ∧
  admin_keys (sess a.2) = admin_keys session_s1.
Proof.
  apply (door_failures_lock_admin_login default_config
           (post_pin (JStr "0000") session_s1) (at_second 10) s1_failed_twice
           (post_nothing
              (sess (open_door default_config
                       (post_pin (JStr "0000") session_s1) (at_second 10)
                       s1_failed_twice).2))
           (at_second 20) "correct horse" false).
  - reflexivity.
  - vm_compute. intros H. discriminate H.
  - reflexivity.
  - reflexivity.
  - reflexivity.
Defined.

(** X21. [admin_auth], [admin_check_auth] and [admin_logout]: after a 200 of
    [admin_auth] the check reports the session authenticated with the
    request's clock reading as login time; after any other answer (wrong
    password, blocked) the check reports what it reported before, so a
    failed attempt does not end an existing admin login; after
    [admin_logout] the check reports not authenticated, while the session
    id, the block mirror and the federated session are kept. *)
Theorem admin_session_round_trip cfg req o password remember_me st :
  let res := admin_auth cfg req o password remember_me st in
  (code res.1 = 200 →
   admin_check_auth (sess res.2) = Authenticated (Some (now o)) ∧
   permanent (sess res.2) = remember_me) ∧
  (code res.1 ≠ 200 →
   admin_check_auth (sess res.2) = admin_check_auth (cookie req)) ∧
  admin_check_auth (admin_logout (sess res.2)) = NotAuthenticated ∧
  _session_id (admin_logout (sess res.2)) = _session_id (sess res.2) ∧
  blocked_until_ts (admin_logout (sess res.2)) = blocked_until_ts (cookie req) ∧
  oidc_keys (admin_logout (sess res.2)) = oidc_keys (cookie req).
Proof.
  intros res. subst res. rewrite admin_auth_run. cbv zeta.
  assert (∀ c, admin_check_auth (with_session_id c o) = admin_check_auth c)
    as Hcheck.
  { intros c. unfold with_session_id. destruct (_session_id c) as [x |];
      [destruct (PyStr.truthy x) |]; reflexivity. }
  pose proof (blocked_until_ts_with_session_id (cookie req) o) as Hts.
  pose proof (oidc_keys_with_session_id (cookie req) o) as Hkeys.
  destruct (block_active _ _); [| destruct (String.eqb _ _)];
    cbn [fst snd code sess]; repeat split; try (intros H; congruence);
    try discriminate; try (intros _; apply Hcheck); try exact Hts;
    try exact Hkeys.
Qed.

(** X22. [auth_status] reports a federated login whenever OIDC is enabled and
    the session carries the flag; it does not look at the expiry. After an
    [open_door] request that got past the screen it reports what it would
    report for the session after the expiry check: a federated login
    exactly when the session had one that had not expired at that
    request. *)
Theorem auth_status_after_open_door cfg req o st :
  let res := open_door cfg req o st in
  (∀ s, status_oidc_authenticated (auth_status cfg s) = oidc_session cfg s) ∧
  (reaches_authentication cfg req o st = true →
   auth_status cfg (sess res.2)
   = auth_status cfg (after_expiry_check cfg o (cookie req)) ∧
   status_oidc_authenticated (auth_status cfg (sess res.2))
   = oidc_session cfg (cookie req) && negb (oidc_exp_passed o (cookie req))).
Proof.
  intros res. subst res. split; [reflexivity |]. intros Hreach.
  pose proof (open_door_oidc_keys cfg req o st Hreach) as Hkeys.
  unfold oidc_keys in Hkeys. injection Hkeys as Ha Hu Hg _.
  assert (auth_status cfg (sess (open_door cfg req o st).2)
          = auth_status cfg (after_expiry_check cfg o (cookie req))) as Heq.
  { unfold auth_status. rewrite Ha, Hu, Hg. reflexivity. }
  split; [exact Heq |]. rewrite Heq.
  unfold auth_status, after_expiry_check, oidc_session.
  cbn [status_oidc_authenticated].
  destruct (oauth cfg); [| reflexivity]. cbn [andb].
  destruct (bool_decide (oidc_authenticated (cookie req) = Some true)) eqn:E;
    cbn [andb]; [| rewrite E; reflexivity].
  destruct (oidc_exp_passed o (cookie req)); cbn [negb pop_oidc
    oidc_authenticated]; [reflexivity | exact E].
Qed.

Lemma auth_status_after_open_door_witness :
  status_oidc_authenticated
    (auth_status oidc_config
       (sess (open_door oidc_config (post_nothing session_s1_expired)
                (at_second 10) fresh_tables).2)) = false ∧
  status_oidc_authenticated (auth_status oidc_config session_s1_expired)
  = true.
Proof.
  split.
  - apply (auth_status_after_open_door oidc_config
             (post_nothing session_s1_expired) (at_second 10) fresh_tables).
    reflexivity.
  - reflexivity.
Defined.

(** X23. [oidc_logout] empties the session on every path, whatever the fetch of
    the provider's discovery document gave (errors included) and whether
    OIDC is enabled or not: afterwards the session is neither an admin
    session nor a federated one, and a request to [open_door] with it that
    carries no user's PIN is not granted. The answer redirects to the
    provider exactly when OIDC is enabled, the fetch returned status 200 and
    the document has a non-empty [end_session_endpoint]. *)
Theorem oidc_logout_clears_session cfg fetched s :
  let r := oidc_logout cfg fetched s in
  r.2 = empty_session ∧
  admin_check_auth r.2 = NotAuthenticated ∧
  status_oidc_authenticated (auth_status cfg r.2) = false ∧
  (∀ url, r.1 = RedirectToProvider url ↔
          oauth cfg = true ∧ fetched = WellKnown 200 (Some url) ∧
          PyStr.truthy url = true) ∧
  ∀ req o st,
    cookie req = r.2 →
    (∀ user, ¬ presents_correct_pin req o user) →
    success (open_door cfg req o st).1 = false ∧
    ha_posts (events (open_door cfg req o st).2) = [].
Proof.
  intros r. subst r.
  assert ((oidc_logout cfg fetched s).2 = empty_session) as Hs.
  { unfold oidc_logout. destruct (oauth cfg); [| reflexivity].
    destruct fetched as [sc [url |] |]; try reflexivity;
      destruct (sc =? 200); try reflexivity.
    destruct (PyStr.truthy url); reflexivity. }
  rewrite Hs. split; [reflexivity |]. split; [reflexivity |].
  split; [unfold auth_status; cbn; apply andb_false_r |]. split.
  - intros url. unfold oidc_logout. split.
    + destruct (oauth cfg); [| discriminate].
      destruct fetched as [sc [url' |] |]; try discriminate;
        destruct (Z.eqb_spec sc 200) as [-> |]; try discriminate.
      destruct (PyStr.truthy url') eqn:E; [| discriminate].
      intros [= ->]. auto.
    + intros (-> & -> & Ht). cbn. rewrite Ht. reflexivity.
  - intros req o st Hcookie Hnopin.
    destruct (open_door_denied_or_authorised cfg req o st)
      as [(Hd & _ & Hp & _) | (_ & [[u Hu] | (_ & _ & Hmay)])].
    + split; assumption.
    + exfalso. exact (Hnopin u Hu).
    + exfalso. rewrite Hcookie in Hmay.
      unfold oidc_may_open, oidc_session in Hmay.
      cbn in Hmay. rewrite andb_false_r in Hmay. discriminate Hmay.
Qed.

(** X24. The routes that write the user store (create, update, delete): without
    an admin session the answer is 401, the session is unchanged and
    nothing happens; the store is called at most once per request, only
    for an admin session and never for a user defined in the configuration
    file; the answer is 200/201 exactly when that call went through, and
    the audit line is written exactly then. *)
Theorem user_store_guarded user_pins rq req o store s :
  let res := admin_users_write user_pins rq req o store s in
  let ans := res.1.1 in
  let evs := res.2 in
  (admin_check_auth s = NotAuthenticated →
   ans = (401, AuthenticationRequired) ∧ res.1.2 = s ∧ evs = []) ∧
  (List.length (store_calls evs) <= 1)%nat ∧
  (∀ c, c ∈ store_calls evs →
        admin_authenticated s = Some true ∧
        ∀ u, store_target c = JStr u → u ∉ user_pins.*1) ∧
  (ans.1 = 200 ∨ ans.1 = 201 ↔ store = StoreDone ∧ store_calls evs ≠ []) ∧
  (admin_log_lines evs ≠ [] ↔ ans.1 = 200 ∨ ans.1 = 201).
Proof.
  intros res ans evs. subst ans evs res.
  assert (∀ (a : users_answer) (s' : session),
            a.1 ≠ 200 → a.1 ≠ 201 →
            (admin_check_auth s = NotAuthenticated →
             a = (401, AuthenticationRequired) ∧ s' = s) →
            let res := (a, s', @nil admin_event) in
            (admin_check_auth s = NotAuthenticated →
             res.1.1 = (401, AuthenticationRequired) ∧ res.1.2 = s ∧
             res.2 = []) ∧
            (List.length (store_calls res.2) <= 1)%nat ∧
            (∀ c, c ∈ store_calls res.2 →
                  admin_authenticated s = Some true ∧
                  ∀ u, store_target c = JStr u → u ∉ user_pins.*1) ∧
            (res.1.1.1 = 200 ∨ res.1.1.1 = 201 ↔
             store = StoreDone ∧ store_calls res.2 ≠ []) ∧
            (admin_log_lines res.2 ≠ [] ↔
             res.1.1.1 = 200 ∨ res.1.1.1 = 201)) as Hquiet.
  { intros a s' H200 H201 Hno. cbn. split; [| split; [lia |]].
    - intros H. destruct (Hno H). auto.
    - split; [intros c Hc; inversion Hc |]. split; split; tauto. }
  assert (∀ (a : users_answer) (s' : session) c logged,
            admin_authenticated s = Some true →
            (∀ u, store_target c = JStr u → u ∉ user_pins.*1) →
            store_calls logged = [] →
            (a.1 = 200 ∨ a.1 = 201 ↔ store = StoreDone) →
            (admin_log_lines logged ≠ [] ↔ a.1 = 200 ∨ a.1 = 201) →
            let res := (a, s', StoreCall c :: logged) in
            (admin_check_auth s = NotAuthenticated →
             res.1.1 = (401, AuthenticationRequired) ∧ res.1.2 = s ∧
             res.2 = []) ∧
            (List.length (store_calls res.2) <= 1)%nat ∧
            (∀ c, c ∈ store_calls res.2 →
                  admin_authenticated s = Some true ∧
                  ∀ u, store_target c = JStr u → u ∉ user_pins.*1) ∧
            (res.1.1.1 = 200 ∨ res.1.1.1 = 201 ↔
             store = StoreDone ∧ store_calls res.2 ≠ []) ∧
            (admin_log_lines res.2 ≠ [] ↔
             res.1.1.1 = 200 ∨ res.1.1.1 = 201)) as Hcalled.
  { intros a s' c logged Hadmin Htarget Hlogged Hdone Hlog. cbn [fst snd].
    change (store_calls (StoreCall c :: logged))
      with (c :: store_calls logged).
    change (admin_log_lines (StoreCall c :: logged))
      with (admin_log_lines logged).
    rewrite Hlogged. split; [| split; [cbn; lia |]].
    - unfold admin_check_auth. rewrite bool_decide_true by assumption.
      discriminate.
    - split; [| split; [| exact Hlog]].
      + intros c' Hc. apply list_elem_of_singleton in Hc as ->. auto.
      + rewrite Hdone. split; [intros ->; split; [reflexivity | discriminate]
                              | tauto]. }
  unfold admin_users_write, admin_users_create, admin_users_update,
    admin_users_delete, _require_admin_authenticated, log_admin.
  destruct (bool_decide (admin_authenticated s = Some true)) eqn:Hadmin;
    cbn [negb].
  2:{ destruct rq; apply Hquiet; cbn; try discriminate; auto. }
  apply bool_decide_eq_true in Hadmin.
  assert (admin_check_auth s = NotAuthenticated → False) as Hyes.
  { unfold admin_check_auth. rewrite bool_decide_true by assumption.
    discriminate. }
  destruct rq as [| username | username].
  - destruct (body_object (body req)) as [d |]; cbv zeta;
      [| apply Hquiet; cbn; try discriminate; tauto].
    destruct (negb (json_truthy _) || negb (json_truthy _));
      [apply Hquiet; cbn; try discriminate; tauto |].
    destruct (in_user_pins _ user_pins) as [[|] |] eqn:Hin;
      [apply Hquiet; cbn; try discriminate; tauto | |
       apply Hquiet; cbn; try discriminate; tauto].
    assert (∀ u, default JNull (dict_get "username" d) = JStr u →
                 u ∉ user_pins.*1) as Hnot.
    { intros u Hu. rewrite Hu in Hin. cbn in Hin. injection Hin as Hin.
      by apply bool_decide_eq_false in Hin. }
    destruct store; apply Hcalled; try assumption; try reflexivity; cbn;
      split; try discriminate; try tauto;
      try (intros [H | H]; discriminate H); auto.
  - destruct (bool_decide (username ∈ user_pins.*1)) eqn:Hin;
      [apply Hquiet; cbn; try discriminate; tauto |].
    apply bool_decide_eq_false in Hin.
    destruct (body_object (body req)) as [d |]; cbv zeta;
      [| apply Hquiet; cbn; try discriminate; tauto].
    destruct store; apply Hcalled; try assumption; try reflexivity; cbn;
      try (intros u [= <-]; assumption);
      split; try discriminate; try tauto;
      try (intros [H | H]; discriminate H); auto.
  - destruct (bool_decide (username ∈ user_pins.*1)) eqn:Hin;
      [apply Hquiet; cbn; try discriminate; tauto |].
    apply bool_decide_eq_false in Hin.
    destruct store; apply Hcalled; try assumption; try reflexivity; cbn;
      try (intros u [= <-]; assumption);
      split; try discriminate; try tauto;
      try (intros [H | H]; discriminate H); auto.
Qed.
